(** * radical: the request handlers of worker.js, embedded and verified

    The worker answers HTTP requests against a relational store (D1).  This
    development embeds the vote toggle engine ([createOrUpdateVote],
    [createOrUpdateCommentVote]), the proposal listing ([getProposals]), the
    share-image renderer ([generatePetitionSVG], [generateSVGTextLines],
    [escapeHTML]) and the meta-tag injector ([serveCustomizedHtml]), and
    further the router ([fetch], [handleOptions], [validateRequest]), the
    read handlers ([getCommentVotes], [getProposalById],
    [getPetitionStats]), [createOrGetUser], the media handlers
    ([uploadMeme], [serveMedia]) and the fetch listener of
    service-worker.js.

    Conventions of the embedding:
    - a table is the list of its rows in scan order; [first()] is the first
      row of that order that satisfies the WHERE clause;
    - every handler takes the store and returns the new store together with
      its response; [Date.now()], [Math.random()] and the row id chosen by
      the store for an INSERT are explicit arguments;
    - store calls do not throw here, so the [catch] branches that turn a
      store failure into a 500 response have no counterpart;
    - a JavaScript string is a [string]; a character stands for one code
      unit. *)

From Stdlib Require Import ZArith List String Ascii Bool Lia Sorted.
From Stdlib Require Import DecimalString Permutation.
Import ListNotations.

Local Open Scope string_scope.
Local Open Scope list_scope.

(* ================================================================== *)
(** * Entity store *)
(* ================================================================== *)

Record UserRow := mkUser {
  user_id : string;
  user_name : string
}.

Record ProposalRow := mkProposal {
  prop_id : string;
  prop_author_id : string;
  prop_text : string;
  prop_timestamp : Z;
  prop_trending : Z;
  prop_meme_url : option string
}.

Record CommentRow := mkComment {
  comment_id : string;
  comment_proposal_id : string;
  comment_user_id : string
}.

Record VoteRow := mkVote {
  vote_id : Z;
  vote_proposal_id : string;
  vote_user_id : string;
  vote_type : string;
  vote_timestamp : Z;
  vote_is_petition : Z
}.

Record CommentVoteRow := mkCommentVote {
  cv_id : string;
  cv_comment_id : string;
  cv_user_id : string;
  cv_vote_type : string;
  cv_timestamp : Z
}.

(** The id column of this table, which the store assigns and no handler
    reads back, is left out. *)
Record PetitionDetailRow := mkPetitionDetail {
  pd_user_id : string;
  pd_proposal_id : string;
  pd_full_name : string;
  pd_address : string;
  pd_postcode : string;
  pd_dob : string;
  pd_email : string;
  pd_timestamp : Z;
  pd_verified : Z
}.

Record Store := mkStore {
  users : list UserRow;
  proposals : list ProposalRow;
  comments : list CommentRow;
  votes : list VoteRow;
  comment_votes : list CommentVoteRow;
  petition_details : list PetitionDetailRow
}.

(** The four statement shapes the handlers issue. *)
Definition first {A} (where_ : A -> bool) (table : list A) : option A :=
  find where_ table.

Definition delete_from {A} (where_ : A -> bool) (table : list A) : list A :=
  filter (fun r => negb (where_ r)) table.

Definition update_set {A} (set : A -> A) (where_ : A -> bool) (table : list A)
  : list A :=
  map (fun r => if where_ r then set r else r) table.

Definition insert_into {A} (table : list A) (row : A) : list A :=
  table ++ [row].

Definition set_votes (s : Store) (v : list VoteRow) : Store :=
  mkStore (users s) (proposals s) (comments s) v (comment_votes s)
          (petition_details s).

Definition set_comment_votes (s : Store) (v : list CommentVoteRow) : Store :=
  mkStore (users s) (proposals s) (comments s) (votes s) v
          (petition_details s).

Definition set_petition_details (s : Store) (p : list PetitionDetailRow)
  : Store :=
  mkStore (users s) (proposals s) (comments s) (votes s) (comment_votes s) p.

(* ================================================================== *)
(** * Request values *)
(* ================================================================== *)

(** A field of a parsed JSON body: absent ([None]) or a string.  A field is
    truthy when it is present and not the empty string. *)
Definition truthy (v : option string) : bool :=
  match v with
  | Some s => negb (s =? EmptyString)
  | None => false
  end.

Definition str (v : option string) : string :=
  match v with Some s => s | None => EmptyString end.

Record PetitionPayload := mkPayload {
  fullName : option string;
  address : option string;
  postcode : option string;
  dob : option string;
  email : option string
}.

Record VoteRequest := mkVoteRequest {
  proposalId : option string;
  userId : option string;
  voteType : option string;
  isPetition : bool;                       (* default false *)
  petitionDetails : option PetitionPayload (* default null *)
}.

Record CommentVoteRequest := mkCommentVoteRequest {
  cv_commentId : option string;
  cv_userId : option string;
  cv_voteType : option string
}.

(** Responses of [createResponse(body, status)]. *)
Inductive VoteResponse :=
| VoteError (status : Z) (error : string)
| VoteRemoved (proposalId userId : string)
    (* 200 { proposalId, userId, voteType: null } *)
| VoteRecorded (proposalId userId voteType : string)
    (isPetition petitionVerified : bool).
    (* 200 { proposalId, userId, voteType, isPetition, petitionVerified } *)

Inductive CommentVoteResponse :=
| CommentVoteError (status : Z) (error : string)
| CommentVoteDone (commentId userId : string) (voteType : option string)
    (action : string).

(** The [console.log] lines written after a mutation. *)
Inductive LogLine :=
| LogDeletedVote (id : Z)
| LogUpdatedVote (id : Z) (voteType : string)
| LogCreatedVote (id : Z)
| LogStoredPetition (userId proposalId : string)
| LogUpdatedPetition (userId proposalId : string).

(** The [voteType] field of a response body; [None] is JSON [null], also
    for an error body, which has no such field. *)
Definition response_voteType (r : VoteResponse) : option string :=
  match r with
  | VoteRecorded _ _ vt _ _ => Some vt
  | _ => None
  end.

Definition response_status (r : VoteResponse) : Z :=
  match r with
  | VoteError st _ => st
  | _ => 200%Z
  end.

(* ================================================================== *)
(** * Vote toggle engine *)
(* ================================================================== *)

Section VoteToggle.

Local Open Scope Z_scope.

(** [Date.now()] of the call and the id the store gives to an inserted
    row. *)
Variable timestamp : Z.
Variable last_row_id : Z.

Definition votes_where (proposalId userId : string) (r : VoteRow) : bool :=
  (vote_proposal_id r =? proposalId)%string
  && (vote_user_id r =? userId)%string.

Definition vote_id_is (id : Z) (r : VoteRow) : bool := vote_id r =? id.

Definition petition_where (userId proposalId : string)
    (r : PetitionDetailRow) : bool :=
  (pd_user_id r =? userId)%string
  && (pd_proposal_id r =? proposalId)%string.

(** [voteType === 'upvote' && isPetition ? 1 : 0] *)
Definition petition_flag (voteType : string) (isPetition : bool) : Z :=
  if (voteType =? "upvote")%string && isPetition then 1 else 0.

(** Lines 1566-1626: the petition-detail upsert, entered once the vote has
    been written.  A response in the third component is an early return. *)
Definition processPetitionDetails (proposalId userId : string)
    (d : PetitionPayload) (s : Store)
  : Store * list LogLine * option VoteResponse :=
  if negb (truthy (fullName d)) || negb (truthy (address d))
     || negb (truthy (postcode d)) || negb (truthy (dob d))
     || negb (truthy (email d))
  then (s, [], Some (VoteError 400 "Missing required petition details"))
  else
    match first (petition_where userId proposalId) (petition_details s) with
    | None =>
        (set_petition_details s
           (insert_into (petition_details s)
              (mkPetitionDetail userId proposalId
                 (str (fullName d)) (str (address d)) (str (postcode d))
                 (str (dob d)) (str (email d)) timestamp 1)),
         [LogStoredPetition userId proposalId], None)
    | Some _ =>
        (set_petition_details s
           (update_set
              (fun r => mkPetitionDetail (pd_user_id r) (pd_proposal_id r)
                          (str (fullName d)) (str (address d))
                          (str (postcode d)) (str (dob d)) (str (email d))
                          timestamp 1)
              (petition_where userId proposalId) (petition_details s)),
         [LogUpdatedPetition userId proposalId], None)
    end.

(** Lines 1565-1634: what follows the insert or the update of the vote. *)
Definition finishVote (req : VoteRequest) (pid uid vt : string)
    (s1 : Store) (log1 : list LogLine)
  : Store * list LogLine * VoteResponse :=
  let ok :=
    VoteRecorded pid uid vt
      ((vt =? "upvote")%string && isPetition req)
      ((vt =? "upvote")%string && isPetition req) in
  if (vt =? "upvote")%string && isPetition req
  then
    match petitionDetails req with
    | Some d =>
        match processPetitionDetails pid uid d s1 with
        | (s2, log2, Some early) => (s2, log1 ++ log2, early)
        | (s2, log2, None) => (s2, log1 ++ log2, ok)
        end
    | None => (s1, log1, ok)
    end
  else (s1, log1, ok).

(** Lines 1502-1563: the three-way branch on the existing vote. *)
Definition processVote (req : VoteRequest) (pid uid vt : string)
    (s : Store) : Store * list LogLine * VoteResponse :=
  match first (votes_where pid uid) (votes s) with
  | Some existingVote =>
      if (vote_type existingVote =? vt)%string
      then
        (* toggle off: delete and return at once *)
        (set_votes s
           (delete_from (vote_id_is (vote_id existingVote)) (votes s)),
         [LogDeletedVote (vote_id existingVote)],
         VoteRemoved pid uid)
      else
        finishVote req pid uid vt
          (set_votes s
             (update_set
                (fun r => mkVote (vote_id r) (vote_proposal_id r)
                            (vote_user_id r) vt timestamp
                            (petition_flag vt (isPetition req)))
                (vote_id_is (vote_id existingVote)) (votes s)))
          [LogUpdatedVote (vote_id existingVote) vt]
  | None =>
      finishVote req pid uid vt
        (set_votes s
           (insert_into (votes s)
              (mkVote last_row_id pid uid vt timestamp
                 (petition_flag vt (isPetition req)))))
        [LogCreatedVote last_row_id]
  end.

(** [createOrUpdateVote], lines 1456-1651. *)
Definition createOrUpdateVote (req : VoteRequest) (s : Store)
  : Store * list LogLine * VoteResponse :=
  if negb (truthy (proposalId req)) || negb (truthy (userId req))
     || negb (truthy (voteType req))
  then (s, [], VoteError 400 "Missing required fields")
  else
    let pid := str (proposalId req) in
    let uid := str (userId req) in
    let vt := str (voteType req) in
    if negb (vt =? "upvote")%string && negb (vt =? "downvote")%string
    then (s, [], VoteError 400 "Invalid vote type")
    else
      match first (fun u => (user_id u =? uid)%string) (users s) with
      | None => (s, [], VoteError 404 "User does not exist")
      | Some _ =>
          match
            first (fun p => (prop_id p =? pid)%string) (proposals s)
          with
          | None => (s, [], VoteError 404 "Proposal does not exist")
          | Some _ => processVote req pid uid vt s
          end
      end.

(** [createOrUpdateCommentVote], lines 528-669.  [id_stamp] is the second
    [Date.now()] and [random] the five base-36 characters that make the id
    of a new row. *)
Variable id_stamp : Z.
Variable random : string.

Definition string_of_Z (z : Z) : string :=
  NilZero.string_of_int (Z.to_int z).

Definition comment_votes_where (commentId userId : string)
    (r : CommentVoteRow) : bool :=
  (cv_comment_id r =? commentId)%string && (cv_user_id r =? userId)%string.

Definition cv_id_is (id : string) (r : CommentVoteRow) : bool :=
  (cv_id r =? id)%string.

Definition createOrUpdateCommentVote (req : CommentVoteRequest) (s : Store)
  : Store * CommentVoteResponse :=
  if negb (truthy (cv_commentId req)) || negb (truthy (cv_userId req))
     || negb (truthy (cv_voteType req))
  then (s, CommentVoteError 400 "Missing required fields")
  else
    let cid := str (cv_commentId req) in
    let uid := str (cv_userId req) in
    let vt := str (cv_voteType req) in
    if negb (vt =? "upvote")%string && negb (vt =? "downvote")%string
    then (s, CommentVoteError 400 "Invalid vote type")
    else
      match first (fun u => (user_id u =? uid)%string) (users s) with
      | None => (s, CommentVoteError 404 "User does not exist")
      | Some _ =>
      match first (fun c => (comment_id c =? cid)%string) (comments s) with
      | None => (s, CommentVoteError 404 "Comment does not exist")
      | Some _ =>
        let existingVote :=
          first (comment_votes_where cid uid) (comment_votes s) in
        let voteId :=
          match existingVote with
          | Some ev => cv_id ev
          | None =>
              ("comment_vote_" ++ string_of_Z id_stamp ++ "_" ++ random)
                %string
          end in
        match existingVote with
        | Some ev =>
            if (cv_vote_type ev =? vt)%string
            then
              (set_comment_votes s
                 (delete_from (cv_id_is (cv_id ev)) (comment_votes s)),
               CommentVoteDone cid uid None "removed")
            else
              (set_comment_votes s
                 (update_set
                    (fun r => mkCommentVote (cv_id r) (cv_comment_id r)
                                (cv_user_id r) vt timestamp)
                    (cv_id_is (cv_id ev)) (comment_votes s)),
               CommentVoteDone cid uid (Some vt) "updated")
        | None =>
            (set_comment_votes s
               (insert_into (comment_votes s)
                  (mkCommentVote voteId cid uid vt timestamp)),
             CommentVoteDone cid uid (Some vt) "created")
        end
      end
      end.

End VoteToggle.

(* ================================================================== *)
(** * Proposal listing *)
(* ================================================================== *)

(** One row of the listing query.  [user_annotation] holds [userVote],
    [userPetitionSigned] and [userPetitionVerified], which only the older
    handler adds, and only for a request that names a user. *)
Record ListedProposal := mkListed {
  id : string;
  text : string;
  timestamp : Z;
  trending : Z;
  meme_url : option string;
  author_name : string;
  author_id : string;
  upvotes : Z;
  downvotes : Z;
  petition_signatures : Z;
  verified_petitioners : Z;
  user_annotation : option (option string * bool * bool)
}.

Section Listing.

Local Open Scope Z_scope.

Definition count {A} (where_ : A -> bool) (table : list A) : Z :=
  Z.of_nat (List.length (filter where_ table)).

Definition count_distinct (xs : list string) : Z :=
  Z.of_nat (List.length (nodup string_dec xs)).

(** The SELECT list over [proposals p JOIN users u ON p.author_id = u.id],
    before any ORDER BY. *)
Definition select_proposals (s : Store) : list ListedProposal :=
  flat_map
    (fun p =>
       map
         (fun u =>
            mkListed (prop_id p) (prop_text p) (prop_timestamp p)
              (prop_trending p) (prop_meme_url p) (user_name u) (user_id u)
              (count (fun v => (vote_proposal_id v =? prop_id p)%string
                               && (vote_type v =? "upvote")%string)
                 (votes s))
              (count (fun v => (vote_proposal_id v =? prop_id p)%string
                               && (vote_type v =? "downvote")%string)
                 (votes s))
              (count (fun v => (vote_proposal_id v =? prop_id p)%string
                               && (vote_type v =? "upvote")%string
                               && (vote_is_petition v =? 1))
                 (votes s))
              (count_distinct
                 (map pd_user_id
                    (filter
                       (fun pd => (pd_proposal_id pd =? prop_id p)%string
                                  && (pd_verified pd =? 1))
                       (petition_details s))))
              None)
         (filter (fun u => (prop_author_id p =? user_id u)%string)
            (users s)))
    (proposals s).

(** ORDER BY: a term is a key with a direction, a clause is a list of
    terms compared in turn.  Rows that tie on every term keep the order
    they had. *)
Definition order_term : Type :=
  ((ListedProposal -> Z) * bool)%type.  (* true = DESC *)

Definition DESC (key : ListedProposal -> Z) : order_term := (key, true).
Definition ASC (key : ListedProposal -> Z) : order_term := (key, false).

Fixpoint compare_by (clause : list order_term) (a b : ListedProposal)
  : comparison :=
  match clause with
  | [] => Eq
  | (key, desc) :: rest =>
      match (if desc then key b ?= key a else key a ?= key b) with
      | Eq => compare_by rest a b
      | c => c
      end
  end.

Definition precedes (clause : list order_term) (a b : ListedProposal)
  : bool :=
  match compare_by clause a b with Gt => false | _ => true end.

Fixpoint insert_sorted (clause : list order_term) (x : ListedProposal)
    (rows : list ListedProposal) : list ListedProposal :=
  match rows with
  | [] => [x]
  | y :: rest =>
      if precedes clause x y then x :: y :: rest
      else y :: insert_sorted clause x rest
  end.

Definition order_by (clause : list order_term)
    (rows : list ListedProposal) : list ListedProposal :=
  fold_right (insert_sorted clause) [] rows.

(** [LIMIT ? OFFSET ?]: a negative limit means no limit, a negative offset
    means none. *)
Definition limit_offset {A} (limit offset : Z) (rows : list A) : list A :=
  let rest := skipn (Z.to_nat offset) rows in
  if limit <? 0 then rest else firstn (Z.to_nat limit) rest.

Record Pagination := mkPagination {
  page : Z;
  limit : Z;
  total : Z;
  hasMore : bool
}.

Inductive ProposalsResponse :=
| ProposalsPage (data : list ListedProposal) (pagination : Pagination)
| ProposalsList (data : list ListedProposal).

Definition response_data (r : ProposalsResponse) : list ListedProposal :=
  match r with
  | ProposalsPage d _ => d
  | ProposalsList d => d
  end.

Definition DEFAULT_PAGE_SIZE : Z := 20.
Definition MAX_PAGE_SIZE : Z := 100.

(** [parseInt(param) || dflt]: [None] is NaN (also a missing parameter). *)
Definition parseInt_or (param : option Z) (dflt : Z) : Z :=
  match param with
  | Some n => if n =? 0 then dflt else n
  | None => dflt
  end.

Definition sortBy_or_newest (sortBy : option string) : string :=
  if truthy sortBy then str sortBy else "newest".

(** [getProposals] of worker.js, lines 1051-1122. *)
Definition getProposals (page_param limit_param : option Z)
    (sortBy_param : option string) (s : Store) : ProposalsResponse :=
  let page := parseInt_or page_param 1 in
  let limit :=
    Z.min (parseInt_or limit_param DEFAULT_PAGE_SIZE) MAX_PAGE_SIZE in
  let offset := (page - 1) * limit in
  let sortBy := sortBy_or_newest sortBy_param in
  let clause :=
    if (sortBy =? "newest")%string then [DESC timestamp]
    else if (sortBy =? "oldest")%string then [ASC timestamp]
    else if (sortBy =? "popular")%string then [DESC upvotes; DESC timestamp]
    else if (sortBy =? "controversial")%string then
      [DESC (fun r => upvotes r + downvotes r);
       ASC (fun r => Z.abs (upvotes r - downvotes r));
       DESC timestamp]
    else [DESC timestamp] in
  let results :=
    limit_offset limit offset (order_by clause (select_proposals s)) in
  ProposalsPage results
    (mkPagination page limit (Z.of_nat (List.length results))
       (Z.of_nat (List.length results) =? limit)).

End Listing.

(** The older handler of the same route (src/unnamed/part_000, lines
    1416-1551): no pagination, other sort keys, and the caller's own votes
    attached to the rows. *)
Module Part000.

Local Open Scope Z_scope.

(** [voteMap[proposal.id]] after the loop over the user's votes: the last
    row for the proposal wins. *)
Definition voteMap (userId : string) (ids : list string) (s : Store)
    (proposal_id : string) : option (string * bool) :=
  match
    first (fun v => (vote_proposal_id v =? proposal_id)%string)
      (rev (filter
              (fun v => (vote_user_id v =? userId)%string
                        && existsb (String.eqb (vote_proposal_id v)) ids)
              (votes s)))
  with
  | Some v => Some (vote_type v, vote_is_petition v =? 1)
  | None => None
  end.

Definition petitionMap (userId : string) (ids : list string) (s : Store)
    (proposal_id : string) : option bool :=
  match
    first (fun pd => (pd_proposal_id pd =? proposal_id)%string)
      (rev (filter
              (fun pd => (pd_user_id pd =? userId)%string
                         && existsb (String.eqb (pd_proposal_id pd)) ids)
              (petition_details s)))
  with
  | Some pd => Some (pd_verified pd =? 1)
  | None => None
  end.

Definition annotate (userId : string) (s : Store)
    (rows : list ListedProposal) : list ListedProposal :=
  let proposalIds := map id rows in
  map
    (fun r =>
       let voteInfo := voteMap userId proposalIds s (id r) in
       mkListed (id r) (text r) (timestamp r) (trending r) (meme_url r)
         (author_name r) (author_id r) (upvotes r) (downvotes r)
         (petition_signatures r) (verified_petitioners r)
         (Some
            (match voteInfo with Some (vt, _) => Some vt | None => None end,
             match voteInfo with Some (_, p) => p | None => false end,
             match petitionMap userId proposalIds s (id r) with
             | Some v => v
             | None => false
             end)))
    rows.

Definition getProposals (sortBy_param userId : option string) (s : Store)
  : ProposalsResponse :=
  let sortBy := sortBy_or_newest sortBy_param in
  let rows := select_proposals s in
  let results :=
    if (sortBy =? "newest")%string then order_by [DESC timestamp] rows
    else if (sortBy =? "popular")%string then
      order_by [DESC (fun r => upvotes r - downvotes r)] rows
    else if (sortBy =? "controversial")%string then
      order_by [DESC (fun r => upvotes r + downvotes r)] rows
    else if (sortBy =? "petitions")%string then
      order_by [DESC petition_signatures] rows
    else rows in
  if truthy userId && (0 <? Z.of_nat (List.length results))
  then ProposalsList (annotate (str userId) s results)
  else ProposalsList results.

End Part000.

(* ================================================================== *)
(** * Strings *)
(* ================================================================== *)

(** The double quote, and template text written with [~] in its place. *)
Definition DQUOTE : ascii := Eval cbv in ascii_of_nat 34.

Fixpoint tpl (s : string) : string :=
  match s with
  | EmptyString => EmptyString
  | String c rest =>
      String (if Ascii.eqb c "~" then DQUOTE else c) (tpl rest)
  end.

(** [s.replace(/c/g, by)] for a one-character pattern. *)
Fixpoint replace_char (c : ascii) (by_ : string) (s : string) : string :=
  match s with
  | EmptyString => EmptyString
  | String x rest =>
      if Ascii.eqb x c then by_ ++ replace_char c by_ rest
      else String x (replace_char c by_ rest)
  end.

(** [s.split(' ')] *)
Fixpoint split_space (s : string) : list string :=
  match s with
  | EmptyString => [EmptyString]
  | String c rest =>
      if Ascii.eqb c " " then EmptyString :: split_space rest
      else
        match split_space rest with
        | w :: ws => String c w :: ws
        | [] => [String c EmptyString]
        end
  end.

(** [s.slice(0, -n)] and [s.slice(-n)] *)
Definition slice_drop_last (n : nat) (s : string) : string :=
  substring 0 (String.length s - n) s.

Definition slice_last (n : nat) (s : string) : string :=
  substring (String.length s - n) n s.

(** [s.substring(0, n)] *)
Definition substring_to (n : nat) (s : string) : string := substring 0 n s.

(** [s.indexOf(needle)]; [None] is -1. *)
Fixpoint indexOf (needle s : string) : option nat :=
  if prefix needle s then Some 0
  else
    match s with
    | EmptyString => None
    | String _ rest =>
        match indexOf needle rest with
        | Some i => Some (S i)
        | None => None
        end
    end.

Definition nonempty (s : string) : bool := negb (s =? EmptyString).

(** A template literal: its fixed text and the values substituted in it. *)
Inductive piece :=
| Lit (s : string)
| Sub (s : string).

Definition piece_text (p : piece) : string :=
  match p with Lit s => s | Sub s => s end.

Definition render (ps : list piece) : string :=
  String.concat EmptyString (map piece_text ps).

(* ================================================================== *)
(** * Share-image renderer *)
(* ================================================================== *)

(** The row handed to [generatePetitionSVG]; a field read with a fallback
    ([proposal.text || ...]) may be absent. *)
Record Proposal := mkSvgProposal {
  p_id : option string;
  p_text : option string;
  p_timestamp : option Z;
  p_author_name : option string;
  p_upvotes : option Z;
  p_downvotes : option Z
}.

Definition escapeHTML (text : string) : string :=
  replace_char "'" "&#039;"
    (replace_char DQUOTE "&quot;"
       (replace_char ">" "&gt;"
          (replace_char "<" "&lt;"
             (replace_char "&" "&amp;" text)))).

Section Renderer.

Local Open Scope Z_scope.

(** [new Date(ms).toLocaleDateString('en-US', {year: 'numeric',
    month: 'short', day: 'numeric'})], which the runtime provides, and
    [Date.now()]. *)
Variable toLocaleDateString : Z -> string.
Variable now : Z.

Definition avgCharWidth : Z := 22.
Definition lineHeight : Z := 46.

(** [Math.floor(width / avgCharWidth)] *)
Definition charsPerLine (width : Z) : Z := width / avgCharWidth.

(** One turn of the loop over the words: the lines pushed so far and the
    current line. *)
Definition wrap_word (charsPerLine : Z) (st : list string * string)
    (word : string) : list string * string :=
  let '(lines, currentLine) := st in
  let testLine :=
    if nonempty currentLine then (currentLine ++ " " ++ word)%string
    else word in
  if Z.of_nat (String.length testLine) <=? charsPerLine
  then (lines, testLine)
  else (lines ++ [currentLine], word).

Definition wrapped (text : string) (width : Z) : list string :=
  let '(lines, currentLine) :=
    fold_left (wrap_word (charsPerLine width)) (split_space text)
      ([], EmptyString) in
  if nonempty currentLine then lines ++ [currentLine] else lines.

(** [limitedLines[5] = ...] on a list that has a sixth entry. *)
Fixpoint assign_at {A} (i : nat) (f : A -> A) (l : list A) : list A :=
  match l, i with
  | [], _ => []
  | x :: rest, O => f x :: rest
  | x :: rest, S j => x :: assign_at j f rest
  end.

Definition limitedLines (text : string) (width : Z) : list string :=
  let lines := wrapped text width in
  let limited := firstn 6 lines in
  if (6 <? List.length lines)%nat
  then assign_at 5 (fun l => (slice_drop_last 3 l ++ "...")%string) limited
  else limited.

Fixpoint text_elements (x y : Z) (index : Z) (lines : list string)
  : list piece :=
  match lines with
  | [] => []
  | line :: rest =>
      let lineY := y + index * lineHeight in
      [Lit (tpl "<text x=~"); Sub (string_of_Z x);
       Lit (tpl "~ y=~"); Sub (string_of_Z lineY);
       Lit (tpl "~ font-family=~'Roboto Mono', monospace~ font-size=~36~ fill=~#ffffff~>");
       Sub (escapeHTML line);
       Lit "</text>
"]
      ++ text_elements x y (index + 1) rest
  end.

Definition generateSVGTextLines_pieces (text : string) (x y width : Z)
  : list piece :=
  text_elements x y 0 (limitedLines text width).

Definition generateSVGTextLines (text : string) (x y width : Z) : string :=
  render (generateSVGTextLines_pieces text x y width).

Definition or_string (v : option string) (dflt : string) : string :=
  if truthy v then str v else dflt.

Definition or_number (v : option Z) (dflt : Z) : Z :=
  match v with
  | Some n => if n =? 0 then dflt else n
  | None => dflt
  end.

Definition generatePetitionSVG_pieces (proposal : Proposal) : list piece :=
  let petitionText := or_string (p_text proposal) "Unknown petition" in
  let upvotes := or_number (p_upvotes proposal) 0 in
  let downvotes := or_number (p_downvotes proposal) 0 in
  let netVotes := upvotes - downvotes in
  let netVotesDisplay :=
    if 0 <? netVotes then ("+" ++ string_of_Z netVotes)%string
    else string_of_Z netVotes in
  let netVotesColor :=
    if 0 <? netVotes then "#11cc77"
    else if netVotes <? 0 then "#ff0099" else "#ffffff" in
  let proposalId := or_string (p_id proposal) "unknown" in
  let timestamp :=
    toLocaleDateString (or_number (p_timestamp proposal) now) in
  [Lit (tpl "<svg xmlns=~http://www.w3.org/2000/svg~ viewBox=~0 0 1200 630~ width=~1200~ height=~630~>
  <!-- Background -->
  <rect width=~1200~ height=~630~ fill=~#000000~ />
  
  <!-- Border frame with glowing effect -->
  <rect x=~10~ y=~10~ width=~1180~ height=~610~ fill=~none~ stroke=~#ff0099~ stroke-width=~4~ rx=~0~ />
  <rect x=~20~ y=~20~ width=~1160~ height=~590~ fill=~rgba(0, 0, 0, 0.8)~ stroke=~#ff0099~ stroke-width=~1~ rx=~0~ 
        style=~filter: drop-shadow(0 0 10px #ff0099)~ />
  
  <!-- RADICAL Header -->
  <text x=~600~ y=~90~ font-family=~'Roboto Mono', monospace~ font-size=~72~ font-weight=~700~ text-anchor=~middle~ 
        fill=~#ff0099~ style=~text-transform: uppercase;~>RADICAL</text>
  
  <!-- Tagline -->
  <rect x=~450~ y=~110~ width=~300~ height=~36~ fill=~#ff0099~ />
  <text x=~600~ y=~135~ font-family=~'Roboto Mono', monospace~ font-size=~20~ font-weight=~600~ text-anchor=~middle~ 
        fill=~#000000~ style=~text-transform: uppercase;~>VIBE, VOTE, VETO</text>
  
  <!-- Petition text container -->
  <rect x=~100~ y=~180~ width=~1000~ height=~280~ fill=~rgba(17, 17, 17, 0.7)~ stroke=~#333333~ stroke-width=~1~ />
  
  <!-- Petition text (dynamically generated) -->
  ")]
  ++ generateSVGTextLines_pieces petitionText 120 220 960
  ++ [Lit (tpl "
  
  <!-- Vote statistics -->
  <g transform=~translate(200, 510)~>
    <!-- Upvotes -->
    <text x=~0~ y=~0~ font-family=~'Roboto Mono', monospace~ font-size=~24~ fill=~#ff0099~></text>
    <text x=~30~ y=~0~ font-family=~'Roboto Mono', monospace~ font-size=~24~ fill=~#ffffff~>");
     Sub (string_of_Z upvotes);
     Lit (tpl "</text>
    
    <!-- Downvotes -->
    <text x=~120~ y=~0~ font-family=~'Roboto Mono', monospace~ font-size=~24~ fill=~#ff0099~></text>
    <text x=~150~ y=~0~ font-family=~'Roboto Mono', monospace~ font-size=~24~ fill=~#ffffff~>");
     Sub (string_of_Z downvotes);
     Lit (tpl "</text>
    
    <!-- Net votes -->
    <text x=~240~ y=~0~ font-family=~'Roboto Mono', monospace~ font-size=~24~ fill=~#ff0099~>NET:</text>
    <text x=~300~ y=~0~ font-family=~'Roboto Mono', monospace~ font-size=~24~ fill=~");
     Sub netVotesColor;
     Lit (tpl "~>");
     Sub netVotesDisplay;
     Lit (tpl "</text>
  </g>
  
  <!-- Timestamp and ID -->
  <text x=~600~ y=~560~ font-family=~'Roboto Mono', monospace~ font-size=~18~ fill=~#aaaaaa~ text-anchor=~middle~>
    Petition ID: ");
     Sub proposalId;
     Lit (tpl "  Created: ");
     Sub timestamp;
     Lit (tpl "
  </text>
  
  <!-- Radical Logo / Brand (right corner) -->
  <g transform=~translate(940, 460)~>
    <!-- Pink square for the logo -->
    <rect x=~0~ y=~0~ width=~120~ height=~120~ fill=~#111111~ stroke=~#ff0099~ stroke-width=~2~ />
    <text x=~60~ y=~50~ font-family=~'Roboto Mono', monospace~ font-size=~16~ fill=~#ffffff~ text-anchor=~middle~>RADICAL</text>
    <text x=~60~ y=~75~ font-family=~'Roboto Mono', monospace~ font-size=~14~ fill=~#ff0099~ text-anchor=~middle~>PETITION</text>
    <text x=~60~ y=~100~ font-family=~'Roboto Mono', monospace~ font-size=~12~ fill=~#aaaaaa~ text-anchor=~middle~>#");
     Sub (slice_last 6 proposalId);
     Lit (tpl "</text>
  </g>
  
  <!-- URL -->
  <text x=~600~ y=~600~ font-family=~'Roboto Mono', monospace~ font-size=~20~ fill=~#ff0099~ text-anchor=~middle~ 
        style=~text-transform: uppercase;~>theradicalparty.com</text>
</svg>")].

Definition generatePetitionSVG (proposal : Proposal) : string :=
  render (generatePetitionSVG_pieces proposal).

End Renderer.

(* ================================================================== *)
(** * Regular expressions of the meta-tag injector *)
(* ================================================================== *)

(** The fragment of the pattern language the three patterns use, matched
    the way the engine does: leftmost, greedy, backtracking. *)
Inductive regex :=
| Chars (lit : string)             (* literal text *)
| Class (cls : ascii -> bool)      (* one character of a class *)
| Star (cls : ascii -> bool)       (* [cls]*  *)
| Plus (cls : ascii -> bool)       (* [cls]+  *)
| Opt (r : regex)                  (* (r)?    *)
| Seq (r1 r2 : regex).

Fixpoint drop (n : nat) (s : string) : string :=
  match n, s with
  | S m, String _ rest => drop m rest
  | _, _ => s
  end.

(** [cls]* followed by the continuation [k]: the longest run first. *)
Fixpoint star_match (cls : ascii -> bool) (s : string)
    (k : string -> option string) : option string :=
  match s with
  | String c rest =>
      if cls c then
        match star_match cls rest k with
        | Some r => Some r
        | None => k s
        end
      else k s
  | EmptyString => k s
  end.

Fixpoint rmatch (r : regex) (s : string) (k : string -> option string)
  : option string :=
  match r with
  | Chars lit => if prefix lit s then k (drop (String.length lit) s) else None
  | Class cls =>
      match s with
      | String c rest => if cls c then k rest else None
      | EmptyString => None
      end
  | Star cls => star_match cls s k
  | Plus cls =>
      match s with
      | String c rest => if cls c then star_match cls rest k else None
      | EmptyString => None
      end
  | Opt r' =>
      match rmatch r' s k with
      | Some x => Some x
      | None => k s
      end
  | Seq r1 r2 => rmatch r1 s (fun s' => rmatch r2 s' k)
  end.

(** A match that starts at the head of [s]: what is left after it. *)
Definition match_at (r : regex) (s : string) : option string :=
  rmatch r s Some.

(** [s.replace(/r/g, '')]: [skip] counts the characters of the current
    match still to drop. *)
Fixpoint remove_matches (r : regex) (skip : nat) (s : string) : string :=
  match s with
  | EmptyString => EmptyString
  | String c rest =>
      match skip with
      | S n => remove_matches r n rest
      | O =>
          match match_at r s with
          | Some after =>
              match String.length s - String.length after with
              | S n => remove_matches r n rest
              | O => String c (remove_matches r 0 rest)
              end
          | None => String c (remove_matches r 0 rest)
          end
      end
  end.

Definition replace_all_empty (r : regex) (s : string) : string :=
  remove_matches r 0 s.

Definition char_in (cs : list ascii) (c : ascii) : bool :=
  existsb (Ascii.eqb c) cs.

(** [\s] on code units below 256. *)
Definition whitespace (c : ascii) : bool :=
  existsb (Nat.eqb (nat_of_ascii c)) [9; 10; 11; 12; 13; 32; 160].

Definition quote (c : ascii) : bool := char_in [DQUOTE; "'"%char] c.
Definition not_quote (c : ascii) : bool := negb (quote c).
Definition not_gt (c : ascii) : bool := negb (Ascii.eqb c ">").

Fixpoint seq_of (rs : list regex) : regex :=
  match rs with
  | [] => Chars EmptyString
  | [r] => r
  | r :: rest => Seq r (seq_of rest)
  end.

(** The three patterns of lines 2217-2219.  Below, Q is the class of the
    two quote characters and G the group made of a colon and a greedy run
    of characters other than quotes.
    First pattern: <meta \s+ property= Q og:image G? Q [^>]* > *)
Definition og_image_tag : regex :=
  seq_of [Chars "<meta"; Plus whitespace; Chars "property="; Class quote;
          Chars "og:image"; Opt (Seq (Chars ":") (Star not_quote));
          Class quote; Star not_gt; Chars ">"].

(** Second pattern: <meta \s+ name= Q twitter:image G? Q [^>]* > *)
Definition twitter_image_tag : regex :=
  seq_of [Chars "<meta"; Plus whitespace; Chars "name="; Class quote;
          Chars "twitter:image"; Opt (Seq (Chars ":") (Star not_quote));
          Class quote; Star not_gt; Chars ">"].

(** Third pattern: <meta \s+ name= Q twitter:image:src Q [^>]* > *)
Definition twitter_image_src_tag : regex :=
  seq_of [Chars "<meta"; Plus whitespace; Chars "name="; Class quote;
          Chars "twitter:image:src"; Class quote; Star not_gt; Chars ">"].

(* ================================================================== *)
(** * Meta-tag injector *)
(* ================================================================== *)

(** What [fetch(request)] resolves to: the original page.  Header names are
    in lower case, as a Headers object keeps them. *)
Record OriginResponse := mkOrigin {
  origin_html : string;
  origin_headers : list (string * string)
}.

Inductive HtmlResponse :=
| PassThrough                       (* return await fetch(request) *)
| Page (body : string) (headers : list (string * string)).

(** [headers.set(name, value)] *)
Definition headers_set (name value : string) (hs : list (string * string))
  : list (string * string) :=
  filter (fun h => negb (String.eqb (fst h) name)) hs ++ [(name, value)].

Section Injector.

Local Open Scope string_scope.

(** [Date.now()] *)
Variable now : Z.

(** Lines 2217-2219. *)
Definition strip_image_tags (html : string) : string :=
  replace_all_empty twitter_image_src_tag
    (replace_all_empty twitter_image_tag
       (replace_all_empty og_image_tag html)).

Definition customMetaTags_pieces
    (proposal_text fullProposalUrl shareImageUrl : string) : list piece :=
  [Lit (tpl "
      <!-- RADICAL SOCIAL SHARING META TAGS ");
     Sub (string_of_Z now);
     Lit (tpl " -->
      <!-- Primary Meta Tags -->
      <meta name=~title~ content=~RADICAL Petition: ");
     Sub (substring_to 60 proposal_text);
     Lit (tpl "~>
      <meta name=~description~ content=~");
     Sub (substring_to 150 proposal_text);
     Lit (tpl "~>
      
      <!-- Open Graph / Facebook -->
      <meta property=~og:type~ content=~website~>
      <meta property=~og:url~ content=~");
     Sub fullProposalUrl;
     Lit (tpl "~>
      <meta property=~og:title~ content=~RADICAL Petition: ");
     Sub (substring_to 60 proposal_text);
     Lit (tpl "~>
      <meta property=~og:description~ content=~");
     Sub (substring_to 150 proposal_text);
     Lit (tpl "~>
      <meta property=~og:image~ content=~");
     Sub shareImageUrl;
     Lit (tpl "~>
      <meta property=~og:image:width~ content=~1200~>
      <meta property=~og:image:height~ content=~630~>
      <meta property=~og:image:alt~ content=~RADICAL Petition: ");
     Sub (substring_to 60 proposal_text);
     Lit (tpl "~>
      
      <!-- Twitter -->
      <meta name=~twitter:card~ content=~summary_large_image~>
      <meta name=~twitter:url~ content=~");
     Sub fullProposalUrl;
     Lit (tpl "~>
      <meta name=~twitter:title~ content=~RADICAL Petition~>
      <meta name=~twitter:description~ content=~");
     Sub (substring_to 150 proposal_text);
     Lit (tpl "~>
      <meta name=~twitter:image~ content=~");
     Sub shareImageUrl;
     Lit (tpl "~>
      <meta name=~twitter:image:alt~ content=~RADICAL Petition: ");
     Sub (substring_to 60 proposal_text);
     Lit (tpl "~>
    ")].

(** [SELECT ... FROM proposals p JOIN users u ON p.author_id = u.id
    WHERE p.id = ?], [first()]. *)
Definition proposal_with_author (proposalId : string) (s : Store)
  : option (ProposalRow * UserRow) :=
  first (fun pu => (prop_id (fst pu) =? proposalId)%string)
    (flat_map
       (fun p =>
          map (fun u => (p, u))
            (filter (fun u => (prop_author_id p =? user_id u)%string)
               (users s)))
       (proposals s)).

(** [origin] is what [fetch(request)] resolves to; [None] when it
    rejects. *)
Definition serveCustomizedHtml (proposalId hostname : string)
    (isTestMeta : bool) (origin : option OriginResponse) (s : Store)
  : HtmlResponse :=
  let found : option (string * string) :=
    if isTestMeta then
      Some ("This is a test proposal for meta tags",
            "https://" ++ hostname ++ "/api/petition-svg?id=test_proposal")
    else
      match proposal_with_author proposalId s with
      | Some (p, _) =>
          Some (prop_text p,
                "https://" ++ hostname ++ "/api/petition-svg?id="
                ++ proposalId)
      | None => None
      end in
  match found with
  | None => PassThrough
  | Some (proposal_text, shareImageUrl) =>
      let fullProposalUrl :=
        "https://" ++ hostname ++ "/?proposal=" ++ proposalId in
      match origin with
      | None => PassThrough
      | Some response =>
          let modifiedHtml := strip_image_tags (origin_html response) in
          match indexOf "</head>" modifiedHtml with
          | None => Page modifiedHtml (origin_headers response)
          | Some headEndIndex =>
              let customMetaTags :=
                render (customMetaTags_pieces proposal_text fullProposalUrl
                          shareImageUrl) in
              let customizedHtml :=
                substring_to headEndIndex modifiedHtml ++ customMetaTags
                ++ drop headEndIndex modifiedHtml in
              Page customizedHtml
                (headers_set "x-share-image-url" shareImageUrl
                   (headers_set "x-custom-meta"
                      (if isTestMeta then "test" else "proposal")
                      (headers_set "cache-control" "no-store, max-age=0"
                         (origin_headers response))))
          end
      end
  end.

End Injector.

(** The runtime's formatter for the en-US locale with a numeric year, a
    short month and a numeric day, in UTC (the time zone of the worker), for
    dates of the common era. *)
Section DateFormat.

Local Open Scope Z_scope.

Definition civil_from_days (days : Z) : Z * Z * Z :=
  let z := days + 719468 in
  let era := z / 146097 in
  let doe := z - era * 146097 in
  let yoe := (doe - doe / 1460 + doe / 36524 - doe / 146096) / 365 in
  let doy := doe - (365 * yoe + yoe / 4 - yoe / 100) in
  let mp := (5 * doy + 2) / 153 in
  let d := doy - (153 * mp + 2) / 5 + 1 in
  let m := if mp <? 10 then mp + 3 else mp - 9 in
  let y := yoe + era * 400 + (if m <=? 2 then 1 else 0) in
  (y, m, d).

Definition month_short (m : Z) : string :=
  nth (Z.to_nat (m - 1))
    ["Jan"; "Feb"; "Mar"; "Apr"; "May"; "Jun";
     "Jul"; "Aug"; "Sep"; "Oct"; "Nov"; "Dec"] EmptyString.

Definition toLocaleDateString_en_US (ms : Z) : string :=
  let '(y, m, d) := civil_from_days (ms / 86400000) in
  (month_short m ++ " " ++ string_of_Z d ++ ", " ++ string_of_Z y)%string.

End DateFormat.

(* ================================================================== *)
(** * Request router *)
(* ================================================================== *)

(** [s.split(sep)] for a separator that is not empty: [skip] counts the
    characters of the current separator still to pass. *)
Fixpoint split_go (sep : string) (skip : nat) (s : string) : list string :=
  match s with
  | EmptyString => [EmptyString]
  | String c rest =>
      match skip with
      | S n => split_go sep n rest
      | O =>
          if prefix sep s
          then EmptyString :: split_go sep (String.length sep - 1) rest
          else
            match split_go sep 0 rest with
            | w :: ws => String c w :: ws
            | [] => [String c EmptyString]
            end
      end
  end.

Definition split_on (sep s : string) : list string := split_go sep 0 s.

(** [parts.pop()] of a list that [split] returned *)
Definition pop (parts : list string) : string := last parts EmptyString.

Definition startsWith (p s : string) : bool := prefix p s.


(** What the router reads of a request.  Header names are in lower case. *)
Record Request := mkRequest {
  req_method : string;
  req_pathname : string;
  req_searchParams : list (string * string);
  req_headers : list (string * string)
}.

(** [url.searchParams.has(name)] and [url.searchParams.get(name)] *)
Definition searchParams_has (name : string) (request : Request) : bool :=
  existsb (fun kv => (fst kv =? name)%string) (req_searchParams request).

Definition searchParams_get (name : string) (request : Request)
  : option string :=
  match first (fun kv => (fst kv =? name)%string) (req_searchParams request)
  with
  | Some kv => Some (snd kv)
  | None => None
  end.

Definition header_present (name : string) (request : Request) : bool :=
  existsb (fun kv => (fst kv =? name)%string) (req_headers request).

(** [handleOptions(request)], lines 15-30: the status of the preflight
    response.  Called without its argument it reads a property of
    [undefined] and throws, which is [None] here. *)
Definition handleOptions (request : option Request) : option Z :=
  match request with
  | None => None
  | Some r =>
      if header_present "origin" r
         && header_present "access-control-request-method" r
         && header_present "access-control-request-headers" r
      then Some 204%Z
      else Some 200%Z
  end.

(** [validateRequest(request, requiredParams)], lines 65-77: the missing
    parameters of the 400 response, or [None] for [null]. *)
Definition validateRequest (request : Request) (requiredParams : list string)
  : option (list string) :=
  let missingParams :=
    filter (fun param => negb (searchParams_has param request))
      requiredParams in
  if (0 <? List.length missingParams)%nat then Some missingParams else None.

(** The handlers [fetch] hands a request to. *)
Inductive Handler :=
| serveStaticAsset_handler
| serveMedia_handler
| getProposals_handler
| createProposal_handler
| getComments_handler
| createComment_handler
| createOrUpdateVote_handler
| createOrGetUser_handler
| uploadMeme_handler
| createOrUpdateCommentVote_handler
| getCommentVotes_handler
| getPetitionStats_handler
| servePetitionSVG_handler
| healthCheck_handler
| debugMetaTags_handler
| getProposalById_handler.

Inductive Dispatch :=
| Call (h : Handler)                       (* return await h(request, env) *)
| Preflight (status : Z)                   (* what handleOptions returns *)
| MissingParameters (missing : list string) (* the 400 of validateRequest *)
| Answer (status : Z) (body : string).     (* new Response(body, {status}) *)

(** [fetch], lines 92-173, up to the call of the handler.  The cache-control
    value it computes first is put in a Headers object that is never
    used. *)
Definition fetch (request : Request) : Dispatch :=
  let path := req_pathname request in
  let method := req_method request in
  if (method =? "OPTIONS")%string then
    match handleOptions None with
    | Some status => Preflight status
    | None => Answer 500 "Internal Server Error"
    end
  else if (path =? "/styles.css")%string || (path =? "/index.html")%string
          || (path =? "/")%string
  then Call serveStaticAsset_handler
  else if startsWith "/memes/" path || startsWith "/audio/" path
  then Call serveMedia_handler
  else if startsWith "/api/" path then
    if (path =? "/api/proposals")%string && (method =? "GET")%string then
      match validateRequest request ["userId"] with
      | Some missing => MissingParameters missing
      | None => Call getProposals_handler
      end
    else if (path =? "/api/proposals")%string && (method =? "POST")%string
    then Call createProposal_handler
    else if (path =? "/api/comments")%string && (method =? "GET")%string then
      match validateRequest request ["proposalId"] with
      | Some missing => MissingParameters missing
      | None => Call getComments_handler
      end
    else if (path =? "/api/comments")%string && (method =? "POST")%string
    then Call createComment_handler
    else if (path =? "/api/votes")%string && (method =? "POST")%string
    then Call createOrUpdateVote_handler
    else if (path =? "/api/users")%string && (method =? "POST")%string
    then Call createOrGetUser_handler
    else if (path =? "/api/memes")%string && (method =? "POST")%string
    then Call uploadMeme_handler
    else if (path =? "/api/comment-votes")%string && (method =? "POST")%string
    then Call createOrUpdateCommentVote_handler
    else if (path =? "/api/comment-votes")%string && (method =? "GET")%string
    then Call getCommentVotes_handler
    else if (path =? "/api/petition-stats")%string && (method =? "GET")%string
    then Call getPetitionStats_handler
    else if (path =? "/api/petition-svg")%string && (method =? "GET")%string
    then Call servePetitionSVG_handler
    else if (path =? "/api/health")%string && (method =? "GET")%string
    then Call healthCheck_handler
    else if (path =? "/api/debug-meta")%string && (method =? "GET")%string
    then Call debugMetaTags_handler
    else if startsWith "/api/proposals/" path && (method =? "GET")%string
    then Call getProposalById_handler
    else Answer 404 "Not Found"
  else Answer 404 "Not Found".

(* ================================================================== *)
(** * Users, single proposals, comment votes, petition statistics *)
(* ================================================================== *)

Definition set_users (s : Store) (u : list UserRow) : Store :=
  mkStore u (proposals s) (comments s) (votes s) (comment_votes s)
          (petition_details s).

Definition set_proposals (s : Store) (p : list ProposalRow) : Store :=
  mkStore (users s) p (comments s) (votes s) (comment_votes s)
          (petition_details s).

Inductive UserResponse :=
| UserError (status : Z) (error : string)
| UserOk (id name : string).               (* 200 { id, name } *)

(** [createOrGetUser], lines 1882-1940.  The created_at column, which no
    handler reads, is not a column of [UserRow]. *)
Definition createOrGetUser (id name : option string) (s : Store)
  : Store * UserResponse :=
  if negb (truthy id) || negb (truthy name)
  then (s, UserError 400 "Missing required fields")
  else
    match first (fun u => (user_id u =? str id)%string) (users s) with
    | None =>
        (set_users s (insert_into (users s) (mkUser (str id) (str name))),
         UserOk (str id) (str name))
    | Some existingUser => (s, UserOk (str id) (str name))
    end.

Inductive CommentVotesResponse :=
| CommentVotesError (status : Z) (error : string)
| CommentVotes (commentId : string) (upvotes downvotes : Z)
    (userVote : option string).

(** [getCommentVotes], lines 672-724. *)
Definition getCommentVotes (commentId userId : option string) (s : Store)
  : CommentVotesResponse :=
  if negb (truthy commentId)
  then CommentVotesError 400 "Missing commentId parameter"
  else
    let cid := str commentId in
    let upvotes :=
      count (fun r => (cv_comment_id r =? cid)%string
                      && (cv_vote_type r =? "upvote")%string)
        (comment_votes s) in
    let downvotes :=
      count (fun r => (cv_comment_id r =? cid)%string
                      && (cv_vote_type r =? "downvote")%string)
        (comment_votes s) in
    let userVote :=
      if truthy userId then
        match first (comment_votes_where cid (str userId)) (comment_votes s)
        with
        | Some userVoteResult => Some (cv_vote_type userVoteResult)
        | None => None
        end
      else None in
    CommentVotes cid upvotes downvotes userVote.

Inductive ProposalResponse :=
| ProposalError (status : Z) (error : string)
| ProposalFound (proposal : ListedProposal).

(** [getProposalById], lines 1125-1214. *)
Definition getProposalById (pathname : string) (userId : option string)
    (s : Store) : ProposalResponse :=
  let proposalId := nth_error (split_on "/api/proposals/" pathname) 1 in
  if negb (truthy proposalId)
  then ProposalError 400 "Missing proposal ID"
  else
    let pid := str proposalId in
    match first (fun r => (id r =? pid)%string) (select_proposals s) with
    | None => ProposalError 404 "Proposal not found"
    | Some proposal =>
        if truthy userId then
          let uid := str userId in
          let vote := first (votes_where pid uid) (votes s) in
          let petition :=
            first (petition_where uid pid) (petition_details s) in
          ProposalFound
            (mkListed (id proposal) (text proposal) (timestamp proposal)
               (trending proposal) (meme_url proposal)
               (author_name proposal) (author_id proposal)
               (upvotes proposal) (downvotes proposal)
               (petition_signatures proposal)
               (verified_petitioners proposal)
               (Some
                  (match vote with
                   | Some v => Some (vote_type v)
                   | None => None
                   end,
                   match vote with
                   | Some v => (vote_is_petition v =? 1)%Z
                   | None => false
                   end,
                   match petition with
                   | Some p => (pd_verified p =? 1)%Z
                   | None => false
                   end)))
        else ProposalFound proposal
    end.

(** One group of [GROUP BY postcode]: the postcode and its COUNT. *)
Definition PostcodeCount : Type := (string * Z)%type.

Fixpoint insert_by_count (x : PostcodeCount) (rows : list PostcodeCount)
  : list PostcodeCount :=
  match rows with
  | [] => [x]
  | y :: rest =>
      if (snd y <=? snd x)%Z then x :: y :: rest
      else y :: insert_by_count x rest
  end.

(** [ORDER BY count DESC]; groups with the same count keep their order. *)
Definition order_by_count_desc (rows : list PostcodeCount)
  : list PostcodeCount :=
  fold_right insert_by_count [] rows.

(** [SELECT postcode, COUNT] over the rows, one group for each postcode. *)
Definition group_by_postcode (rows : list PetitionDetailRow)
  : list PostcodeCount :=
  map (fun pc => (pc, count (fun r => (pd_postcode r =? pc)%string) rows))
    (nodup string_dec (map pd_postcode rows)).

Inductive PetitionStatsResponse :=
| PetitionStatsError (status : Z) (error : string)
| PetitionStats (proposalId : string) (proposalText : option string)
    (verifiedSignatures totalSignatures : Z)
    (topPostcodes : list PostcodeCount).

(** [getPetitionStats], lines 911-961.  The aggregate query has one row
    whatever the store holds, so the 404 branch after it is never taken. *)
Definition getPetitionStats (proposalId : option string) (s : Store)
  : PetitionStatsResponse :=
  if negb (truthy proposalId)
  then PetitionStatsError 400 "Missing proposalId parameter"
  else
    let pid := str proposalId in
    let verified :=
      filter (fun pd => (pd_proposal_id pd =? pid)%string
                        && (pd_verified pd =? 1)%Z)
        (petition_details s) in
    PetitionStats pid
      (match first (fun p => (prop_id p =? pid)%string) (proposals s) with
       | Some p => Some (prop_text p)
       | None => None
       end)
      (count_distinct (map pd_user_id verified))
      (count (fun v => (vote_proposal_id v =? pid)%string
                       && (vote_type v =? "upvote")%string
                       && (vote_is_petition v =? 1)%Z)
         (votes s))
      (firstn 5 (order_by_count_desc (group_by_postcode verified))).

(* ================================================================== *)
(** * Media *)
(* ================================================================== *)

(** An object of a bucket, and a bucket as the list of its keys and
    objects. *)
Record R2Object := mkObject {
  object_body : string;
  object_contentType : string
}.

Definition Bucket : Type := list (string * R2Object).

Definition bucket_get (key : string) (b : Bucket) : option R2Object :=
  match first (fun kv => (fst kv =? key)%string) b with
  | Some kv => Some (snd kv)
  | None => None
  end.

(** [put] replaces the object of a key that is taken. *)
Definition bucket_put (key : string) (o : R2Object) (b : Bucket) : Bucket :=
  filter (fun kv => negb (fst kv =? key)%string) b ++ [(key, o)].

(** The bindings of the worker; a bucket binding may be missing. *)
Record Env := mkEnv {
  DB : Store;
  MEMES_BUCKET : option Bucket;
  AUDIO_BUCKET : option Bucket
}.

Record File := mkFile {
  file_name : string;
  file_type : string;
  file_content : string
}.

Definition file_size (f : File) : Z :=
  Z.of_nat (String.length (file_content f)).

(** A value of a multipart form: a text or a file. *)
Inductive FormValue :=
| FormText (s : string)
| FormFile (f : File).

Inductive MemeResponse :=
| MemeError (status : Z) (error : string)
| MemeUploaded (proposalId memeUrl : string).
    (* 200 { success: true, proposalId, memeUrl } *)

Definition validTypes : list string :=
  ["image/jpeg"; "image/png"; "image/gif"; "image/webp"].

Definition MAX_SIZE : Z := (2 * 1024 * 1024)%Z.

Definition uniqueFilename (now : Z) (proposalId : string) (file : File)
  : string :=
  let fileExt := pop (split_on "." (file_name file)) in
  (proposalId ++ "_" ++ string_of_Z now ++ "." ++ fileExt)%string.

(** [uploadMeme], lines 805-908; [now] is [Date.now()]. *)
Definition uploadMeme (now : Z) (proposalId : option string)
    (meme : option FormValue) (env : Env) : Env * MemeResponse :=
  match MEMES_BUCKET env with
  | None =>
      (env,
       MemeError 500
         "Storage binding missing. Check your settings configuration.")
  | Some bucket =>
      if negb (truthy proposalId)
      then (env, MemeError 400 "Missing proposalId")
      else
        match meme with
        | Some (FormFile file) =>
            if negb (existsb (String.eqb (file_type file)) validTypes)
            then
              (env,
               MemeError 400
                 "Invalid file type. Only JPEG, PNG, GIF, and WebP images are allowed.")
            else if (MAX_SIZE <? file_size file)%Z
            then (env, MemeError 400 "File too large. Maximum size is 2MB.")
            else
              let name := uniqueFilename now (str proposalId) file in
              let memeUrl :=
                ("https://theradicalparty.com/memes/" ++ name)%string in
              (mkEnv
                 (set_proposals (DB env)
                    (update_set
                       (fun p =>
                          mkProposal (prop_id p) (prop_author_id p)
                            (prop_text p) (prop_timestamp p)
                            (prop_trending p) (Some memeUrl))
                       (fun p => (prop_id p =? str proposalId)%string)
                       (proposals (DB env))))
                 (Some
                    (bucket_put name
                       (mkObject (file_content file) (file_type file))
                       bucket))
                 (AUDIO_BUCKET env),
               MemeUploaded (str proposalId) memeUrl)
        | _ => (env, MemeError 400 "No file uploaded or invalid file")
        end
  end.




(* ================================================================== *)
(** * The service worker (src/service-worker.js) *)
(* ================================================================== *)

(** The browser's cache storage is a list of named caches in the order of
    their creation; a cache is a list of request/response pairs in the
    order of their insertion.  Requests are compared by method and URL
    (no Vary header, no URL fragment), and every URL is an http(s) one.
    What [fetch(request)] resolves to is the argument [network]; [None]
    is a rejected promise. *)
Module ServiceWorker.

Local Open Scope string_scope.

Definition CACHE_NAME : string := "radical-cache-v1".

Record Request := mkRequest { method : string; url : string }.

Record Response := mkResponse {
  status : Z;
  type : string;
  body : string
}.

Definition Cache := list (Request * Response).
Definition CacheStorage := list (string * Cache).

(** [url.includes(needle)] *)
Definition includes (needle s : string) : bool :=
  match indexOf needle s with
  | Some _ => true
  | None => false
  end.

(** [cache.match(request)]: only a GET request matches, by its URL. *)
Definition cache_match (request : Request) (cache : Cache)
  : option Response :=
  if method request =? "GET"
  then option_map snd (find (fun e => url (fst e) =? url request) cache)
  else None.

(** [caches.match(request)]: the first match, cache after cache. *)
Fixpoint caches_match (request : Request) (caches : CacheStorage)
  : option Response :=
  match caches with
  | [] => None
  | (_, cache) :: rest =>
      match cache_match request cache with
      | Some response => Some response
      | None => caches_match request rest
      end
  end.

(** [cache.put(request, response)]: replaces the entries of the same URL;
    [None] is the TypeError for a request that is not a GET. *)
Definition cache_put (request : Request) (response : Response)
    (cache : Cache) : option Cache :=
  if method request =? "GET"
  then Some (filter (fun e => negb (url (fst e) =? url request)) cache
             ++ [(request, response)])%list
  else None.

Definition caches_has (name : string) (caches : CacheStorage) : bool :=
  existsb (fun c => fst c =? name) caches.

(** [caches.open(name)] creates the cache when there is none of that
    name. *)
Definition caches_open (name : string) (caches : CacheStorage)
  : CacheStorage :=
  if caches_has name caches then caches else (caches ++ [(name, [])])%list.

(** The cache [name] replaced by [cache]. *)
Fixpoint caches_set (name : string) (cache : Cache) (caches : CacheStorage)
  : CacheStorage :=
  match caches with
  | [] => []
  | (n, c) :: rest =>
      if n =? name then (n, cache) :: rest
      else (n, c) :: caches_set name cache rest
  end.

Fixpoint caches_get (name : string) (caches : CacheStorage)
  : option Cache :=
  match caches with
  | [] => None
  | (n, c) :: rest => if n =? name then Some c else caches_get name rest
  end.

(** The fetch listener, lines 23-56: what [respondWith] is given ([None]
    when the promise rejects) and the cache storage once the put that the
    listener starts has settled. *)
Definition on_fetch (network : Request -> option Response)
    (request : Request) (caches : CacheStorage)
  : option Response * CacheStorage :=
  match caches_match request caches with
  | Some response => (Some response, caches)
  | None =>
      match network request with
      | None => (None, caches)
      | Some response =>
          if negb (status response =? 200)%Z
             || negb (type response =? "basic")
          then (Some response, caches)
          else
            let opened := caches_open CACHE_NAME caches in
            (Some response,
             if negb (includes "/api/" (url request))
             then
               match caches_get CACHE_NAME opened with
               | Some cache =>
                   match cache_put request response cache with
                   | Some cache' => caches_set CACHE_NAME cache' opened
                   | None => opened
                   end
               | None => opened
               end
             else opened)
      end
  end.

End ServiceWorker.
(* ================================================================== *)
(** * Specification: the vocabulary of the claims, and example data *)
(* ================================================================== *)

(** The Vote rows of a (proposal, user) pair, in scan order. *)
Definition vote_rows (pid uid : string) (s : Store) : list VoteRow :=
  filter (votes_where pid uid) (votes s).

(** A request that passes validation against a store that has its user and
    its proposal. *)
Record Accepted (req : VoteRequest) (s : Store) : Prop := {
  acc_proposalId : truthy (proposalId req) = true;
  acc_userId : truthy (userId req) = true;
  acc_voteType :
    voteType req = Some "upvote" \/ voteType req = Some "downvote";
  acc_user :
    exists u, In u (users s) /\ user_id u = str (userId req);
  acc_proposal :
    exists p, In p (proposals s) /\ prop_id p = str (proposalId req)
}.

(** Two calls in succession: the store after the second, and what the
    second call logged and answered. *)
Definition twice (t1 id1 t2 id2 : Z) (req1 req2 : VoteRequest) (s : Store)
  : Store * list LogLine * VoteResponse :=
  let '(s1, _, _) := createOrUpdateVote t1 id1 req1 s in
  createOrUpdateVote t2 id2 req2 s1.

Definition store_after (r : Store * list LogLine * VoteResponse) : Store :=
  fst (fst r).
Definition log_of (r : Store * list LogLine * VoteResponse) : list LogLine :=
  snd (fst r).
Definition response_of (r : Store * list LogLine * VoteResponse)
  : VoteResponse := snd r.

(** Cancel-on-repeat, as claimed for every starting store. *)
Definition cancel_on_repeat (t1 id1 t2 id2 : Z) (req : VoteRequest)
    (s : Store) : Prop :=
  let r := twice t1 id1 t2 id2 req req s in
  vote_rows (str (proposalId req)) (str (userId req)) (store_after r) = []
  /\ response_status (response_of r) = 200%Z
  /\ response_voteType (response_of r) = None.

(** Switching the vote, as claimed for every starting store: after the two
    calls the pair has one row, with the second vote type and time stamp,
    which is the row the first call left, and the second call took the
    update branch. *)
Definition switch_updates (t1 id1 t2 id2 : Z) (req1 req2 : VoteRequest)
    (s : Store) : Prop :=
  let pid := str (proposalId req1) in
  let uid := str (userId req1) in
  let r1 := createOrUpdateVote t1 id1 req1 s in
  let r2 := createOrUpdateVote t2 id2 req2 (store_after r1) in
  exists before after,
    vote_rows pid uid (store_after r1) = [before]
    /\ vote_rows pid uid (store_after r2) = [after]
    /\ vote_id after = vote_id before
    /\ vote_type after = str (voteType req2)
    /\ vote_timestamp after = t2
    /\ List.length (votes (store_after r2))
       = List.length (votes (store_after r1))
    /\ hd_error (log_of r2)
       = Some (LogUpdatedVote (vote_id before) (str (voteType req2))).

(** The uniqueness invariant of the three keyed tables. *)
Definition vote_key (r : VoteRow) : string * string :=
  (vote_proposal_id r, vote_user_id r).
Definition comment_vote_key (r : CommentVoteRow) : string * string :=
  (cv_comment_id r, cv_user_id r).
Definition petition_key (r : PetitionDetailRow) : string * string :=
  (pd_proposal_id r, pd_user_id r).

Record store_invariant (s : Store) : Prop := {
  inv_votes : NoDup (map vote_key (votes s));
  inv_comment_votes : NoDup (map comment_vote_key (comment_votes s));
  inv_petition_details : NoDup (map petition_key (petition_details s))
}.

(** The store operations, each with the clock, id and random values of its
    call, and their sequential execution. *)
Inductive operation :=
| OpVote (timestamp last_row_id : Z) (req : VoteRequest)
| OpCommentVote (timestamp id_stamp : Z) (random : string)
    (req : CommentVoteRequest)
| OpPetitionDetails (timestamp : Z) (proposalId userId : string)
    (d : PetitionPayload).

Definition apply (op : operation) (s : Store) : Store :=
  match op with
  | OpVote t i req => store_after (createOrUpdateVote t i req s)
  | OpCommentVote t i r req => fst (createOrUpdateCommentVote t i r req s)
  | OpPetitionDetails t pid uid d =>
      fst (fst (processPetitionDetails t pid uid d s))
  end.

Definition execute (ops : list operation) (s : Store) : Store :=
  fold_left (fun st op => apply op st) ops s.

(** The row an update leaves in place of [r], and the row an insert adds. *)
Definition revoted (t : Z) (req : VoteRequest) (vt : string) (r : VoteRow)
  : VoteRow :=
  mkVote (vote_id r) (vote_proposal_id r) (vote_user_id r) vt t
    (petition_flag vt (isPetition req)).

Definition new_vote (t i : Z) (req : VoteRequest) (pid uid vt : string)
  : VoteRow :=
  mkVote i pid uid vt t (petition_flag vt (isPetition req)).

(** Example data: one user, one proposal, one comment. *)
Definition example_store : Store :=
  mkStore [mkUser "u1" "Ann"]
          [mkProposal "p1" "u1" "Ban cars" 1000 0 None]
          [mkComment "c1" "p1" "u1"] [] [] [].

Definition vote_request (vt : string) : VoteRequest :=
  mkVoteRequest (Some "p1") (Some "u1") (Some vt) false None.

Definition example_store_upvoted : Store :=
  set_votes example_store [mkVote 1 "p1" "u1" "upvote" 1000 0].

(** A payload that lacks one of the five required fields. *)
Definition incomplete (d : PetitionPayload) : Prop :=
  truthy (fullName d) && truthy (address d) && truthy (postcode d)
  && truthy (dob d) && truthy (email d) = false.

Definition petition_request (d : PetitionPayload) : VoteRequest :=
  mkVoteRequest (Some "p1") (Some "u1") (Some "upvote") true (Some d).

Definition payload_without_email : PetitionPayload :=
  mkPayload (Some "Ann Lee") (Some "1 High St") (Some "2000")
            (Some "1990-01-01") None.

Definition complete_payload : PetitionPayload :=
  mkPayload (Some "Ann Lee") (Some "1 High St") (Some "2000")
            (Some "1990-01-01") (Some "ann@example.org").

Definition example_operations : list operation :=
  [OpVote 2000 2 (vote_request "upvote");
   OpVote 3000 3 (petition_request complete_payload);
   OpCommentVote 4000 4001 "k3x9a"
     (mkCommentVoteRequest (Some "c1") (Some "u1") (Some "downvote"));
   OpVote 5000 5 (petition_request complete_payload);
   OpCommentVote 6000 6001 "q7m2z"
     (mkCommentVoteRequest (Some "c1") (Some "u1") (Some "upvote"));
   OpPetitionDetails 7000 "p1" "u1" complete_payload].

Definition net (r : ListedProposal) : Z := (upvotes r - downvotes r)%Z.

(** Rows in descending order of upvotes minus downvotes. *)
Definition by_net_descending (rows : list ListedProposal) : Prop :=
  StronglySorted (fun a b => (net b <= net a)%Z) rows.

(** Rows in descending order of upvotes, the newer first among equals. *)
Definition by_upvotes_descending (rows : list ListedProposal) : Prop :=
  StronglySorted
    (fun a b => (upvotes b < upvotes a)%Z
                \/ (upvotes a = upvotes b /\ (timestamp b <= timestamp a)%Z))
    rows.

(** Two proposals: the first has two upvotes and two downvotes, the second
    a single upvote. *)
Definition contested_store : Store :=
  mkStore
    [mkUser "u1" "Ann"; mkUser "u2" "Bo"; mkUser "u3" "Cy"; mkUser "u4" "Di"]
    [mkProposal "p1" "u1" "Ban cars" 1000 0 None;
     mkProposal "p2" "u2" "Free trams" 2000 0 None]
    []
    [mkVote 1 "p1" "u1" "upvote" 3000 0;
     mkVote 2 "p1" "u2" "upvote" 3001 0;
     mkVote 3 "p1" "u3" "downvote" 3002 0;
     mkVote 4 "p1" "u4" "downvote" 3003 0;
     mkVote 5 "p2" "u1" "upvote" 3004 0]
    [] [].

(** A text made of spaces only (the empty text too). *)
Fixpoint blank (s : string) : bool :=
  match s with
  | EmptyString => true
  | String c rest => Ascii.eqb c " " && blank rest
  end.

(** The characters of the words, one separator counted with each. *)
Definition weight (ws : list string) : Z :=
  fold_right (fun w acc => (1 + Z.of_nat (String.length w) + acc)%Z) 0%Z ws.

(** What the words still to come add to the current line when nothing
    is pushed. *)
Definition demand (currentLine : string) (ws : list string) : Z :=
  if nonempty currentLine
  then (Z.of_nat (String.length currentLine) + weight ws)%Z
  else (weight ws - 1)%Z.

(** C7, the claim on short texts as stated: a text no longer than the
    per-line budget gives exactly one line. *)
Definition short_text_one_line (text : string) (width : Z) : Prop :=
  (Z.of_nat (String.length text) <= charsPerLine width)%Z ->
  List.length (limitedLines text width) = 1.

Definition long_text : string :=
  "aaaaaaaaaa bbbbbbbbbb cccccccccc dddddddddd eeeeeeeeee ffffffffff gggggggggg hhhhhhhhhh".

(** The five markup-unsafe characters. *)
Definition unsafe (c : ascii) : bool :=
  char_in ["&"; "<"; ">"; DQUOTE; "'"]%char c.

(** The entity that stands for a character. *)
Definition entity (c : ascii) : string :=
  if Ascii.eqb c "&" then "&amp;"
  else if Ascii.eqb c "<" then "&lt;"
  else if Ascii.eqb c ">" then "&gt;"
  else if Ascii.eqb c DQUOTE then "&quot;"
  else if Ascii.eqb c "'" then "&#039;"
  else String c EmptyString.

(** No unsafe character occurs. *)
Fixpoint plain (s : string) : bool :=
  match s with
  | EmptyString => true
  | String c rest => negb (unsafe c) && plain rest
  end.

(** No unsafe character occurs raw: none of the other four at all, and
    the ampersand only at the head of one of the five entities. *)
Fixpoint escaped (s : string) : bool :=
  match s with
  | EmptyString => true
  | String c rest =>
      (if Ascii.eqb c "&"
       then prefix "amp;" rest || prefix "lt;" rest || prefix "gt;" rest
            || prefix "quot;" rest || prefix "#039;" rest
       else negb (unsafe c))
      && escaped rest
  end.

(** The claim on a template: every substituted value is escaped. *)
Definition all_substitutions_escaped (ps : list piece) : Prop :=
  forall v, In (Sub v) ps -> escaped v = true.

(** A proposal whose id holds markup, and one as the store holds them. *)
Definition markup_id_proposal : Proposal :=
  mkSvgProposal (Some "<b>") (Some "Ban cars") (Some 1700000000000%Z)
    (Some "Ann") (Some 2%Z) (Some 1%Z).

Definition stored_proposal : Proposal :=
  mkSvgProposal (Some "proposal_1700000000000_k3x9a")
    (Some "Tom & Ann's <plan>") (Some 1700000000000%Z) (Some "Ann")
    (Some 2%Z) (Some 1%Z).

(** C9, as stated: the image does not depend on the current time. *)
Definition time_independent (toLocaleDateString : Z -> string)
    (proposal : Proposal) : Prop :=
  forall now1 now2,
    generatePetitionSVG toLocaleDateString now1 proposal
    = generatePetitionSVG toLocaleDateString now2 proposal.

Definition epoch_proposal : Proposal :=
  mkSvgProposal (Some "proposal_0_k3x9a") (Some "Ban cars") (Some 0%Z)
    (Some "Ann") (Some 2%Z) (Some 1%Z).

(** C8, as stated: a page without the closing head marker comes back
    stripped and without the replacement tags. *)
Definition degraded_fallback (serve : option OriginResponse -> HtmlResponse)
    (html : string) (headers : list (string * string)) : Prop :=
  indexOf "</head>" html = None ->
  serve (Some (mkOrigin html headers))
  = Page (strip_image_tags html) headers.

(** A page in which the marker only appears once the image tag is gone. *)
Definition split_marker_page : string :=
  tpl "<html></he<meta property=~og:image~ content=~a.png~>ad><body></body></html>".

Definition headless_page : string :=
  tpl "<html><meta property=~og:image~ content=~a.png~><body></body></html>".

Definition html_headers : list (string * string) :=
  [("content-type", "text/html")].

(** A comment-vote request that passes validation against a store that
    has its user and its comment. *)
Record CommentAccepted (req : CommentVoteRequest) (s : Store) : Prop := {
  cacc_commentId : truthy (cv_commentId req) = true;
  cacc_userId : truthy (cv_userId req) = true;
  cacc_voteType :
    cv_voteType req = Some "upvote" \/ cv_voteType req = Some "downvote";
  cacc_user :
    exists u, In u (users s) /\ user_id u = str (cv_userId req);
  cacc_comment :
    exists c, In c (comments s) /\ comment_id c = str (cv_commentId req)
}.

(** The id a new comment vote gets. *)
Definition new_comment_vote_id (id_stamp : Z) (random : string) : string :=
  ("comment_vote_" ++ string_of_Z id_stamp ++ "_" ++ random)%string.

(** A listed row with one more vote of the given type. *)
Definition one_more_vote (vt : string) (r : ListedProposal)
  : ListedProposal :=
  mkListed (id r) (text r) (timestamp r) (trending r) (meme_url r)
    (author_name r) (author_id r)
    (if (vt =? "upvote")%string then (upvotes r + 1)%Z else upvotes r)
    (if (vt =? "downvote")%string then (downvotes r + 1)%Z else downvotes r)
    (petition_signatures r) (verified_petitioners r) (user_annotation r).

Definition comment_vote_request (vt : string) : CommentVoteRequest :=
  mkCommentVoteRequest (Some "c1") (Some "u1") (Some vt).

(** A payload that has the five required fields. *)
Definition complete (d : PetitionPayload) : Prop :=
  truthy (fullName d) && truthy (address d) && truthy (postcode d)
  && truthy (dob d) && truthy (email d) = true.

(** The verified PetitionDetail rows of a proposal, and the top postcodes
    of a response. *)
Definition verified_details (pid : string) (s : Store)
  : list PetitionDetailRow :=
  filter (fun pd => (pd_proposal_id pd =? pid)%string
                    && (pd_verified pd =? 1)%Z)
    (petition_details s).

Definition stats_topPostcodes (r : PetitionStatsResponse)
  : list PostcodeCount :=
  match r with
  | PetitionStats _ _ _ _ top => top
  | PetitionStatsError _ _ => []
  end.

Definition more_signatures (a b : PostcodeCount) : Prop :=
  (snd b <= snd a)%Z.

Definition signatures_of (pc : string) (rows : list PetitionDetailRow) : Z :=
  count (fun r => (pd_postcode r =? pc)%string) rows.

Definition petition_store : Store :=
  mkStore [mkUser "u1" "Ann"] [mkProposal "p1" "u1" "Ban cars" 1000 0 None]
    [] []
    []
    [mkPetitionDetail "u1" "p1" "Ann" "1 High St" "2000" "1990" "a@x.org"
       10 1;
     mkPetitionDetail "u2" "p1" "Bo" "2 High St" "3000" "1991" "b@x.org"
       11 1;
     mkPetitionDetail "u3" "p1" "Cy" "3 High St" "3000" "1992" "c@x.org"
       12 1;
     mkPetitionDetail "u4" "p1" "Di" "4 High St" "4000" "1993" "d@x.org"
       13 0].


Definition example_env : Env :=
  mkEnv example_store (Some []) None.

Definition example_file : File :=
  mkFile "cat.final.png" "image/png" "PNGDATA".

(** The text with the entity in the place of each unsafe character. *)
Fixpoint escape_each (s : string) : string :=
  match s with
  | EmptyString => EmptyString
  | String c rest => (entity c ++ escape_each rest)%string
  end.

(** A string without a space, and a line that fits the budget or is a
    single word. *)
Fixpoint no_space (s : string) : bool :=
  match s with
  | EmptyString => true
  | String c rest => negb (Ascii.eqb c " ") && no_space rest
  end.

Definition fits_or_single_word (budget : Z) (line : string) : Prop :=
  (Z.of_nat (String.length line) <= budget)%Z \/ no_space line = true.

(** The limit a listing response reports. *)
Definition response_limit (r : ProposalsResponse) : Z :=
  match r with
  | ProposalsPage _ p => limit p
  | ProposalsList _ => 0%Z
  end.

(** Rows from the newest to the oldest, and from the oldest to the
    newest. *)
Definition newest_first (rows : list ListedProposal) : Prop :=
  StronglySorted (fun a b => (timestamp b <= timestamp a)%Z) rows.

Definition oldest_first (rows : list ListedProposal) : Prop :=
  StronglySorted (fun a b => (timestamp a <= timestamp b)%Z) rows.


(** A request the service worker never stores the answer of: not a GET,
    or for the API. *)
Definition never_stored (request : ServiceWorker.Request) : Prop :=
  ServiceWorker.method request <> "GET"%string
  \/ ServiceWorker.includes "/api/" (ServiceWorker.url request) = true.

(** An answer the service worker stores: status 200 from the same
    origin. *)
Definition storable (response : ServiceWorker.Response) : Prop :=
  ServiceWorker.status response = 200%Z
  /\ ServiceWorker.type response = "basic"%string.

Definition offline : ServiceWorker.Request -> option ServiceWorker.Response :=
  fun _ => None.

Definition stylesheet_request : ServiceWorker.Request :=
  ServiceWorker.mkRequest "GET" "https://theradicalparty.com/styles.css".

Definition api_request : ServiceWorker.Request :=
  ServiceWorker.mkRequest "GET" "https://theradicalparty.com/api/proposals".

Definition stylesheet : ServiceWorker.Response :=
  ServiceWorker.mkResponse 200 "basic" "body{}".
(* ================================================================== *)
(** * Properties of the vote toggle engine *)
(* ================================================================== *)

Section VoteFacts.

Lemma find_hd_filter {A} (p : A -> bool) (l : list A) :
  find p l = hd_error (filter p l).
Proof.
  induction l as [|x l IH]; simpl; [reflexivity|].
  destruct (p x); simpl; auto.
Qed.

Lemma find_present {A} (p : A -> bool) (l : list A) (x : A) :
  In x l -> p x = true -> exists y, find p l = Some y.
Proof.
  intros Hin Hp. destruct (find p l) as [y|] eqn:E; [eauto|].
  rewrite (find_none p l E x Hin) in Hp. discriminate.
Qed.

Lemma filter_update_set {A} (key : A -> bool) (set : A -> A)
    (where_ : A -> bool) (l : list A) :
  (forall r, key (set r) = key r) ->
  filter key (update_set set where_ l)
  = update_set set where_ (filter key l).
Proof.
  intros Hkey. unfold update_set.
  induction l as [|x l IH]; simpl; [reflexivity|].
  destruct (where_ x) eqn:W.
  - rewrite Hkey. destruct (key x); simpl; rewrite ?W, IH; reflexivity.
  - destruct (key x); simpl; rewrite ?W, IH; reflexivity.
Qed.

Lemma filter_delete_from {A} (key where_ : A -> bool) (l : list A) :
  filter key (delete_from where_ l) = delete_from where_ (filter key l).
Proof.
  unfold delete_from. induction l as [|x l IH]; simpl; [reflexivity|].
  destruct (where_ x) eqn:W, (key x) eqn:K; simpl;
    rewrite ?W, ?K, IH; reflexivity.
Qed.

Lemma accepted_voteType req s :
  Accepted req s ->
  truthy (voteType req) = true
  /\ (str (voteType req) = "upvote" \/ str (voteType req) = "downvote").
Proof.
  intros [_ _ [H|H] _ _]; rewrite H; simpl; auto.
Qed.

Lemma createOrUpdateVote_accepted t i req s :
  Accepted req s ->
  createOrUpdateVote t i req s
  = processVote t i req (str (proposalId req)) (str (userId req))
      (str (voteType req)) s.
Proof.
  intros Hacc. destruct (accepted_voteType req s Hacc) as [Hvt Hval].
  destruct Hacc as [Hp Hu _ [u [Hin Hid]] [p [Hpin Hpid]]].
  unfold createOrUpdateVote. rewrite Hp, Hu, Hvt. simpl.
  replace (negb (str (voteType req) =? "upvote")
           && negb (str (voteType req) =? "downvote"))%string
    with false
    by (destruct Hval as [E|E]; rewrite E; reflexivity).
  destruct (find_present (fun u => (user_id u =? str (userId req))%string)
              (users s) u Hin) as [u' Eu].
  { rewrite Hid. apply String.eqb_refl. }
  destruct (find_present
              (fun p => (prop_id p =? str (proposalId req))%string)
              (proposals s) p Hpin) as [p' Ep].
  { rewrite Hpid. apply String.eqb_refl. }
  unfold first. rewrite Eu, Ep. reflexivity.
Qed.

(** What follows the vote mutation never touches the votes table. *)
Lemma processPetitionDetails_frame t pid uid d s :
  let s' := fst (fst (processPetitionDetails t pid uid d s)) in
  users s' = users s /\ proposals s' = proposals s
  /\ comments s' = comments s /\ votes s' = votes s
  /\ comment_votes s' = comment_votes s.
Proof.
  unfold processPetitionDetails.
  destruct (negb _ || _ || _ || _ || _); simpl; auto.
  destruct (first _ _); simpl; auto.
Qed.

Lemma finishVote_frame t req pid uid vt s1 log1 :
  let r := finishVote t req pid uid vt s1 log1 in
  users (store_after r) = users s1
  /\ proposals (store_after r) = proposals s1
  /\ comments (store_after r) = comments s1
  /\ votes (store_after r) = votes s1
  /\ comment_votes (store_after r) = comment_votes s1
  /\ exists log2, log_of r = log1 ++ log2.
Proof.
  unfold finishVote, store_after, log_of.
  destruct ((vt =? "upvote")%string && isPetition req).
  - destruct (petitionDetails req) as [d|].
    + pose proof (processPetitionDetails_frame t pid uid d s1) as H.
      destruct (processPetitionDetails t pid uid d s1)
        as [[s2 log2] [early|]]; simpl in *;
        repeat split; try tauto; eauto.
    + simpl. repeat split; auto. exists []. now rewrite app_nil_r.
  - simpl. repeat split; auto. exists []. now rewrite app_nil_r.
Qed.

End VoteFacts.

Section VoteBranches.

Variables (t i : Z) (req : VoteRequest) (pid uid vt : string).

Lemma processVote_frame s :
  let r := processVote t i req pid uid vt s in
  users (store_after r) = users s /\ proposals (store_after r) = proposals s.
Proof.
  unfold processVote.
  destruct (first _ _) as [ev|].
  - destruct (vote_type ev =? vt)%string.
    + simpl. auto.
    + match goal with |- context [finishVote _ _ _ _ _ ?s1 ?l1] =>
        destruct (finishVote_frame t req pid uid vt s1 l1)
          as (U & P & _) end.
      simpl in *. rewrite U, P. auto.
  - match goal with |- context [finishVote _ _ _ _ _ ?s1 ?l1] =>
      destruct (finishVote_frame t req pid uid vt s1 l1)
        as (U & P & _) end.
    simpl in *. rewrite U, P. auto.
Qed.

(** First vote of the pair: a row is inserted. *)
Lemma processVote_created s :
  vote_rows pid uid s = [] ->
  let r := processVote t i req pid uid vt s in
  votes (store_after r) = insert_into (votes s) (new_vote t i req pid uid vt)
  /\ vote_rows pid uid (store_after r) = [new_vote t i req pid uid vt]
  /\ hd_error (log_of r) = Some (LogCreatedVote i).
Proof.
  intros Hrows. unfold processVote, first.
  rewrite find_hd_filter. fold (vote_rows pid uid s). rewrite Hrows. simpl.
  match goal with |- context [finishVote _ _ _ _ _ ?s1 ?l1] =>
    destruct (finishVote_frame t req pid uid vt s1 l1)
      as (_ & _ & _ & V & _ & log2 & L) end.
  simpl in V. unfold vote_rows. rewrite V, L.
  split; [reflexivity|]. split; [|reflexivity].
  unfold insert_into. rewrite filter_app.
  fold (vote_rows pid uid s). rewrite Hrows. simpl.
  unfold votes_where. simpl. now rewrite !String.eqb_refl.
Qed.

(** The pair's first row has the requested type: it is deleted, by id,
    and the handler returns at once. *)
Lemma processVote_removed s ev rest :
  vote_rows pid uid s = ev :: rest ->
  vote_type ev = vt ->
  processVote t i req pid uid vt s
  = (set_votes s (delete_from (vote_id_is (vote_id ev)) (votes s)),
     [LogDeletedVote (vote_id ev)], VoteRemoved pid uid).
Proof.
  intros Hrows Hty. unfold processVote, first.
  rewrite find_hd_filter. fold (vote_rows pid uid s). rewrite Hrows. simpl.
  rewrite Hty, String.eqb_refl. reflexivity.
Qed.

(** The pair's first row has the other type: it is updated, by id. *)
Lemma processVote_updated s ev rest :
  vote_rows pid uid s = ev :: rest ->
  vote_type ev <> vt ->
  let r := processVote t i req pid uid vt s in
  votes (store_after r)
  = update_set (revoted t req vt) (vote_id_is (vote_id ev)) (votes s)
  /\ vote_rows pid uid (store_after r)
     = update_set (revoted t req vt) (vote_id_is (vote_id ev)) (ev :: rest)
  /\ hd_error (log_of r) = Some (LogUpdatedVote (vote_id ev) vt).
Proof.
  intros Hrows Hty. unfold processVote, first.
  rewrite find_hd_filter. fold (vote_rows pid uid s). rewrite Hrows. simpl.
  apply String.eqb_neq in Hty. rewrite Hty.
  match goal with |- context [finishVote _ _ _ _ _ ?s1 ?l1] =>
    destruct (finishVote_frame t req pid uid vt s1 l1)
      as (_ & _ & _ & V & _ & log2 & L) end.
  simpl in V. unfold vote_rows. rewrite V, L.
  split; [reflexivity|]. split; [|reflexivity].
  rewrite filter_update_set by reflexivity.
  fold (vote_rows pid uid s). now rewrite Hrows.
Qed.

End VoteBranches.

Lemma accepted_frame req s s' :
  users s' = users s -> proposals s' = proposals s ->
  Accepted req s -> Accepted req s'.
Proof.
  intros U P [H1 H2 H3 H4 H5]. constructor; auto; now rewrite ?U, ?P.
Qed.

Lemma update_set_single (set : VoteRow -> VoteRow) (ev : VoteRow) :
  update_set set (vote_id_is (vote_id ev)) [ev] = [set ev].
Proof.
  unfold update_set, vote_id_is. simpl. now rewrite Z.eqb_refl.
Qed.

Lemma delete_from_single (ev : VoteRow) :
  delete_from (vote_id_is (vote_id ev)) [ev] = [].
Proof.
  unfold delete_from, vote_id_is. simpl. now rewrite Z.eqb_refl.
Qed.

(** After one accepted call from a store where the pair has at most one
    row, of another type than the requested one, the pair has exactly one
    row, of the requested type. *)
Lemma first_call_leaves_one t i req s :
  Accepted req s ->
  (List.length (vote_rows (str (proposalId req)) (str (userId req)) s) <= 1)%nat ->
  (forall ev, In ev (vote_rows (str (proposalId req)) (str (userId req)) s) ->
              vote_type ev <> str (voteType req)) ->
  let r := createOrUpdateVote t i req s in
  Accepted req (store_after r)
  /\ exists row,
      vote_rows (str (proposalId req)) (str (userId req)) (store_after r)
      = [row]
      /\ vote_type row = str (voteType req).
Proof.
  intros Hacc Hlen Hty. cbv zeta.
  rewrite (createOrUpdateVote_accepted t i req s Hacc).
  set (pid := str (proposalId req)) in *.
  set (uid := str (userId req)) in *.
  set (vt := str (voteType req)) in *.
  split.
  - destruct (processVote_frame t i req pid uid vt s) as [U P].
    now apply (accepted_frame req s).
  - destruct (vote_rows pid uid s) as [|ev rest] eqn:Hrows.
    + destruct (processVote_created t i req pid uid vt s Hrows) as (_ & R & _).
      exists (new_vote t i req pid uid vt). split; [exact R|reflexivity].
    + destruct rest as [|? ?]; [|simpl in Hlen; lia].
      destruct (processVote_updated t i req pid uid vt s ev [] Hrows)
        as (_ & R & _).
      { apply Hty. now left. }
      exists (revoted t req vt ev). rewrite R, update_set_single.
      split; reflexivity.
Qed.

Lemma createOrUpdateVote_frame t i req s :
  let r := createOrUpdateVote t i req s in
  users (store_after r) = users s /\ proposals (store_after r) = proposals s.
Proof.
  unfold createOrUpdateVote.
  destruct (negb _ || _ || _); [simpl; auto|].
  destruct (negb _ && _); [simpl; auto|].
  destruct (first _ (users s)); [|simpl; auto].
  destruct (first _ (proposals s)); [|simpl; auto].
  apply processVote_frame.
Qed.

Lemma example_accepted vt votes_ :
  vt = "upvote" \/ vt = "downvote" ->
  Accepted (vote_request vt) (set_votes example_store votes_).
Proof.
  intros Hvt. constructor; simpl.
  - reflexivity.
  - reflexivity.
  - destruct Hvt as [-> | ->]; auto.
  - eexists; split; [left; reflexivity|reflexivity].
  - eexists; split; [left; reflexivity|reflexivity].
Qed.

(** C1, as stated, fails: when the pair already holds an upvote, the first
    upvote removes it and the second casts it again, so the pair ends with a
    vote and the second response carries the vote type. *)
Lemma cancel_on_repeat_counterexample :
  ~ cancel_on_repeat 2000 2 3000 3 (vote_request "upvote")
      example_store_upvoted.
Proof.
  unfold cancel_on_repeat. vm_compute. intros [H _]. discriminate H.
Qed.

(** C1, amended: from a store in which the pair has at most one Vote row,
    and none of the requested type, two identical accepted calls in
    succession leave no Vote row for the pair, and the second call answers
    200 with voteType null. *)
Theorem cancel_on_repeat_unless_already_cast t1 id1 t2 id2 req s :
  Accepted req s ->
  (List.length (vote_rows (str (proposalId req)) (str (userId req)) s) <= 1)%nat ->
  (forall ev, In ev (vote_rows (str (proposalId req)) (str (userId req)) s) ->
              vote_type ev <> str (voteType req)) ->
  cancel_on_repeat t1 id1 t2 id2 req s.
Proof.
  intros Hacc Hlen Hty.
  destruct (first_call_leaves_one t1 id1 req s Hacc Hlen Hty)
    as (Hacc1 & row & Hrows & Hrow).
  unfold cancel_on_repeat, twice.
  destruct (createOrUpdateVote t1 id1 req s) as [[s1 log1] resp1].
  unfold store_after in *. simpl in Hacc1, Hrows.
  rewrite (createOrUpdateVote_accepted t2 id2 req s1 Hacc1).
  rewrite (processVote_removed t2 id2 req _ _ _ s1 row [] Hrows Hrow).
  simpl. split; [|split; reflexivity].
  unfold vote_rows. simpl. rewrite filter_delete_from.
  fold (vote_rows (str (proposalId req)) (str (userId req)) s1).
  rewrite Hrows. apply delete_from_single.
Qed.

Lemma cancel_on_repeat_unless_already_cast_witness :
  cancel_on_repeat 2000 2 3000 3 (vote_request "upvote") example_store.
Proof.
  apply cancel_on_repeat_unless_already_cast.
  - apply (example_accepted "upvote" []). now left.
  - simpl. lia.
  - simpl. intros ev [].
Defined.

(** C2, as stated, fails: when the pair already holds an upvote, the upvote
    removes it and the downvote then inserts a new row; nothing is updated
    in place. *)
Lemma switch_updates_counterexample :
  ~ switch_updates 2000 2 3000 3 (vote_request "upvote")
      (vote_request "downvote") example_store_upvoted.
Proof.
  unfold switch_updates. vm_compute.
  intros (before & after & H & _). discriminate H.
Qed.

(** C2, amended: from a store in which the pair has at most one Vote row,
    and none of the first call's type, an accepted vote followed by an
    accepted vote of the other type leaves exactly one Vote row for the
    pair; it is the row the first call left (same id, the table keeps its
    length), now with the second vote type and the second call's time
    stamp, and the second call took the update branch. *)
Theorem switch_updates_in_place t1 id1 t2 id2 req1 req2 s :
  Accepted req1 s -> Accepted req2 s ->
  proposalId req2 = proposalId req1 -> userId req2 = userId req1 ->
  voteType req2 <> voteType req1 ->
  (List.length (vote_rows (str (proposalId req1)) (str (userId req1)) s) <= 1)%nat ->
  (forall ev,
      In ev (vote_rows (str (proposalId req1)) (str (userId req1)) s) ->
      vote_type ev <> str (voteType req1)) ->
  switch_updates t1 id1 t2 id2 req1 req2 s.
Proof.
  intros Hacc1 Hacc2 Hp Hu Hvt Hlen Hty.
  destruct (first_call_leaves_one t1 id1 req1 s Hacc1 Hlen Hty)
    as (_ & row & Hrows & Hrow).
  destruct (createOrUpdateVote_frame t1 id1 req1 s) as [U P].
  unfold switch_updates.
  set (r1 := createOrUpdateVote t1 id1 req1 s) in *.
  pose proof (accepted_frame req2 s (store_after r1) U P Hacc2) as Hacc2'.
  rewrite (createOrUpdateVote_accepted t2 id2 req2 _ Hacc2').
  rewrite Hp, Hu.
  assert (Hne : vote_type row <> str (voteType req2)).
  { rewrite Hrow. intros E. apply Hvt.
    destruct (acc_voteType _ _ Hacc1) as [E1|E1],
             (acc_voteType _ _ Hacc2) as [E2|E2];
      rewrite E1, E2 in *; simpl in E; congruence. }
  destruct (processVote_updated t2 id2 req2 _ _ _ _ row [] Hrows Hne)
    as (V & R & L).
  exists row, (revoted t2 req2 (str (voteType req2)) row).
  split; [exact Hrows|].
  rewrite R, V, L, update_set_single. unfold update_set.
  rewrite length_map. repeat split; reflexivity.
Qed.

Lemma switch_updates_in_place_witness :
  switch_updates 2000 2 3000 3 (vote_request "upvote")
    (vote_request "downvote") example_store.
Proof.
  apply switch_updates_in_place.
  - apply (example_accepted "upvote" []). now left.
  - apply (example_accepted "downvote" []). now right.
  - reflexivity.
  - reflexivity.
  - simpl. discriminate.
  - simpl. lia.
  - simpl. intros ev [].
Defined.

Lemma incomplete_rejected t pid uid d s :
  incomplete d ->
  processPetitionDetails t pid uid d s
  = (s, [], Some (VoteError 400 "Missing required petition details")).
Proof.
  unfold incomplete, processPetitionDetails. intros H.
  destruct (truthy (fullName d)), (truthy (address d)),
    (truthy (postcode d)), (truthy (dob d)), (truthy (email d));
    simpl in *; try reflexivity; discriminate.
Qed.

Lemma votes_where_key pid uid r :
  votes_where pid uid r = true -> vote_key r = (pid, uid).
Proof.
  unfold votes_where, vote_key. intros H.
  apply andb_true_iff in H as [H1 H2].
  apply String.eqb_eq in H1, H2. now rewrite H1, H2.
Qed.

(** C4: an accepted upvote flagged as a petition, whose details lack a
    required field, on a pair whose existing vote (if any) is not an upvote,
    is answered 400 although the vote has been written: the votes table
    holds the inserted row or the updated rows, among them an upvote of the
    pair with the call's time stamp and the petition flag, and the
    petition details are as before. *)
Theorem petition_rejected_vote_kept t i req s d :
  Accepted req s ->
  voteType req = Some "upvote" ->
  isPetition req = true ->
  petitionDetails req = Some d ->
  incomplete d ->
  (forall ev, first (votes_where (str (proposalId req)) (str (userId req)))
                (votes s) = Some ev -> vote_type ev <> "upvote") ->
  let pid := str (proposalId req) in
  let uid := str (userId req) in
  let r := createOrUpdateVote t i req s in
  response_of r = VoteError 400 "Missing required petition details"
  /\ votes (store_after r)
     = match first (votes_where pid uid) (votes s) with
       | Some ev =>
           update_set (revoted t req "upvote") (vote_id_is (vote_id ev))
             (votes s)
       | None => insert_into (votes s) (new_vote t i req pid uid "upvote")
       end
  /\ (exists row,
         In row (votes (store_after r)) /\ vote_key row = (pid, uid)
         /\ vote_type row = "upvote" /\ vote_timestamp row = t
         /\ vote_is_petition row = 1%Z)
  /\ petition_details (store_after r) = petition_details s.
Proof.
  intros Hacc Hvt Hpet Hd Hinc Hother. cbv zeta.
  rewrite (createOrUpdateVote_accepted t i req s Hacc).
  assert (Estr : str (voteType req) = "upvote") by now rewrite Hvt.
  rewrite Estr. unfold processVote.
  destruct (first _ (votes s)) as [ev|] eqn:Hfirst.
  - specialize (Hother ev eq_refl). apply String.eqb_neq in Hother.
    rewrite Hother. unfold finishVote. rewrite Hpet, Hd. simpl.
    rewrite incomplete_rejected by assumption. simpl.
    split; [reflexivity|].
    split; [unfold revoted; now rewrite Hpet|]. split; [|reflexivity].
    exists (revoted t req "upvote" ev).
    apply find_some in Hfirst as [Hin Hkey].
    split.
    + unfold update_set. apply in_map_iff. exists ev. split; [|exact Hin].
      unfold vote_id_is, revoted. now rewrite Z.eqb_refl, Hpet.
    + apply votes_where_key in Hkey. unfold vote_key, revoted in *. simpl.
      unfold petition_flag. rewrite Hpet. simpl. auto.
  - unfold finishVote. rewrite Hpet, Hd. simpl.
    rewrite incomplete_rejected by assumption. simpl.
    split; [reflexivity|].
    split; [unfold new_vote; now rewrite Hpet|]. split; [|reflexivity].
    eexists. split.
    + unfold insert_into. apply in_or_app. right. left. reflexivity.
    + unfold vote_key, petition_flag. simpl. auto.
Qed.

Lemma petition_request_accepted d votes_ :
  Accepted (petition_request d) (set_votes example_store votes_).
Proof.
  constructor; simpl; auto;
    eexists; (split; [left; reflexivity|reflexivity]).
Qed.

Lemma petition_rejected_vote_kept_witness :
  let r := createOrUpdateVote 2000 2 (petition_request payload_without_email)
             example_store in
  response_of r = VoteError 400 "Missing required petition details"
  /\ votes (store_after r) = [mkVote 2 "p1" "u1" "upvote" 2000 1]
  /\ petition_details (store_after r) = [].
Proof.
  destruct (petition_rejected_vote_kept 2000 2
              (petition_request payload_without_email) example_store
              payload_without_email) as (R & V & _ & P).
  - apply (petition_request_accepted _ []).
  - reflexivity.
  - reflexivity.
  - reflexivity.
  - reflexivity.
  - simpl. discriminate.
  - cbv zeta. rewrite R, V, P. repeat split; reflexivity.
Defined.

(** C10: when the pair's existing vote has the requested type, the handler
    deletes it and returns at once; whatever the request says about a
    petition, the petition details are left as they were. *)
Theorem toggle_off_ignores_petition_details t i req s ev :
  Accepted req s ->
  first (votes_where (str (proposalId req)) (str (userId req))) (votes s)
  = Some ev ->
  vote_type ev = str (voteType req) ->
  let r := createOrUpdateVote t i req s in
  r = (set_votes s (delete_from (vote_id_is (vote_id ev)) (votes s)),
       [LogDeletedVote (vote_id ev)],
       VoteRemoved (str (proposalId req)) (str (userId req)))
  /\ petition_details (store_after r) = petition_details s.
Proof.
  intros Hacc Hfirst Hty. cbv zeta.
  rewrite (createOrUpdateVote_accepted t i req s Hacc).
  unfold processVote. rewrite Hfirst, Hty, String.eqb_refl.
  split; reflexivity.
Qed.

Lemma toggle_off_ignores_petition_details_witness :
  let r := createOrUpdateVote 2000 2 (petition_request complete_payload)
             example_store_upvoted in
  r = (example_store, [LogDeletedVote 1], VoteRemoved "p1" "u1")
  /\ petition_details (store_after r) = [].
Proof.
  destruct (toggle_off_ignores_petition_details 2000 2
              (petition_request complete_payload) example_store_upvoted
              (mkVote 1 "p1" "u1" "upvote" 1000 0)) as (R & P).
  - apply (petition_request_accepted _ [mkVote 1 "p1" "u1" "upvote" 1000 0]).
  - reflexivity.
  - reflexivity.
  - cbv zeta. rewrite R. split; reflexivity.
Defined.

Section KeyedTables.

Context {A K : Type} (key : A -> K).

Lemma NoDup_delete_from (where_ : A -> bool) (l : list A) :
  NoDup (map key l) -> NoDup (map key (delete_from where_ l)).
Proof.
  unfold delete_from. induction l as [|x l IH]; simpl; intros H; [exact H|].
  inversion H as [|k ks Hnotin Hnodup]; subst.
  destruct (where_ x); simpl; auto.
  constructor; auto.
  intros Hin. apply Hnotin.
  apply in_map_iff in Hin as (y & Hy & Hin).
  apply filter_In in Hin as [Hin _].
  rewrite <- Hy. now apply in_map.
Qed.

Lemma map_key_update_set (set : A -> A) (where_ : A -> bool) (l : list A) :
  (forall r, key (set r) = key r) ->
  map key (update_set set where_ l) = map key l.
Proof.
  intros Hkey. unfold update_set. rewrite map_map.
  apply map_ext. intros r. destruct (where_ r); auto.
Qed.

Lemma NoDup_insert_into (where_ : A -> bool) (l : list A) (x : A) :
  (forall r, key r = key x -> where_ r = true) ->
  first where_ l = None ->
  NoDup (map key l) -> NoDup (map key (insert_into l x)).
Proof.
  intros Hwhere Hnone Hnodup. unfold insert_into.
  rewrite map_app. simpl.
  apply NoDup_app; [exact Hnodup|repeat constructor; intros []|].
  intros k Hin [Hk|[]]. subst k.
  apply in_map_iff in Hin as (r & Hr & Hin).
  pose proof (find_none _ _ Hnone r Hin) as Hf.
  rewrite (Hwhere r Hr) in Hf. discriminate.
Qed.

End KeyedTables.

Lemma votes_where_of_key pid uid r :
  vote_key r = (pid, uid) -> votes_where pid uid r = true.
Proof.
  unfold vote_key, votes_where. intros H. inversion H.
  now rewrite !String.eqb_refl.
Qed.

Lemma processPetitionDetails_invariant t pid uid d s :
  store_invariant s ->
  store_invariant (fst (fst (processPetitionDetails t pid uid d s))).
Proof.
  intros [Hv Hc Hp]. unfold processPetitionDetails.
  destruct (negb _ || _ || _ || _ || _); [now constructor|].
  destruct (first _ (petition_details s)) eqn:Hfirst; constructor; simpl; auto.
  - rewrite map_key_update_set; auto.
  - apply (NoDup_insert_into petition_key (petition_where uid pid)); auto.
    unfold petition_key, petition_where. simpl. intros r H. inversion H.
    now rewrite !String.eqb_refl.
Qed.

Lemma finishVote_invariant t req pid uid vt s1 log1 :
  store_invariant s1 ->
  store_invariant (store_after (finishVote t req pid uid vt s1 log1)).
Proof.
  intros Hinv. unfold finishVote, store_after.
  destruct ((vt =? "upvote")%string && isPetition req); [|exact Hinv].
  destruct (petitionDetails req) as [d|]; [|exact Hinv].
  pose proof (processPetitionDetails_invariant t pid uid d s1 Hinv) as H.
  destruct (processPetitionDetails t pid uid d s1) as [[s2 log2] [early|]];
    exact H.
Qed.

Lemma processVote_invariant t i req pid uid vt s :
  store_invariant s ->
  store_invariant (store_after (processVote t i req pid uid vt s)).
Proof.
  intros [Hv Hc Hp]. unfold processVote.
  destruct (first _ (votes s)) as [ev|] eqn:Hfirst.
  - destruct (vote_type ev =? vt)%string.
    + constructor; simpl; auto. now apply NoDup_delete_from.
    + apply finishVote_invariant. constructor; simpl; auto.
      rewrite map_key_update_set; auto.
  - apply finishVote_invariant. constructor; simpl; auto.
    apply (NoDup_insert_into vote_key (votes_where pid uid)); auto.
    intros r. apply votes_where_of_key.
Qed.

Lemma createOrUpdateVote_invariant t i req s :
  store_invariant s ->
  store_invariant (store_after (createOrUpdateVote t i req s)).
Proof.
  intros Hinv. unfold createOrUpdateVote.
  destruct (negb _ || _ || _); [exact Hinv|].
  destruct (negb _ && _); [exact Hinv|].
  destruct (first _ (users s)); [|exact Hinv].
  destruct (first _ (proposals s)); [|exact Hinv].
  now apply processVote_invariant.
Qed.

Lemma createOrUpdateCommentVote_invariant t i rnd req s :
  store_invariant s ->
  store_invariant (fst (createOrUpdateCommentVote t i rnd req s)).
Proof.
  intros Hinv. unfold createOrUpdateCommentVote.
  destruct (negb _ || _ || _); [exact Hinv|].
  destruct (negb _ && _); [exact Hinv|].
  destruct (first _ (users s)); [|exact Hinv].
  destruct (first _ (comments s)); [|exact Hinv].
  destruct Hinv as [Hv Hc Hp].
  destruct (first _ (comment_votes s)) as [ev|] eqn:Hfirst.
  - destruct (cv_vote_type ev =? _)%string; constructor; simpl; auto.
    + now apply NoDup_delete_from.
    + rewrite map_key_update_set; auto.
  - constructor; simpl; auto.
    apply (NoDup_insert_into comment_vote_key
             (comment_votes_where (str (cv_commentId req))
                (str (cv_userId req)))); auto.
    unfold comment_vote_key, comment_votes_where. simpl.
    intros r H. inversion H. now rewrite !String.eqb_refl.
Qed.

(** C3: every store operation preserves the uniqueness invariant, and so
    does every sequential execution of them: at most one Vote row per
    (proposal, user), one CommentVote row per (comment, user) and one
    PetitionDetail row per (proposal, user). *)
Theorem execute_preserves_invariant ops s :
  store_invariant s -> store_invariant (execute ops s).
Proof.
  unfold execute. revert s.
  induction ops as [|op ops IH]; simpl; intros s Hinv; [exact Hinv|].
  apply IH. destruct op as [t i req|t i rnd req|t pid uid d]; simpl.
  - now apply createOrUpdateVote_invariant.
  - now apply createOrUpdateCommentVote_invariant.
  - now apply processPetitionDetails_invariant.
Qed.

Lemma execute_preserves_invariant_witness :
  store_invariant (execute example_operations example_store).
Proof.
  apply execute_preserves_invariant. constructor; simpl; constructor.
Defined.

(* ================================================================== *)
(** * Properties of the proposal listing *)
(* ================================================================== *)

Section OrderBy.

Variable clause : list order_term.
Variable R : ListedProposal -> ListedProposal -> Prop.

Hypothesis precedes_R : forall a b, precedes clause a b = true -> R a b.
Hypothesis not_precedes_R :
  forall a b, precedes clause a b = false -> R b a.
Hypothesis R_trans : forall a b c, R a b -> R b c -> R a c.

Lemma insert_sorted_In x rows y :
  In y (insert_sorted clause x rows) -> y = x \/ In y rows.
Proof.
  induction rows as [|z rows IH]; simpl.
  - intros [H|[]]; auto.
  - destruct (precedes clause x z); simpl.
    + intros [H|H]; auto.
    + intros [H|H]; auto. destruct (IH H); auto.
Qed.

Lemma insert_sorted_sorted x rows :
  StronglySorted R rows -> StronglySorted R (insert_sorted clause x rows).
Proof.
  induction 1 as [|z rows Hsorted IH Hall]; simpl.
  - repeat constructor.
  - destruct (precedes clause x z) eqn:E.
    + constructor; [now constructor|].
      constructor; [now apply precedes_R|].
      rewrite Forall_forall in *. intros y Hy.
      apply (R_trans x z y); [now apply precedes_R|now apply Hall].
    + constructor; [exact IH|].
      rewrite Forall_forall in *. intros y Hy.
      destruct (insert_sorted_In x rows y Hy) as [->|Hin].
      * now apply not_precedes_R.
      * now apply Hall.
Qed.

Lemma order_by_sorted rows : StronglySorted R (order_by clause rows).
Proof.
  unfold order_by. induction rows as [|x rows IH]; simpl.
  - constructor.
  - now apply insert_sorted_sorted.
Qed.

End OrderBy.

Section SortedSublists.

Context {A : Type} (R : A -> A -> Prop).

Lemma StronglySorted_skipn n (l : list A) :
  StronglySorted R l -> StronglySorted R (skipn n l).
Proof.
  revert l. induction n as [|n IH]; intros l H; simpl; [exact H|].
  destruct l as [|x l]; [constructor|].
  apply IH. now inversion H.
Qed.

Lemma In_firstn n (l : list A) y : In y (firstn n l) -> In y l.
Proof.
  revert l. induction n as [|n IH]; intros l; simpl.
  - intros [].
  - destruct l as [|x l]; simpl; [intros []|].
    intros [E|Hin]; auto.
Qed.

Lemma StronglySorted_firstn n (l : list A) :
  StronglySorted R l -> StronglySorted R (firstn n l).
Proof.
  revert l. induction n as [|n IH]; intros l H; simpl; [constructor|].
  destruct l as [|x l]; [constructor|].
  inversion H as [|? ? Hs Hall]; subst.
  constructor; [now apply IH|].
  rewrite Forall_forall in *. intros y Hy.
  apply Hall. now apply (In_firstn n).
Qed.

Lemma StronglySorted_limit_offset limit offset (l : list A) :
  StronglySorted R l -> StronglySorted R (limit_offset limit offset l).
Proof.
  intros H. unfold limit_offset.
  destruct (limit <? 0)%Z.
  - now apply StronglySorted_skipn.
  - now apply StronglySorted_firstn, StronglySorted_skipn.
Qed.

Lemma StronglySorted_map_same (f : A -> A) (l : list A) :
  (forall a b, R a b -> R (f a) (f b)) ->
  StronglySorted R l -> StronglySorted R (map f l).
Proof.
  intros Hf. induction 1 as [|x l Hs IH Hall]; simpl; constructor; auto.
  rewrite Forall_forall in *. intros y Hy.
  apply in_map_iff in Hy as (z & <- & Hz). auto.
Qed.

End SortedSublists.

Lemma precedes_popular a b :
  precedes [DESC upvotes; DESC timestamp] a b = true <->
  (upvotes b < upvotes a)%Z
  \/ (upvotes a = upvotes b /\ (timestamp b <= timestamp a)%Z).
Proof.
  unfold precedes, compare_by, DESC.
  destruct (Z.compare_spec (upvotes b) (upvotes a));
    destruct (Z.compare_spec (timestamp b) (timestamp a));
    split; intros; try discriminate; try reflexivity; lia.
Qed.

Lemma precedes_net a b :
  precedes [DESC (fun r => upvotes r - downvotes r)%Z] a b = true <->
  (net b <= net a)%Z.
Proof.
  unfold precedes, compare_by, DESC, net.
  destruct (Z.compare_spec (upvotes b - downvotes b)
              (upvotes a - downvotes a));
    split; intros; try discriminate; try reflexivity; lia.
Qed.

(** C5, as stated, fails for the handler of worker.js: it lists the
    proposal with two upvotes and two downvotes (net 0) before the proposal
    with one upvote (net 1). *)
Lemma popular_by_net_counterexample :
  ~ by_net_descending
      (response_data (getProposals None None (Some "popular")
                        contested_store)).
Proof.
  vm_compute. intros H.
  inversion H as [|a l Hs Hall]; subst.
  inversion Hall as [|b l' Hle _]; subst.
  vm_compute in Hle. apply Hle. reflexivity.
Qed.

(** C5, amended: [getProposals] of worker.js with sortBy=popular returns its
    page of rows in descending order of upvotes, the newer first among
    rows with as many upvotes; the older handler of the same route returns
    all rows in descending order of upvotes minus downvotes. *)
Theorem popular_order page_param limit_param userId s :
  by_upvotes_descending
    (response_data (getProposals page_param limit_param (Some "popular") s))
  /\ by_net_descending
       (response_data (Part000.getProposals (Some "popular") userId s)).
Proof.
  split.
  - unfold getProposals. simpl.
    apply StronglySorted_limit_offset.
    apply order_by_sorted.
    + intros a b. apply precedes_popular.
    + intros a b H.
      destruct (precedes [DESC upvotes; DESC timestamp] b a) eqn:E;
        [now apply precedes_popular|].
      exfalso. revert H E. unfold precedes, compare_by, DESC.
      destruct (Z.compare_spec (upvotes b) (upvotes a));
        destruct (Z.compare_spec (timestamp b) (timestamp a));
        destruct (Z.compare_spec (upvotes a) (upvotes b));
        destruct (Z.compare_spec (timestamp a) (timestamp b));
        intros; try discriminate; lia.
    + intros a b c. lia.
  - assert (Hsorted : by_net_descending
              (order_by [DESC (fun r => upvotes r - downvotes r)%Z]
                 (select_proposals s))).
    { apply order_by_sorted.
      - intros a b. apply precedes_net.
      - intros a b H.
        destruct (precedes [DESC (fun r => upvotes r - downvotes r)%Z] b a)
          eqn:E; [now apply precedes_net|].
        exfalso. revert H E. unfold precedes, compare_by, DESC.
        destruct (Z.compare_spec (upvotes b - downvotes b)
                    (upvotes a - downvotes a));
          destruct (Z.compare_spec (upvotes a - downvotes a)
                      (upvotes b - downvotes b));
          intros; try discriminate; lia.
      - intros a b c. lia. }
    unfold Part000.getProposals. simpl.
    destruct (truthy userId && _); simpl; [|exact Hsorted].
    unfold Part000.annotate. apply StronglySorted_map_same; [|exact Hsorted].
    intros a b H. exact H.
Qed.

(* ================================================================== *)
(** * Properties of the share-image renderer *)
(* ================================================================== *)

Section WordWrap.

Local Open Scope Z_scope.

Lemma weight_nonneg ws : 0 <= weight ws.
Proof.
  induction ws as [|w ws IH]; [reflexivity|].
  change (0 <= 1 + Z.of_nat (String.length w) + weight ws). lia.
Qed.

Lemma split_space_cons s : exists w ws, split_space s = w :: ws.
Proof.
  induction s as [|c s IH]; simpl; eauto.
  destruct (Ascii.eqb c " "); eauto.
  destruct IH as (w & ws & ->). eauto.
Qed.

Lemma weight_cons w ws :
  weight (w :: ws) = 1 + Z.of_nat (String.length w) + weight ws.
Proof. reflexivity. Qed.

Lemma weight_split_space s :
  weight (split_space s) = Z.of_nat (String.length s) + 1.
Proof.
  induction s as [|c s IH]; [reflexivity|].
  cbn [split_space]. destruct (Ascii.eqb c " ").
  - rewrite weight_cons, IH. cbn [String.length]. lia.
  - destruct (split_space_cons s) as (w & ws & E). rewrite E in *.
    rewrite weight_cons in *. cbn [String.length] in *. lia.
Qed.

Lemma length_append (a b : string) :
  String.length (a ++ b) = (String.length a + String.length b)%nat.
Proof. induction a; simpl; auto. Qed.

(** While the demand fits the budget the loop pushes nothing. *)
Lemma fold_wrap_fits cpl ws : forall lines currentLine,
  (ws <> [] -> demand currentLine ws <= cpl) ->
  exists line,
    fold_left (wrap_word cpl) ws (lines, currentLine) = (lines, line)
    /\ (nonempty currentLine = true \/ existsb nonempty ws = true ->
        nonempty line = true).
Proof.
  induction ws as [|w ws IH]; intros lines cur Hfit.
  - exists cur. split; [reflexivity|]. intros [H|H]; [exact H|discriminate].
  - assert (Hd : demand cur (w :: ws) <= cpl) by (apply Hfit; discriminate).
    clear Hfit. unfold demand in Hd. rewrite weight_cons in Hd.
    pose proof (weight_nonneg ws) as Hw.
    cbn [fold_left wrap_word].
    destruct (nonempty cur) eqn:Hcur.
    + assert (Hlen : Z.of_nat (String.length (cur ++ " " ++ w))
                     = Z.of_nat (String.length cur) + 1
                       + Z.of_nat (String.length w)).
      { rewrite !length_append. cbn [String.length]. lia. }
      assert (Hne' : nonempty (cur ++ " " ++ w) = true)
        by (destruct cur; [discriminate|reflexivity]).
      replace (Z.of_nat (String.length (cur ++ " " ++ w)) <=? cpl)
        with true by (symmetry; apply Z.leb_le; lia).
      destruct (IH lines (cur ++ " " ++ w)%string) as (line & E & Hne).
      { intros _. unfold demand. rewrite Hne'. lia. }
      exists line. split; [exact E|]. intros _. apply Hne. now left.
    + replace (Z.of_nat (String.length w) <=? cpl) with true
        by (symmetry; apply Z.leb_le; lia).
      destruct (IH lines w) as (line & E & Hne).
      { intros Hws. unfold demand. destruct (nonempty w); [lia|].
        destruct ws as [|w' ws]; [congruence|].
        rewrite weight_cons in *. lia. }
      exists line. split; [exact E|].
      intros [H|H]; [discriminate|]. apply Hne.
      cbn [existsb] in H. apply orb_true_iff in H. tauto.
Qed.

Lemma blank_no_word s : blank s = false -> existsb nonempty (split_space s) = true.
Proof.
  induction s as [|c s IH]; simpl; [discriminate|].
  destruct (Ascii.eqb c " "); simpl; [exact IH|].
  intros _. destruct (split_space_cons s) as (w & ws & ->). reflexivity.
Qed.

Lemma assign_at_nth {A} (f : A -> A) (l : list A) i x :
  nth_error l i = Some x -> nth_error (assign_at i f l) i = Some (f x).
Proof.
  revert i. induction l as [|y l IH]; intros [|i]; simpl;
    try discriminate.
  - now intros [= ->].
  - apply IH.
Qed.

Lemma assign_at_length {A} (f : A -> A) (l : list A) i :
  List.length (assign_at i f l) = List.length l.
Proof.
  revert i. induction l as [|y l IH]; intros [|i]; simpl; auto.
Qed.

End WordWrap.

(** C7, as stated, fails on the empty text: no line at all is produced. *)
Lemma short_text_one_line_counterexample :
  ~ short_text_one_line EmptyString 960.
Proof.
  unfold short_text_one_line. intros H.
  assert (E : List.length (limitedLines EmptyString 960) = 1)
    by (apply H; vm_compute; discriminate).
  vm_compute in E. discriminate E.
Qed.

(** C7, amended: a text with at least one character other than a space and
    no longer than the per-line budget is wrapped to exactly one line; a
    text whose wrapped form has more than 6 lines is cut to exactly 6
    lines, the sixth ending in three dots.  [generateSVGTextLines] renders
    one text element for each of these lines. *)
Theorem word_wrap text width :
  ((Z.of_nat (String.length text) <= charsPerLine width)%Z ->
   blank text = false ->
   List.length (limitedLines text width) = 1)
  /\ (6 < List.length (wrapped text width) ->
      List.length (limitedLines text width) = 6
      /\ exists l,
          nth_error (limitedLines text width) 5 = Some (l ++ "...")%string).
Proof.
  split.
  - intros Hlen Hblank. unfold limitedLines, wrapped.
    destruct (fold_wrap_fits (charsPerLine width) (split_space text) []
                EmptyString) as (line & E & Hne).
    { intros _. unfold demand.
      change (nonempty EmptyString) with false. cbv iota.
      rewrite weight_split_space. lia. }
    rewrite E, Hne by (right; now apply blank_no_word).
    reflexivity.
  - intros Hlong. unfold limitedLines.
    apply Nat.ltb_lt in Hlong. rewrite Hlong.
    apply Nat.ltb_lt in Hlong.
    rewrite assign_at_length, length_firstn.
    split; [lia|].
    destruct (nth_error (firstn 6 (wrapped text width)) 5) as [x|] eqn:E.
    + exists (slice_drop_last 3 x).
      now apply (assign_at_nth (fun l => (slice_drop_last 3 l ++ "...")%string)).
    + apply nth_error_None in E. rewrite length_firstn in E. lia.
Qed.

(** Length alone does not decide the number of lines: a single word of 54
    characters, over five times the budget of 10, wraps to an empty line
    and the word. *)
Example one_long_word_two_lines :
  limitedLines "aaaaaaaaaaaaaaaaaaaaaaaaaaaaaaaaaaaaaaaaaaaaaaaaaaaaaa" 220
  = [EmptyString; "aaaaaaaaaaaaaaaaaaaaaaaaaaaaaaaaaaaaaaaaaaaaaaaaaaaaaa"].
Proof. vm_compute. reflexivity. Qed.

Lemma word_wrap_witness :
  List.length (limitedLines "Ban cars" 960) = 1
  /\ List.length (limitedLines long_text 220) = 6
  /\ exists l, nth_error (limitedLines long_text 220) 5
               = Some (l ++ "...")%string.
Proof.
  split.
  - apply (proj1 (word_wrap "Ban cars" 960)).
    + vm_compute. discriminate.
    + reflexivity.
  - apply (proj2 (word_wrap long_text 220)). vm_compute. lia.
Defined.

Section Escaping.

Lemma append_assoc (a b c : string) :
  ((a ++ b) ++ c = a ++ (b ++ c))%string.
Proof. induction a as [|x a IH]; simpl; [reflexivity|now rewrite IH]. Qed.

Lemma replace_char_app c by_ a b :
  replace_char c by_ (a ++ b)
  = (replace_char c by_ a ++ replace_char c by_ b)%string.
Proof.
  induction a as [|x a IH]; simpl; [reflexivity|].
  destruct (Ascii.eqb x c); rewrite IH; simpl.
  - now rewrite append_assoc.
  - reflexivity.
Qed.

Lemma escapeHTML_app a b :
  escapeHTML (a ++ b) = (escapeHTML a ++ escapeHTML b)%string.
Proof. unfold escapeHTML. now rewrite !replace_char_app. Qed.

Lemma escapeHTML_char c : escapeHTML (String c EmptyString) = entity c.
Proof. destruct c as [[] [] [] [] [] [] [] []]; reflexivity. Qed.

(** The five passes amount to one pass that puts the entity in the place
    of each unsafe character. *)
Lemma escapeHTML_cons c s :
  escapeHTML (String c s) = (entity c ++ escapeHTML s)%string.
Proof.
  change (String c s) with (String c EmptyString ++ s)%string.
  now rewrite escapeHTML_app, escapeHTML_char.
Qed.

Lemma prefix_empty s : prefix EmptyString s = true.
Proof. destruct s; reflexivity. Qed.

Lemma escaped_entity c s :
  escaped s = true -> escaped (entity c ++ s) = true.
Proof.
  intros H.
  destruct c as [[] [] [] [] [] [] [] []]; cbn;
    rewrite ?prefix_empty, H; reflexivity.
Qed.

Lemma escapeHTML_escaped s : escaped (escapeHTML s) = true.
Proof.
  induction s as [|c s IH]; [reflexivity|].
  rewrite escapeHTML_cons. now apply escaped_entity.
Qed.

Lemma plain_escaped s : plain s = true -> escaped s = true.
Proof.
  induction s as [|c s IH]; simpl; [reflexivity|].
  intros H. apply andb_true_iff in H as [Hc Hs].
  rewrite (IH Hs), andb_true_r.
  destruct (Ascii.eqb c "&") eqn:E; [|exact Hc].
  apply Ascii.eqb_eq in E. subst c. discriminate Hc.
Qed.

Lemma plain_app a b : plain (a ++ b) = plain a && plain b.
Proof.
  induction a as [|c a IH]; simpl; [reflexivity|].
  now rewrite IH, andb_assoc.
Qed.

Lemma plain_substring s : forall n m,
  plain s = true -> plain (substring n m s) = true.
Proof.
  induction s as [|c s IH]; intros n m H.
  - destruct n, m; reflexivity.
  - simpl in H. apply andb_true_iff in H as [Hc Hs].
    destruct n as [|n]; simpl.
    + destruct m as [|m]; simpl; [reflexivity|].
      now rewrite Hc, (IH 0 m Hs).
    + now apply IH.
Qed.

Lemma plain_string_of_uint d : plain (NilEmpty.string_of_uint d) = true.
Proof. induction d; simpl; auto. Qed.

Lemma plain_string_of_Z z : plain (string_of_Z z) = true.
Proof.
  unfold string_of_Z, NilZero.string_of_int, NilZero.string_of_uint.
  destruct (Z.to_int z) as [d|d]; destruct d;
    simpl; auto using plain_string_of_uint.
Qed.

Lemma plain_date ms : plain (toLocaleDateString_en_US ms) = true.
Proof.
  unfold toLocaleDateString_en_US.
  destruct (civil_from_days _) as [[y m] d].
  rewrite !plain_app, !plain_string_of_Z.
  assert (Hm : plain (month_short m) = true).
  { unfold month_short. generalize (Z.to_nat (m - 1)). intros n.
    do 12 (destruct n as [|n]; [reflexivity|]). destruct n; reflexivity. }
  rewrite Hm. reflexivity.
Qed.

Lemma text_elements_escaped x y lines : forall index,
  all_substitutions_escaped (text_elements x y index lines).
Proof.
  induction lines as [|line lines IH]; intros index v Hin.
  - destruct Hin.
  - cbn [text_elements] in Hin. apply in_app_or in Hin as [Hin|Hin].
    + repeat (destruct Hin as [Hin|Hin];
              [inversion Hin; subst;
               auto using plain_escaped, plain_string_of_Z,
                 escapeHTML_escaped|]).
      destruct Hin.
    + exact (IH _ v Hin).
Qed.

End Escaping.

(** C6, as stated, fails: the proposal id is substituted as it is, so an id
    with markup reaches the output raw. *)
Lemma all_escaped_counterexample :
  ~ all_substitutions_escaped
      (generatePetitionSVG_pieces toLocaleDateString_en_US 0%Z
         markup_id_proposal).
Proof.
  intros H. specialize (H "<b>").
  assert (E : escaped "<b>" = true); [|discriminate E].
  apply H. unfold generatePetitionSVG_pieces.
  apply in_or_app. right. apply in_or_app. right.
  cbn [or_string truthy p_id markup_id_proposal str negb String.eqb
         Ascii.eqb Bool.eqb].
  do 9 right. left. reflexivity.
Qed.

(** C6, amended: the petition text is escaped for the five markup-unsafe
    characters before it is embedded, line by line: every value substituted
    in the text elements is escaped.  The proposal id is substituted as it
    is (and so are its last six characters, the counts and the date); when
    the id holds none of the five characters, and the formatted date does
    not either, every value substituted in the image is escaped. *)
Theorem renderer_escapes_petition_text
    (toLocaleDateString : Z -> string) (now : Z) (proposal : Proposal) :
  let petitionText := or_string (p_text proposal) "Unknown petition" in
  let proposalId := or_string (p_id proposal) "unknown" in
  all_substitutions_escaped
    (generateSVGTextLines_pieces petitionText 120%Z 220%Z 960%Z)
  /\ In (Sub proposalId)
        (generatePetitionSVG_pieces toLocaleDateString now proposal)
  /\ (plain proposalId = true ->
      (forall ms, plain (toLocaleDateString ms) = true) ->
      all_substitutions_escaped
        (generatePetitionSVG_pieces toLocaleDateString now proposal)).
Proof.
  cbv zeta. split; [|split].
  - apply text_elements_escaped.
  - unfold generatePetitionSVG_pieces.
    apply in_or_app. right. apply in_or_app. right.
    do 9 right. left. reflexivity.
  - intros Hid Hdate v Hin. unfold generatePetitionSVG_pieces in Hin.
    apply in_app_or in Hin as [Hin|Hin];
      [|apply in_app_or in Hin as [Hin|Hin]].
    + destruct Hin as [Hin|[]]. discriminate Hin.
    + exact (text_elements_escaped _ _ _ _ v Hin).
    + repeat (destruct Hin as [Hin|Hin];
              [first [discriminate Hin | injection Hin as <-]|]).
      * apply plain_escaped, plain_string_of_Z.
      * apply plain_escaped, plain_string_of_Z.
      * destruct (0 <? _)%Z; [reflexivity|].
        destruct (_ <? 0)%Z; reflexivity.
      * destruct (0 <? _)%Z; apply plain_escaped.
        -- cbn [plain]. now rewrite plain_string_of_Z.
        -- apply plain_string_of_Z.
      * now apply plain_escaped.
      * apply plain_escaped, Hdate.
      * apply plain_escaped. unfold slice_last. now apply plain_substring.
      * destruct Hin.
Qed.

Lemma renderer_escapes_petition_text_witness :
  all_substitutions_escaped
    (generatePetitionSVG_pieces toLocaleDateString_en_US 0%Z stored_proposal).
Proof.
  apply (renderer_escapes_petition_text toLocaleDateString_en_US 0%Z
           stored_proposal).
  - reflexivity.
  - apply plain_date.
Defined.

(** C9, as stated, fails: a time stamp of 0 is taken for a missing one and
    replaced by the current time, so the date in the image is the day of
    the rendering. *)
Lemma time_independent_counterexample :
  ~ time_independent toLocaleDateString_en_US epoch_proposal.
Proof.
  intros H. specialize (H 0%Z 1700000000000%Z).
  apply (f_equal (fun s => String.eqb s
           (generatePetitionSVG toLocaleDateString_en_US 0%Z epoch_proposal)))
    in H.
  vm_compute in H. discriminate H.
Qed.

(** C9, amended: for every proposal whose time stamp is present and not 0,
    the image is a function of the proposal alone: two runs give the same
    text, whatever the current time of each. *)
Theorem renderer_deterministic
    (toLocaleDateString : Z -> string) (proposal : Proposal) (ts : Z) :
  p_timestamp proposal = Some ts -> ts <> 0%Z ->
  time_independent toLocaleDateString proposal.
Proof.
  intros Hts Hnz now1 now2.
  unfold generatePetitionSVG, generatePetitionSVG_pieces.
  rewrite Hts. unfold or_number.
  apply Z.eqb_neq in Hnz. rewrite Hnz. reflexivity.
Qed.

Lemma renderer_deterministic_witness :
  time_independent toLocaleDateString_en_US stored_proposal.
Proof.
  apply (renderer_deterministic toLocaleDateString_en_US stored_proposal
           1700000000000%Z).
  - reflexivity.
  - discriminate.
Defined.

(* ================================================================== *)
(** * Properties of the meta-tag injector *)
(* ================================================================== *)

(** C8, as stated, fails: the marker is looked for in the stripped page, so
    a page that has none before the image tags are removed, and one after,
    gets the replacement tags. *)
Lemma degraded_fallback_counterexample :
  ~ degraded_fallback
      (fun origin =>
         serveCustomizedHtml 0 "p1" "theradicalparty.com" false origin
           example_store)
      split_marker_page html_headers.
Proof.
  unfold degraded_fallback. intros H.
  assert (E : indexOf "</head>" split_marker_page = None)
    by (vm_compute; reflexivity).
  specialize (H E). clear E.
  assert (B : forall a b, a = b ->
              match a, b with
              | Page x _, Page y _ => String.eqb x y = true
              | _, _ => True
              end).
  { intros a b ->. destruct b; [exact I|apply String.eqb_refl]. }
  apply B in H. vm_compute in H. discriminate H.
Qed.

(** C8, amended: when the proposal is found (or the test data are used)
    and the page, once its Open-Graph and Twitter image tags are stripped,
    has no closing head marker, the stripped page is returned with the
    headers of the original response and no replacement tag. *)
Theorem no_head_marker_fallback now proposalId hostname isTestMeta html
    headers s :
  isTestMeta = true \/ proposal_with_author proposalId s <> None ->
  indexOf "</head>" (strip_image_tags html) = None ->
  serveCustomizedHtml now proposalId hostname isTestMeta
    (Some (mkOrigin html headers)) s
  = Page (strip_image_tags html) headers.
Proof.
  intros Hfound Hnone. unfold serveCustomizedHtml.
  destruct isTestMeta.
  - cbn [origin_html origin_headers]. now rewrite Hnone.
  - destruct Hfound as [Hf|Hf]; [discriminate|].
    destruct (proposal_with_author proposalId s) as [[p u]|];
      [|congruence].
    cbn [origin_html origin_headers]. now rewrite Hnone.
Qed.

Lemma no_head_marker_fallback_witness :
  serveCustomizedHtml 0 "p1" "theradicalparty.com" false
    (Some (mkOrigin headless_page html_headers)) example_store
  = Page "<html><body></body></html>" html_headers.
Proof.
  rewrite (no_head_marker_fallback 0 "p1" "theradicalparty.com" false
             headless_page html_headers example_store).
  - reflexivity.
  - right. vm_compute. discriminate.
  - vm_compute. reflexivity.
Defined.

(* ================================================================== *)
(** * Further properties of the vote toggle engine *)
(* ================================================================== *)

Lemma processPetitionDetails_early t pid uid d s s' log early :
  processPetitionDetails t pid uid d s = (s', log, Some early) ->
  s' = s /\ early = VoteError 400 "Missing required petition details".
Proof.
  unfold processPetitionDetails.
  destruct (negb _ || _ || _ || _ || _).
  - intros [= <- _ <-]. auto.
  - destruct (first _ _); discriminate.
Qed.

Lemma finishVote_error t req pid uid vt s1 log1 st msg :
  response_of (finishVote t req pid uid vt s1 log1) = VoteError st msg ->
  msg = "Missing required petition details".
Proof.
  unfold finishVote, response_of.
  destruct ((vt =? "upvote")%string && isPetition req); [|discriminate].
  destruct (petitionDetails req) as [d|]; [|discriminate].
  destruct (processPetitionDetails t pid uid d s1) as [[s2 log2] [early|]]
    eqn:E; [|discriminate].
  apply processPetitionDetails_early in E as [_ ->].
  simpl. now intros [= _ <-].
Qed.



Ltac unchanged_frame :=
  unfold store_after; simpl; repeat split; auto; congruence.

Lemma finishVote_petition_frame t req pid uid vt s1 log1 :
  petition_details (store_after (finishVote t req pid uid vt s1 log1))
  <> petition_details s1 ->
  vt = "upvote" /\ isPetition req = true /\ petitionDetails req <> None.
Proof.
  unfold finishVote, store_after. intros Hne.
  destruct (vt =? "upvote")%string eqn:Evt; [|simpl in Hne; congruence].
  destruct (isPetition req); [|simpl in Hne; congruence].
  destruct (petitionDetails req) as [d|]; [|simpl in Hne; congruence].
  apply String.eqb_eq in Evt. repeat split; congruence.
Qed.

(** X2: [createOrUpdateVote] never changes the users, the proposals, the
    comments or the comment votes, and it changes the petition details only
    for an upvote flagged as a petition that carries details. *)
Theorem vote_frame t i req s :
  let s' := store_after (createOrUpdateVote t i req s) in
  users s' = users s /\ proposals s' = proposals s
  /\ comments s' = comments s /\ comment_votes s' = comment_votes s
  /\ (petition_details s' <> petition_details s ->
      voteType req = Some "upvote" /\ isPetition req = true
      /\ petitionDetails req <> None).
Proof.
  cbv zeta. unfold createOrUpdateVote.
  destruct (negb (truthy (proposalId req)) || negb (truthy (userId req))
            || negb (truthy (voteType req))) eqn:Ev; [unchanged_frame|].
  destruct (negb _ && _); [unchanged_frame|].
  destruct (first _ (users s)); [|unchanged_frame].
  destruct (first _ (proposals s)); [|unchanged_frame].
  assert (Hvt : str (voteType req) = "upvote" -> voteType req = Some "upvote").
  { destruct (voteType req); simpl; [congruence|discriminate]. }
  unfold processVote.
  destruct (first _ (votes s)) as [ev|].
  - destruct (vote_type ev =? _)%string; [unchanged_frame|].
    match goal with |- context [finishVote _ _ _ _ _ ?s1 ?l1] =>
      destruct (finishVote_frame t req (str (proposalId req))
                  (str (userId req)) (str (voteType req)) s1 l1)
        as (U & P & C & _ & V & _);
      pose proof (finishVote_petition_frame t req (str (proposalId req))
                    (str (userId req)) (str (voteType req)) s1 l1) as D
    end.
    simpl in U, P, C, V, D. rewrite U, P, C, V.
    do 4 (split; [reflexivity|]). intros Hne.
    destruct (D Hne) as (A & B & E). auto.
  - match goal with |- context [finishVote _ _ _ _ _ ?s1 ?l1] =>
      destruct (finishVote_frame t req (str (proposalId req))
                  (str (userId req)) (str (voteType req)) s1 l1)
        as (U & P & C & _ & V & _);
      pose proof (finishVote_petition_frame t req (str (proposalId req))
                    (str (userId req)) (str (voteType req)) s1 l1) as D
    end.
    simpl in U, P, C, V, D. rewrite U, P, C, V.
    do 4 (split; [reflexivity|]). intros Hne.
    destruct (D Hne) as (A & B & E). auto.
Qed.

Lemma vote_frame_witness :
  petition_details
    (store_after
       (createOrUpdateVote 2000 2 (petition_request complete_payload)
          example_store))
  <> petition_details example_store
  /\ voteType (petition_request complete_payload) = Some "upvote".
Proof.
  assert (Hne : petition_details
                  (store_after
                     (createOrUpdateVote 2000 2
                        (petition_request complete_payload) example_store))
                <> petition_details example_store)
    by (vm_compute; discriminate).
  split; [exact Hne|].
  destruct (vote_frame 2000 2 (petition_request complete_payload)
              example_store) as (_ & _ & _ & _ & H).
  exact (proj1 (H Hne)).
Defined.

Lemma count_insert_into {A} (f : A -> bool) (l : list A) (x : A) :
  count f (insert_into l x) = (count f l + (if f x then 1 else 0))%Z.
Proof.
  unfold count, insert_into. rewrite filter_app, length_app. simpl.
  destruct (f x); simpl; lia.
Qed.

Lemma map_flat_map {A B C} (g : B -> C) (f : A -> list B) (l : list A) :
  map g (flat_map f l) = flat_map (fun a => map g (f a)) l.
Proof.
  induction l as [|a l IH]; simpl; [reflexivity|].
  now rewrite map_app, IH.
Qed.

(** X3: the first vote of a (proposal, user) pair that is no petition shows
    in the listing as one more vote of its type on that proposal, and as
    nothing else: every other row and every other count is as before. *)
Theorem first_vote_in_listing t i req s :
  Accepted req s ->
  isPetition req = false ->
  vote_rows (str (proposalId req)) (str (userId req)) s = [] ->
  select_proposals (store_after (createOrUpdateVote t i req s))
  = map (fun r => if (id r =? str (proposalId req))%string
                  then one_more_vote (str (voteType req)) r else r)
      (select_proposals s).
Proof.
  intros Hacc Hpet Hrows.
  rewrite (createOrUpdateVote_accepted t i req s Hacc).
  destruct (accepted_voteType req s Hacc) as [_ Hvt].
  set (pid := str (proposalId req)) in *.
  set (uid := str (userId req)) in *.
  set (vt := str (voteType req)) in *.
  unfold processVote, first. rewrite find_hd_filter.
  fold (vote_rows pid uid s). rewrite Hrows. simpl hd_error. cbv iota.
  unfold finishVote. rewrite Hpet, andb_false_r.
  unfold store_after. simpl fst.
  unfold select_proposals. rewrite map_flat_map.
  apply flat_map_ext. intros p. rewrite map_map. apply map_ext. intros u.
  simpl. rewrite !count_insert_into. simpl.
  unfold petition_flag. rewrite andb_false_r.
  unfold one_more_vote. simpl.
  rewrite (String.eqb_sym pid (prop_id p)).
  destruct (prop_id p =? pid)%string eqn:Ep; simpl.
  - destruct Hvt as [E|E]; rewrite E; simpl; f_equal; lia.
  - f_equal; lia.
Qed.

Lemma first_vote_in_listing_witness :
  map upvotes
    (select_proposals
       (store_after
          (createOrUpdateVote 2000 2 (vote_request "upvote") example_store)))
  = [1%Z].
Proof.
  rewrite (first_vote_in_listing 2000 2 (vote_request "upvote")
             example_store).
  - reflexivity.
  - apply (example_accepted "upvote" []). now left.
  - reflexivity.
  - reflexivity.
Defined.

Lemma store_eta s :
  mkStore (users s) (proposals s) (comments s) (votes s) (comment_votes s)
    (petition_details s) = s.
Proof. destruct s; reflexivity. Qed.

Lemma createOrUpdateCommentVote_accepted t i rnd req s :
  CommentAccepted req s ->
  createOrUpdateCommentVote t i rnd req s
  = let cid := str (cv_commentId req) in
    let uid := str (cv_userId req) in
    let vt := str (cv_voteType req) in
    match first (comment_votes_where cid uid) (comment_votes s) with
    | Some ev =>
        if (cv_vote_type ev =? vt)%string
        then
          (set_comment_votes s
             (delete_from (cv_id_is (cv_id ev)) (comment_votes s)),
           CommentVoteDone cid uid None "removed")
        else
          (set_comment_votes s
             (update_set
                (fun r => mkCommentVote (cv_id r) (cv_comment_id r)
                            (cv_user_id r) vt t)
                (cv_id_is (cv_id ev)) (comment_votes s)),
           CommentVoteDone cid uid (Some vt) "updated")
    | None =>
        (set_comment_votes s
           (insert_into (comment_votes s)
              (mkCommentVote (new_comment_vote_id i rnd) cid uid vt t)),
         CommentVoteDone cid uid (Some vt) "created")
    end.
Proof.
  intros [Hc Hu Hvt [u [Hin Hid]] [c [Hcin Hcid]]].
  unfold createOrUpdateCommentVote. rewrite Hc, Hu.
  replace (truthy (cv_voteType req)) with true
    by (destruct Hvt as [E|E]; rewrite E; reflexivity).
  simpl.
  replace (negb (str (cv_voteType req) =? "upvote")
           && negb (str (cv_voteType req) =? "downvote"))%string
    with false
    by (destruct Hvt as [E|E]; rewrite E; reflexivity).
  destruct (find_present
              (fun u => (user_id u =? str (cv_userId req))%string)
              (users s) u Hin) as [u' Eu].
  { rewrite Hid. apply String.eqb_refl. }
  destruct (find_present
              (fun c => (comment_id c =? str (cv_commentId req))%string)
              (comments s) c Hcin) as [c' Ec].
  { rewrite Hcid. apply String.eqb_refl. }
  unfold first in *. rewrite Eu, Ec.
  destruct (find _ (comment_votes s)); reflexivity.
Qed.

(** X4: [createOrUpdateCommentVote] changes no table but the comment votes,
    and when it answers with an error it has changed nothing at all. *)
Theorem comment_vote_frame t i rnd req s :
  let r := createOrUpdateCommentVote t i rnd req s in
  users (fst r) = users s /\ proposals (fst r) = proposals s
  /\ comments (fst r) = comments s /\ votes (fst r) = votes s
  /\ petition_details (fst r) = petition_details s
  /\ (forall st msg, snd r = CommentVoteError st msg -> fst r = s).
Proof.
  cbv zeta. unfold createOrUpdateCommentVote.
  destruct (negb _ || _ || _); [simpl; auto 10|].
  destruct (negb _ && _); [simpl; auto 10|].
  destruct (first _ (users s)); [|simpl; auto 10].
  destruct (first _ (comments s)); [|simpl; auto 10].
  destruct (first _ (comment_votes s)) as [ev|].
  - destruct (cv_vote_type ev =? _)%string; simpl;
      repeat split; auto; discriminate.
  - simpl. repeat split; auto; discriminate.
Qed.

Lemma comment_vote_frame_witness :
  fst (createOrUpdateCommentVote 2000 2001 "k3x9a"
         (mkCommentVoteRequest (Some "c1") (Some "u1") (Some "sideways"))
         example_store)
  = example_store.
Proof.
  destruct (comment_vote_frame 2000 2001 "k3x9a"
              (mkCommentVoteRequest (Some "c1") (Some "u1") (Some "sideways"))
              example_store) as (_ & _ & _ & _ & _ & H).
  apply (H 400%Z "Invalid vote type"). reflexivity.
Defined.

Lemma find_app_none {A} (p : A -> bool) (l l' : list A) :
  find p l = None -> find p (l ++ l') = find p l'.
Proof.
  induction l as [|x l IH]; simpl; [reflexivity|].
  destruct (p x); [discriminate|exact IH].
Qed.

Lemma delete_from_none {A} (where_ : A -> bool) (l : list A) :
  (forall r, In r l -> where_ r = false) -> delete_from where_ l = l.
Proof.
  unfold delete_from. induction l as [|x l IH]; intros H; simpl;
    [reflexivity|].
  rewrite (H x (or_introl eq_refl)). simpl. f_equal.
  apply IH. intros r Hr. apply H. now right.
Qed.

(** X5: casting a comment vote on a pair that has none and repeating the
    same request brings the store back to what it was: the first call
    answers created, the second removed with voteType null, provided the
    id generated for the new row is the id of no other row. *)
Theorem comment_vote_cast_and_cancel t1 i1 rnd1 t2 i2 rnd2 req s :
  CommentAccepted req s ->
  first (comment_votes_where (str (cv_commentId req)) (str (cv_userId req)))
    (comment_votes s) = None ->
  (forall r, In r (comment_votes s) ->
             cv_id r <> new_comment_vote_id i1 rnd1) ->
  let cid := str (cv_commentId req) in
  let uid := str (cv_userId req) in
  let r1 := createOrUpdateCommentVote t1 i1 rnd1 req s in
  let r2 := createOrUpdateCommentVote t2 i2 rnd2 req (fst r1) in
  snd r1 = CommentVoteDone cid uid (Some (str (cv_voteType req))) "created"
  /\ snd r2 = CommentVoteDone cid uid None "removed"
  /\ fst r2 = s.
Proof.
  intros Hacc Hnone Hfresh. cbv zeta.
  rewrite (createOrUpdateCommentVote_accepted t1 i1 rnd1 req s Hacc).
  cbv zeta. rewrite Hnone. simpl fst. simpl snd.
  split; [reflexivity|].
  set (row := mkCommentVote (new_comment_vote_id i1 rnd1)
                (str (cv_commentId req)) (str (cv_userId req))
                (str (cv_voteType req)) t1).
  assert (Hacc1 : CommentAccepted req
                    (set_comment_votes s (insert_into (comment_votes s) row))).
  { destruct Hacc. constructor; auto. }
  rewrite (createOrUpdateCommentVote_accepted t2 i2 rnd2 req _ Hacc1).
  cbv zeta. simpl comment_votes.
  assert (Hfind : first (comment_votes_where (str (cv_commentId req))
                           (str (cv_userId req)))
                    (insert_into (comment_votes s) row) = Some row).
  { unfold first, insert_into in *. rewrite (find_app_none _ _ _ Hnone). simpl.
    unfold comment_votes_where. simpl. now rewrite !String.eqb_refl. }
  rewrite Hfind. simpl cv_vote_type. rewrite String.eqb_refl.
  simpl. split; [reflexivity|].
  unfold set_comment_votes. simpl.
  replace (delete_from (cv_id_is (new_comment_vote_id i1 rnd1))
             (insert_into (comment_votes s) row))
    with (comment_votes s); [apply store_eta|].
  unfold delete_from, insert_into. rewrite filter_app. simpl.
  unfold cv_id_is at 2. simpl. rewrite String.eqb_refl. simpl.
  rewrite app_nil_r. symmetry.
  apply (delete_from_none (cv_id_is (new_comment_vote_id i1 rnd1))).
  intros r Hr. unfold cv_id_is. apply String.eqb_neq. now apply Hfresh.
Qed.

Lemma comment_accepted_example vt :
  vt = "upvote" \/ vt = "downvote" ->
  CommentAccepted (comment_vote_request vt) example_store.
Proof.
  intros Hvt. constructor; simpl; auto.
  - destruct Hvt as [-> | ->]; auto.
  - eexists; split; [left; reflexivity|reflexivity].
  - eexists; split; [left; reflexivity|reflexivity].
Qed.

Lemma comment_vote_cast_and_cancel_witness :
  fst (createOrUpdateCommentVote 3000 3001 "q7m2z"
         (comment_vote_request "upvote")
         (fst (createOrUpdateCommentVote 2000 2001 "k3x9a"
                 (comment_vote_request "upvote") example_store)))
  = example_store.
Proof.
  apply (comment_vote_cast_and_cancel 2000 2001 "k3x9a" 3000 3001 "q7m2z"
           (comment_vote_request "upvote") example_store).
  - apply comment_accepted_example. now left.
  - reflexivity.
  - intros r [].
Defined.

Lemma upsert_present t pid uid d s1 :
  complete d ->
  exists pd,
    In pd (petition_details (fst (fst (processPetitionDetails t pid uid d s1))))
    /\ petition_key pd = (pid, uid) /\ pd_verified pd = 1%Z
    /\ pd_timestamp pd = t /\ pd_full_name pd = str (fullName d).
Proof.
  unfold complete, processPetitionDetails. intros Hc.
  repeat (apply andb_true_iff in Hc as [Hc ?]).
  replace (negb (truthy (fullName d)) || negb (truthy (address d))
           || negb (truthy (postcode d)) || negb (truthy (dob d))
           || negb (truthy (email d))) with false
    by (rewrite Hc, H, H0, H1, H2; reflexivity).
  destruct (first _ (petition_details s1)) as [old|] eqn:Hfirst; simpl.
  - apply find_some in Hfirst as [Hin Hkey].
    unfold petition_where in Hkey. apply andb_true_iff in Hkey as [Ku Kp].
    apply String.eqb_eq in Ku, Kp.
    exists (mkPetitionDetail uid pid (str (fullName d)) (str (address d))
              (str (postcode d)) (str (dob d)) (str (email d)) t 1).
    split.
    + unfold update_set. apply in_map_iff. exists old. split; [|exact Hin].
      cbv beta. unfold petition_where.
      rewrite Ku, Kp, !String.eqb_refl. reflexivity.
    + unfold petition_key. simpl. auto.
  - eexists. split.
    + unfold insert_into. apply in_or_app. right. left. reflexivity.
    + unfold petition_key. simpl. auto.
Qed.

Lemma finishVote_upsert t req pid uid s1 log1 d :
  isPetition req = true -> petitionDetails req = Some d ->
  petition_details (store_after (finishVote t req pid uid "upvote" s1 log1))
  = petition_details (fst (fst (processPetitionDetails t pid uid d s1))).
Proof.
  intros Hp Hd. unfold finishVote, store_after. rewrite Hp, Hd. simpl.
  destruct (processPetitionDetails t pid uid d s1) as [[s2 log2] [e|]];
    reflexivity.
Qed.

(** X6: petition details outlive the vote.  After an accepted upvote that
    is flagged as a petition and carries complete details, repeating the
    vote removes the Vote row of the pair, yet the verified PetitionDetail
    row of the pair stays in the store. *)
Theorem petition_details_outlive_vote t1 i1 t2 i2 req s d :
  Accepted req s ->
  voteType req = Some "upvote" ->
  isPetition req = true ->
  petitionDetails req = Some d ->
  complete d ->
  (List.length (vote_rows (str (proposalId req)) (str (userId req)) s) <= 1)%nat ->
  (forall ev, In ev (vote_rows (str (proposalId req)) (str (userId req)) s) ->
              vote_type ev <> "upvote") ->
  let pid := str (proposalId req) in
  let uid := str (userId req) in
  let s2 := store_after (twice t1 i1 t2 i2 req req s) in
  vote_rows pid uid s2 = []
  /\ exists pd,
      In pd (petition_details s2) /\ petition_key pd = (pid, uid)
      /\ pd_verified pd = 1%Z /\ pd_full_name pd = str (fullName d).
Proof.
  intros Hacc Hvt Hpet Hd Hc Hlen Hty. cbv zeta.
  assert (Estr : str (voteType req) = "upvote") by now rewrite Hvt.
  assert (Hty' : forall ev,
             In ev (vote_rows (str (proposalId req)) (str (userId req)) s) ->
             vote_type ev <> str (voteType req)) by now rewrite Estr.
  destruct (first_call_leaves_one t1 i1 req s Hacc Hlen Hty')
    as (Hacc1 & row & Hrows & Hrow).
  assert (Hpd : exists pd,
             In pd (petition_details
                      (store_after (createOrUpdateVote t1 i1 req s)))
             /\ petition_key pd
                = (str (proposalId req), str (userId req))
             /\ pd_verified pd = 1%Z /\ pd_full_name pd = str (fullName d)).
  { rewrite (createOrUpdateVote_accepted t1 i1 req s Hacc), Estr.
    unfold processVote.
    destruct (first _ (votes s)) as [ev|] eqn:Hfirst.
    - assert (Hev : In ev (vote_rows (str (proposalId req))
                             (str (userId req)) s)).
      { apply find_some in Hfirst. now apply filter_In. }
      apply Hty, String.eqb_neq in Hev. rewrite Hev.
      rewrite (finishVote_upsert t1 req _ _ _ _ d Hpet Hd).
      match goal with |- context [processPetitionDetails _ _ _ _ ?s1] =>
        destruct (upsert_present t1 (str (proposalId req))
                    (str (userId req)) d s1 Hc) as (pd & A & B & C & _ & E)
      end.
      exists pd. auto.
    - rewrite (finishVote_upsert t1 req _ _ _ _ d Hpet Hd).
      match goal with |- context [processPetitionDetails _ _ _ _ ?s1] =>
        destruct (upsert_present t1 (str (proposalId req))
                    (str (userId req)) d s1 Hc) as (pd & A & B & C & _ & E)
      end.
      exists pd. auto. }
  unfold twice.
  destruct (createOrUpdateVote t1 i1 req s) as [[s1 log1] resp1].
  unfold store_after in *. simpl in Hacc1, Hrows, Hpd.
  rewrite (createOrUpdateVote_accepted t2 i2 req s1 Hacc1).
  rewrite (processVote_removed t2 i2 req _ _ _ s1 row [] Hrows Hrow).
  simpl. split; [|exact Hpd].
  unfold vote_rows. simpl. rewrite filter_delete_from.
  fold (vote_rows (str (proposalId req)) (str (userId req)) s1).
  rewrite Hrows. apply delete_from_single.
Qed.

Lemma petition_details_outlive_vote_witness :
  let s2 :=
    store_after (twice 2000 2 3000 3 (petition_request complete_payload)
                   (petition_request complete_payload) example_store) in
  vote_rows "p1" "u1" s2 = []
  /\ exists pd,
      In pd (petition_details s2) /\ petition_key pd = ("p1", "u1")
      /\ pd_verified pd = 1%Z /\ pd_full_name pd = "Ann Lee".
Proof.
  apply (petition_details_outlive_vote 2000 2 3000 3
           (petition_request complete_payload) example_store
           complete_payload).
  - apply (petition_request_accepted _ []).
  - reflexivity.
  - reflexivity.
  - reflexivity.
  - reflexivity.
  - simpl. lia.
  - simpl. intros ev [].
Defined.

(* ================================================================== *)
(** * Properties of the read handlers *)
(* ================================================================== *)

(** X7: [getCommentVotes] reports the vote that [createOrUpdateCommentVote]
    has just answered: asked for the same comment and user right after a
    successful call, on a pair that had at most one row, its userVote is the
    voteType of that answer, null after a removal. *)
Theorem getCommentVotes_after_vote t i rnd req s s' cid uid v action :
  createOrUpdateCommentVote t i rnd req s
  = (s', CommentVoteDone cid uid v action) ->
  (List.length (filter (comment_votes_where cid uid) (comment_votes s)) <= 1)%nat ->
  exists up down,
    getCommentVotes (Some cid) (Some uid) s' = CommentVotes cid up down v.
Proof.
  unfold createOrUpdateCommentVote.
  destruct (negb (truthy (cv_commentId req)) || negb (truthy (cv_userId req))
            || negb (truthy (cv_voteType req))) eqn:Hval; [discriminate|].
  apply orb_false_iff in Hval as [Hval _].
  apply orb_false_iff in Hval as [Hc Hu].
  apply negb_false_iff in Hc, Hu.
  destruct (negb _ && _); [discriminate|].
  destruct (first _ (users s)); [|discriminate].
  destruct (first _ (comments s)); [|discriminate].
  assert (Hget : forall table w,
            truthy (Some (str (cv_commentId req))) = true ->
            first (comment_votes_where (str (cv_commentId req))
                     (str (cv_userId req))) table
            = w ->
            exists up down,
              getCommentVotes (Some (str (cv_commentId req)))
                (Some (str (cv_userId req))) (set_comment_votes s table)
              = CommentVotes (str (cv_commentId req)) up down
                  (match w with
                   | Some r => Some (cv_vote_type r)
                   | None => None
                   end)).
  { intros table w Hc' Hw. unfold getCommentVotes.
    rewrite Hc'. simpl negb. cbv iota.
    replace (truthy (Some (str (cv_userId req)))) with true
      by (destruct (cv_userId req); simpl in *; congruence).
    simpl str. simpl comment_votes. rewrite Hw. eauto. }
  assert (Hc' : truthy (Some (str (cv_commentId req))) = true)
    by (destruct (cv_commentId req); simpl in *; congruence).
  destruct (first _ (comment_votes s)) as [ev|] eqn:Hfirst.
  - assert (Hfirst' := Hfirst).
    apply find_some in Hfirst' as [Hin Hkey].
    destruct (cv_vote_type ev =? _)%string eqn:Hty.
    + intros [= <- <- <- <- _] Hlen.
      apply (Hget _ None Hc').
      unfold first. rewrite find_hd_filter.
      rewrite filter_delete_from.
      rewrite find_hd_filter in Hfirst.
      destruct (filter _ (comment_votes s)) as [|x [|y rest]];
        simpl in *; try lia; try discriminate.
      injection Hfirst as ->. unfold delete_from, cv_id_is. simpl.
      now rewrite String.eqb_refl.
    + intros [= <- <- <- <- _] Hlen.
      apply (Hget _ (Some (mkCommentVote (cv_id ev) (cv_comment_id ev)
                             (cv_user_id ev) (str (cv_voteType req)) t))
               Hc').
      unfold first. rewrite find_hd_filter.
      rewrite filter_update_set by reflexivity.
      rewrite find_hd_filter in Hfirst.
      destruct (filter _ (comment_votes s)) as [|x [|y rest]];
        simpl in *; try lia; try discriminate.
      injection Hfirst as ->. unfold cv_id_is. simpl.
      now rewrite String.eqb_refl.
  - intros [= <- <- <- <- _] Hlen.
    apply (Hget _ (Some (mkCommentVote
                           (("comment_vote_" ++ string_of_Z i ++ "_" ++ rnd)%string)
                           (str (cv_commentId req)) (str (cv_userId req))
                           (str (cv_voteType req)) t)) Hc').
    unfold first, insert_into in *. rewrite (find_app_none _ _ _ Hfirst).
    simpl. unfold comment_votes_where. simpl.
    now rewrite !String.eqb_refl.
Qed.

Lemma getCommentVotes_after_vote_witness :
  exists up down,
    getCommentVotes (Some "c1") (Some "u1")
      (fst (createOrUpdateCommentVote 2000 2001 "k3x9a"
              (comment_vote_request "downvote") example_store))
    = CommentVotes "c1" up down (Some "downvote").
Proof.
  apply (getCommentVotes_after_vote 2000 2001 "k3x9a"
           (comment_vote_request "downvote") example_store _ "c1" "u1"
           (Some "downvote") "created").
  - reflexivity.
  - simpl. lia.
Defined.

Lemma select_proposals_ids s :
  map id (select_proposals s)
  = flat_map
      (fun p =>
         map (fun _ => prop_id p)
           (filter (fun u => (prop_author_id p =? user_id u)%string)
              (users s)))
      (proposals s).
Proof.
  unfold select_proposals. rewrite map_flat_map.
  apply flat_map_ext. intros p. now rewrite map_map.
Qed.

Lemma find_by_id_same_ids pid (l l' : list ListedProposal) :
  map id l = map id l' ->
  first (fun r => (id r =? pid)%string) l <> None ->
  exists row, first (fun r => (id r =? pid)%string) l' = Some row.
Proof.
  unfold first. revert l'.
  induction l as [|x l IH]; intros [|y l'] Hmap Hfound; simpl in *;
    try discriminate; try congruence.
  injection Hmap as Hid Hmap. rewrite <- Hid.
  destruct (id x =? pid)%string; [eauto|]. now apply IH.
Qed.

Lemma finishVote_not_removed t req pid uid vt s1 log1 a b :
  response_of (finishVote t req pid uid vt s1 log1) <> VoteRemoved a b.
Proof.
  unfold finishVote, response_of.
  destruct ((vt =? "upvote")%string && isPetition req); [|discriminate].
  destruct (petitionDetails req) as [d|]; [|discriminate].
  destruct (processPetitionDetails t pid uid d s1) as [[s2 log2] [early|]]
    eqn:E; [|discriminate].
  apply processPetitionDetails_early in E as [_ ->]. discriminate.
Qed.

(** X8: [getProposalById] reports the vote [createOrUpdateVote] has just
    recorded.  For a proposal that is listed (its author exists) and a pair
    with at most one Vote row, the handler, asked right after an accepted
    vote for the same proposal and user, finds the proposal and reports as
    userVote the vote type of the request, or null when the vote was
    removed. *)
Theorem getProposalById_after_vote t i req s path :
  Accepted req s ->
  nth_error (split_on "/api/proposals/" path) 1
  = Some (str (proposalId req)) ->
  first (fun r => (id r =? str (proposalId req))%string) (select_proposals s)
  <> None ->
  (List.length (vote_rows (str (proposalId req)) (str (userId req)) s) <= 1)%nat ->
  let r := createOrUpdateVote t i req s in
  exists row userVote signed verified,
    getProposalById path (userId req) (store_after r) = ProposalFound row
    /\ user_annotation row = Some (userVote, signed, verified)
    /\ (response_of r
        = VoteRemoved (str (proposalId req)) (str (userId req)) ->
        userVote = None)
    /\ (response_of r
        <> VoteRemoved (str (proposalId req)) (str (userId req)) ->
        userVote = Some (str (voteType req))).
Proof.
  intros Hacc Hpath Hlisted Hlen. cbv zeta.
  destruct (createOrUpdateVote_frame t i req s) as [U P].
  assert (Hids : map id (select_proposals
                           (store_after (createOrUpdateVote t i req s)))
                 = map id (select_proposals s))
    by (rewrite !select_proposals_ids, U, P; reflexivity).
  destruct (find_by_id_same_ids (str (proposalId req)) _ _
              (eq_sym Hids) Hlisted) as [row0 Hrow0].
  assert (Hp : truthy (Some (str (proposalId req))) = true).
  { pose proof (acc_proposalId _ _ Hacc) as H.
    destruct (proposalId req); simpl in *; congruence. }
  assert (Hu : truthy (userId req) = true) by apply (acc_userId _ _ Hacc).
  assert (Hget : forall w,
            first (votes_where (str (proposalId req)) (str (userId req)))
              (votes (store_after (createOrUpdateVote t i req s))) = w ->
            exists row signed verified,
              getProposalById path (userId req)
                (store_after (createOrUpdateVote t i req s))
              = ProposalFound row
              /\ user_annotation row
                 = Some (match w with
                         | Some v => Some (vote_type v)
                         | None => None
                         end, signed, verified)).
  { intros w Hw. unfold getProposalById.
    rewrite Hpath, Hp. simpl negb. cbv iota. cbn [str].
    rewrite Hrow0, Hu, Hw. do 3 eexists. split; reflexivity. }
  revert Hget. rewrite (createOrUpdateVote_accepted t i req s Hacc).
  set (pid := str (proposalId req)) in *.
  set (uid := str (userId req)) in *.
  set (vt := str (voteType req)) in *.
  intros Hget.
  destruct (vote_rows pid uid s) as [|ev rest] eqn:Hrows.
  - destruct (processVote_created t i req pid uid vt s Hrows)
      as (_ & R & _).
    destruct (Hget (Some (new_vote t i req pid uid vt)))
      as (row & sg & vf & G & A).
    { unfold first. rewrite find_hd_filter.
      fold (vote_rows pid uid (store_after (processVote t i req pid uid vt s))).
      now rewrite R. }
    exists row, (Some vt), sg, vf. repeat split; auto.
    intros Hrem. exfalso. revert Hrem. unfold processVote, first.
    rewrite find_hd_filter. fold (vote_rows pid uid s). rewrite Hrows.
    apply finishVote_not_removed.
  - destruct rest as [|? ?]; [|simpl in Hlen; lia].
    destruct (String.eqb_spec (vote_type ev) vt) as [Hty|Hty].
    + pose proof (processVote_removed t i req pid uid vt s ev [] Hrows Hty)
        as E.
      destruct (Hget None) as (row & sg & vf & G & A).
      { rewrite E. unfold store_after, first. simpl.
        rewrite find_hd_filter, filter_delete_from.
        fold (vote_rows pid uid s). rewrite Hrows.
        now rewrite delete_from_single. }
      exists row, None, sg, vf. repeat split; auto.
      intros Hne. exfalso. apply Hne. now rewrite E.
    + destruct (processVote_updated t i req pid uid vt s ev [] Hrows Hty)
        as (_ & R & _).
      destruct (Hget (Some (revoted t req vt ev)))
        as (row & sg & vf & G & A).
      { unfold first. rewrite find_hd_filter.
        fold (vote_rows pid uid
                (store_after (processVote t i req pid uid vt s))).
        now rewrite R, update_set_single. }
      exists row, (Some vt), sg, vf. repeat split; auto.
      intros Hrem. exfalso. revert Hrem. unfold processVote, first.
      rewrite find_hd_filter. fold (vote_rows pid uid s). rewrite Hrows.
      simpl. apply String.eqb_neq in Hty. rewrite Hty.
      apply finishVote_not_removed.
Qed.

Lemma getProposalById_after_vote_witness :
  exists row userVote signed verified,
    getProposalById "/api/proposals/p1" (Some "u1")
      (store_after
         (createOrUpdateVote 2000 2 (vote_request "downvote") example_store))
    = ProposalFound row
    /\ user_annotation row = Some (userVote, signed, verified)
    /\ userVote = Some "downvote".
Proof.
  destruct (getProposalById_after_vote 2000 2 (vote_request "downvote")
              example_store "/api/proposals/p1")
    as (row & uv & sg & vf & G & A & _ & H).
  - apply (example_accepted "downvote" []). now right.
  - reflexivity.
  - vm_compute. discriminate.
  - simpl. lia.
  - exists row, uv, sg, vf. repeat split; auto.
    apply H. vm_compute. discriminate.
Defined.

(* ================================================================== *)
(** * Properties of createOrGetUser *)
(* ================================================================== *)

(** X9: the first writer of a user id wins.  A second call for the same id
    changes nothing, whatever name it sends, although it answers with that
    name; a call for an id the store has leaves the store, and so the stored
    name, as it was; a call for a new id appends the user. *)
Theorem createOrGetUser_first_writer_wins uid name name2 s :
  truthy uid = true -> truthy name = true -> truthy name2 = true ->
  let r1 := createOrGetUser uid name s in
  createOrGetUser uid name2 (fst r1) = (fst r1, UserOk (str uid) (str name2))
  /\ (first (fun u => (user_id u =? str uid)%string) (users s) <> None ->
      r1 = (s, UserOk (str uid) (str name)))
  /\ (first (fun u => (user_id u =? str uid)%string) (users s) = None ->
      users (fst r1) = users s ++ [mkUser (str uid) (str name)]).
Proof.
  intros Hid Hn Hn2. cbv zeta. unfold createOrGetUser.
  rewrite Hid, Hn, Hn2. simpl.
  destruct (first _ (users s)) as [u|] eqn:Hfirst; simpl.
  - rewrite Hfirst. repeat split; auto. discriminate.
  - unfold first, insert_into in *. rewrite (find_app_none _ _ _ Hfirst).
    simpl. rewrite String.eqb_refl. repeat split; auto. congruence.
Qed.

Lemma createOrGetUser_first_writer_wins_witness :
  createOrGetUser (Some "u1") (Some "Zed") example_store
  = (example_store, UserOk "u1" "Zed").
Proof.
  apply (proj1 (proj2 (createOrGetUser_first_writer_wins (Some "u1")
                         (Some "Zed") (Some "Zed") example_store
                         eq_refl eq_refl eq_refl))).
  vm_compute. discriminate.
Defined.

(** X10: [createOrGetUser] keeps user ids unique, and once it has answered
    for a user, [createOrUpdateVote] no longer rejects that user as
    unknown. *)
Theorem createOrGetUser_then_vote uid name t i req s :
  truthy uid = true -> truthy name = true ->
  userId req = uid ->
  let s1 := fst (createOrGetUser uid name s) in
  (NoDup (map user_id (users s)) -> NoDup (map user_id (users s1)))
  /\ forall st,
      response_of (createOrUpdateVote t i req s1)
      <> VoteError st "User does not exist".
Proof.
  intros Hid Hn Hreq. cbv zeta.
  assert (Hknown : exists u,
             first (fun u => (user_id u =? str uid)%string)
               (users (fst (createOrGetUser uid name s))) = Some u).
  { unfold createOrGetUser. rewrite Hid, Hn. simpl.
    destruct (first _ (users s)) as [u|] eqn:Hfirst; simpl; [eauto|].
    unfold first, insert_into in *. rewrite (find_app_none _ _ _ Hfirst).
    simpl. rewrite String.eqb_refl. eauto. }
  split.
  - intros Hnd. unfold createOrGetUser. rewrite Hid, Hn. simpl.
    destruct (first _ (users s)) as [u|] eqn:Hfirst; simpl; [exact Hnd|].
    apply (NoDup_insert_into user_id
             (fun u => (user_id u =? str uid)%string)); auto.
    simpl. intros r ->. apply String.eqb_refl.
  - intros st. destruct Hknown as [u Hu].
    unfold createOrUpdateVote. rewrite Hreq.
    destruct (negb _ || _ || _); [discriminate|].
    destruct (negb _ && _); [discriminate|].
    rewrite Hu.
    destruct (first _ (proposals _)); [|discriminate].
    unfold processVote.
    destruct (first _ (votes _)) as [ev|].
    + destruct (vote_type ev =? _)%string; [discriminate|].
      intros H. apply finishVote_error in H. discriminate H.
    + intros H. apply finishVote_error in H. discriminate H.
Qed.

Lemma createOrGetUser_then_vote_witness :
  response_of
    (createOrUpdateVote 2000 2
       (mkVoteRequest (Some "p1") (Some "u9") (Some "upvote") false None)
       (fst (createOrGetUser (Some "u9") (Some "Ned") example_store)))
  <> VoteError 404 "User does not exist".
Proof.
  apply (createOrGetUser_then_vote (Some "u9") (Some "Ned") 2000 2
           (mkVoteRequest (Some "p1") (Some "u9") (Some "upvote") false None)
           example_store); reflexivity.
Defined.

(* ================================================================== *)
(** * Properties of getPetitionStats *)
(* ================================================================== *)

Section TopPostcodes.

Local Open Scope Z_scope.

Lemma insert_by_count_perm x rows :
  Permutation (insert_by_count x rows) (x :: rows).
Proof.
  induction rows as [|y rows IH]; simpl; [reflexivity|].
  destruct (snd y <=? snd x); [reflexivity|].
  rewrite IH. apply perm_swap.
Qed.

Lemma order_by_count_desc_perm rows :
  Permutation (order_by_count_desc rows) rows.
Proof.
  unfold order_by_count_desc.
  induction rows as [|x rows IH]; simpl; [reflexivity|].
  rewrite insert_by_count_perm. now constructor.
Qed.

Lemma insert_by_count_sorted x rows :
  StronglySorted more_signatures rows ->
  StronglySorted more_signatures (insert_by_count x rows).
Proof.
  unfold more_signatures.
  induction 1 as [|y rows Hs IH Hall]; simpl; [repeat constructor|].
  destruct (snd y <=? snd x) eqn:E.
  - apply Z.leb_le in E.
    constructor; [now constructor|].
    constructor; [exact E|].
    rewrite Forall_forall in *. intros z Hz.
    specialize (Hall z Hz). simpl in *. lia.
  - apply Z.leb_gt in E.
    constructor; [exact IH|].
    rewrite Forall_forall in *. intros z Hz.
    apply (Permutation_in _ (insert_by_count_perm x rows)) in Hz.
    destruct Hz as [<-|Hz]; [lia|now apply Hall].
Qed.

Lemma order_by_count_desc_sorted rows :
  StronglySorted more_signatures (order_by_count_desc rows).
Proof.
  unfold order_by_count_desc.
  induction rows as [|x rows IH]; simpl; [constructor|].
  now apply insert_by_count_sorted.
Qed.

Lemma StronglySorted_app_inv {A} (R : A -> A -> Prop) (l1 l2 : list A) :
  StronglySorted R (l1 ++ l2) ->
  forall x y, In x l1 -> In y l2 -> R x y.
Proof.
  induction l1 as [|a l1 IH]; simpl; intros Hs x y Hx Hy; [destruct Hx|].
  inversion Hs as [|? ? Hs' Hall]; subst.
  destruct Hx as [<-|Hx].
  - rewrite Forall_forall in Hall. apply Hall. apply in_or_app. now right.
  - now apply IH.
Qed.

Lemma NoDup_firstn {A} n (l : list A) : NoDup l -> NoDup (firstn n l).
Proof.
  intros H. rewrite <- (firstn_skipn n l) in H.
  now apply NoDup_app_remove_r in H.
Qed.

Lemma group_by_postcode_In pc n rows :
  In (pc, n) (group_by_postcode rows) ->
  n = signatures_of pc rows /\ In pc (map pd_postcode rows).
Proof.
  unfold group_by_postcode. intros H.
  apply in_map_iff in H as (q & [= -> <-] & Hq).
  split; [reflexivity|]. now apply nodup_In in Hq.
Qed.

Lemma signatures_positive pc rows :
  In pc (map pd_postcode rows) -> 1 <= signatures_of pc rows.
Proof.
  intros H. apply in_map_iff in H as (r & Hr & Hin).
  unfold signatures_of, count.
  assert (Hf : In r (filter (fun r => (pd_postcode r =? pc)%string) rows)).
  { apply filter_In. split; [exact Hin|]. rewrite Hr. apply String.eqb_refl. }
  destruct (filter _ rows); [destruct Hf|simpl; lia].
Qed.

End TopPostcodes.

(** X11: the top postcodes of [getPetitionStats] are what their name says.
    There are at most five, each listed once with the number of verified
    detail rows of the proposal that carry it (at least one), in descending
    order of that number; and a postcode of a verified row that is not
    listed has no more rows than any of the five that are. *)
Theorem top_postcodes proposalId s :
  truthy proposalId = true ->
  let rows := verified_details (str proposalId) s in
  let top := stats_topPostcodes (getPetitionStats proposalId s) in
  (List.length top <= 5)%nat
  /\ StronglySorted more_signatures top
  /\ NoDup (map fst top)
  /\ (forall pc n, In (pc, n) top ->
                   n = signatures_of pc rows /\ (1 <= n)%Z)
  /\ (forall pc, In pc (map pd_postcode rows) ->
                 In pc (map fst top)
                 \/ (List.length top = 5%nat
                     /\ forall e, In e top ->
                                  (signatures_of pc rows <= snd e)%Z)).
Proof.
  intros Hp. cbv zeta. unfold getPetitionStats. rewrite Hp.
  simpl negb. cbv iota. unfold stats_topPostcodes.
  fold (verified_details (str proposalId) s).
  set (rows := verified_details (str proposalId) s).
  set (sorted := order_by_count_desc (group_by_postcode rows)).
  assert (Hperm : Permutation sorted (group_by_postcode rows))
    by apply order_by_count_desc_perm.
  assert (Hsorted : StronglySorted more_signatures sorted)
    by apply order_by_count_desc_sorted.
  split; [rewrite length_firstn; lia|].
  split; [now apply StronglySorted_firstn|].
  split.
  { rewrite <- firstn_map. apply NoDup_firstn.
    apply (Permutation_NoDup (l := map fst (group_by_postcode rows))).
    - symmetry. now apply Permutation_map.
    - unfold group_by_postcode. rewrite map_map. simpl. rewrite map_id.
      apply NoDup_nodup. }
  split.
  { intros pc n Hin. apply In_firstn in Hin.
    apply (Permutation_in _ Hperm) in Hin.
    apply group_by_postcode_In in Hin as [-> Hpc].
    split; [reflexivity|now apply signatures_positive]. }
  intros pc Hpc.
  assert (Hin : In (pc, signatures_of pc rows) sorted).
  { apply (Permutation_in _ (Permutation_sym Hperm)).
    unfold group_by_postcode. apply in_map_iff. exists pc.
    split; [reflexivity|]. now apply nodup_In. }
  rewrite <- (firstn_skipn 5 sorted) in Hin, Hsorted.
  apply in_app_or in Hin as [Hin|Hin].
  - left. apply in_map_iff. now exists (pc, signatures_of pc rows).
  - right. split.
    + rewrite length_firstn.
      assert (5 < List.length sorted)%nat; [|lia].
      destruct (Nat.lt_ge_cases 5 (List.length sorted)) as [H|H]; [exact H|].
      destruct (Nat.eq_dec (List.length sorted) 5) as [E|E].
      * rewrite skipn_all2 in Hin by lia. destruct Hin.
      * rewrite skipn_all2 in Hin by lia. destruct Hin.
    + intros e He.
      exact (StronglySorted_app_inv _ _ _ Hsorted e _ He Hin).
Qed.

Lemma top_postcodes_witness :
  stats_topPostcodes (getPetitionStats (Some "p1") petition_store)
  = [("3000", 2%Z); ("2000", 1%Z)]
  /\ NoDup
       (map fst
          (stats_topPostcodes (getPetitionStats (Some "p1") petition_store))).
Proof.
  split; [reflexivity|].
  apply (top_postcodes (Some "p1") petition_store). reflexivity.
Defined.

(* ================================================================== *)
(** * Properties of the media handlers *)
(* ================================================================== *)





Lemma bucket_get_put key o (b : Bucket) :
  bucket_get key (bucket_put key o b) = Some o.
Proof.
  unfold bucket_get, bucket_put, first.
  rewrite find_app_none; [simpl; now rewrite String.eqb_refl|].
  destruct (find _ (filter _ b)) as [kv|] eqn:E; [|reflexivity].
  apply find_some in E as [Hin Hk]. apply filter_In in Hin as [_ Hn].
  rewrite Hk in Hn. discriminate.
Qed.

Lemma update_set_none {A} (set : A -> A) (where_ : A -> bool) (l : list A) :
  (forall r, In r l -> where_ r = false) -> update_set set where_ l = l.
Proof.
  unfold update_set. induction l as [|x l IH]; intros H; simpl;
    [reflexivity|].
  rewrite (H x (or_introl eq_refl)). f_equal.
  apply IH. intros r Hr. apply H. now right.
Qed.

Lemma uploadMeme_accepted now proposalId file env bucket :
  MEMES_BUCKET env = Some bucket ->
  truthy proposalId = true ->
  In (file_type file) validTypes ->
  (file_size file <= MAX_SIZE)%Z ->
  uploadMeme now proposalId (Some (FormFile file)) env
  = let name := uniqueFilename now (str proposalId) file in
    let memeUrl := ("https://theradicalparty.com/memes/" ++ name)%string in
    (mkEnv
       (set_proposals (DB env)
          (update_set
             (fun p => mkProposal (prop_id p) (prop_author_id p)
                         (prop_text p) (prop_timestamp p) (prop_trending p)
                         (Some memeUrl))
             (fun p => (prop_id p =? str proposalId)%string)
             (proposals (DB env))))
       (Some (bucket_put name (mkObject (file_content file) (file_type file))
                bucket))
       (AUDIO_BUCKET env),
     MemeUploaded (str proposalId) memeUrl).
Proof.
  intros Hb Hp Hty Hsz. unfold uploadMeme. rewrite Hb, Hp.
  destruct (existsb (String.eqb (file_type file)) validTypes) eqn:E1.
  - destruct (MAX_SIZE <? file_size file)%Z eqn:E2; [|reflexivity].
    apply Z.ltb_lt in E2. lia.
  - assert (E : existsb (String.eqb (file_type file)) validTypes = true).
    { apply existsb_exists. exists (file_type file).
      split; [exact Hty|apply String.eqb_refl]. }
    congruence.
Qed.





(** X14: [uploadMeme] does not look the proposal up.  For an id that no
    proposal has, a valid upload is answered as a success and the file is
    stored, while the store stays as it was. *)
Theorem upload_for_unknown_proposal now proposalId file env bucket :
  MEMES_BUCKET env = Some bucket ->
  truthy proposalId = true ->
  In (file_type file) validTypes ->
  (file_size file <= MAX_SIZE)%Z ->
  (forall p, In p (proposals (DB env)) -> prop_id p <> str proposalId) ->
  let name := uniqueFilename now (str proposalId) file in
  let r := uploadMeme now proposalId (Some (FormFile file)) env in
  (exists url, snd r = MemeUploaded (str proposalId) url)
  /\ DB (fst r) = DB env
  /\ exists b', MEMES_BUCKET (fst r) = Some b'
                /\ bucket_get name b'
                   = Some (mkObject (file_content file) (file_type file)).
Proof.
  intros Hb Hp Hty Hsz Hunknown. cbv zeta.
  rewrite (uploadMeme_accepted now proposalId file env bucket Hb Hp Hty Hsz).
  cbv zeta. cbn [fst snd DB MEMES_BUCKET].
  split; [eauto|]. split.
  - rewrite update_set_none.
    + unfold set_proposals. apply store_eta.
    + intros p Hin. apply String.eqb_neq. now apply Hunknown.
  - eexists. split; [reflexivity|apply bucket_get_put].
Qed.

Lemma upload_for_unknown_proposal_witness :
  DB (fst (uploadMeme 5000 (Some "ghost") (Some (FormFile example_file))
             example_env))
  = example_store.
Proof.
  apply (upload_for_unknown_proposal 5000 (Some "ghost") example_file
           example_env []).
  - reflexivity.
  - reflexivity.
  - simpl. auto.
  - vm_compute. discriminate.
  - simpl. intros p [<-|[]]. discriminate.
Defined.

(* ================================================================== *)
(** * Properties of the router *)
(* ================================================================== *)

(** X15: no preflight request is answered as one.  [fetch] calls
    [handleOptions] without the request, the handler throws on its first
    read, and the request ends in the outer catch: every OPTIONS request is
    answered 500 Internal Server Error, whatever its path and headers,
    although the handler answers 200 or 204 to any request it is given. *)
Theorem preflight_is_answered_500 request :
  (req_method request = "OPTIONS" ->
   fetch request = Answer 500 "Internal Server Error")
  /\ (handleOptions (Some request) = Some 200%Z
      \/ handleOptions (Some request) = Some 204%Z).
Proof.
  split.
  - intros Hm. unfold fetch. rewrite Hm. reflexivity.
  - unfold handleOptions. destruct (_ && _ && _); auto.
Qed.

Lemma preflight_is_answered_500_witness :
  fetch (mkRequest "OPTIONS" "/api/votes" []
           [("origin", "https://theradicalparty.com");
            ("access-control-request-method", "POST");
            ("access-control-request-headers", "content-type")])
  = Answer 500 "Internal Server Error".
Proof.
  apply (proj1 (preflight_is_answered_500 _)). reflexivity.
Defined.

Lemma prefix_split a s : prefix a s = true -> exists r, s = (a ++ r)%string.
Proof.
  revert s. induction a as [|c a IH]; intros s H.
  - exists s. reflexivity.
  - destruct s as [|d s]; [discriminate|]. simpl in H.
    destruct (ascii_dec c d) as [->|]; [|discriminate].
    destruct (IH s H) as [r ->]. exists r. reflexivity.
Qed.

(** X16: under /api/ only GET and POST requests reach a handler: a request
    with any other method (but OPTIONS, see X15) is answered 404 Not Found,
    PUT and DELETE included. *)
Theorem api_serves_get_and_post_only request :
  startsWith "/api/" (req_pathname request) = true ->
  req_method request <> "GET" ->
  req_method request <> "POST" ->
  req_method request <> "OPTIONS" ->
  fetch request = Answer 404 "Not Found".
Proof.
  intros Hapi Hget Hpost Hopt. unfold fetch.
  apply String.eqb_neq in Hget, Hpost, Hopt.
  rewrite Hopt, Hget, Hpost, !andb_false_r, Hapi.
  unfold startsWith in *. apply prefix_split in Hapi as [r ->].
  reflexivity.
Qed.

Lemma api_serves_get_and_post_only_witness :
  fetch (mkRequest "PUT" "/api/proposals/p1" [] [])
  = Answer 404 "Not Found".
Proof.
  apply api_serves_get_and_post_only; simpl; try reflexivity; discriminate.
Defined.

(** X17: [validateRequest] answers null exactly when every required
    parameter is in the query, and otherwise lists the missing ones, at
    least one, in the order they were required.  So the listing is served
    only to a request that names a userId. *)
Theorem required_parameters request required :
  (validateRequest request required = None <->
   forall p, In p required -> searchParams_has p request = true)
  /\ (forall missing,
         validateRequest request required = Some missing ->
         missing <> []
         /\ missing
            = filter (fun p => negb (searchParams_has p request)) required)
  /\ (req_method request = "GET" ->
      req_pathname request = "/api/proposals" ->
      fetch request
      = if searchParams_has "userId" request
        then Call getProposals_handler
        else MissingParameters ["userId"]).
Proof.
  unfold validateRequest. split; [|split].
  - destruct (filter _ required) as [|m ms] eqn:E; simpl.
    + split; [|reflexivity]. intros _ p Hp.
      destruct (searchParams_has p request) eqn:Hhas; [reflexivity|].
      assert (Hin : In p (filter
                            (fun param => negb (searchParams_has param request))
                            required))
        by (apply filter_In; rewrite Hhas; auto).
      rewrite E in Hin. destruct Hin.
    + split; [discriminate|]. intros Hall. exfalso.
      assert (Hin : In m (filter
                            (fun param => negb (searchParams_has param request))
                            required))
        by (rewrite E; now left).
      apply filter_In in Hin as [Hin Hneg].
      rewrite (Hall m Hin) in Hneg. discriminate.
  - intros missing.
    destruct (filter _ required) as [|m ms]; simpl; [discriminate|].
    intros [= <-]. split; [discriminate|reflexivity].
  - intros Hm Hp. unfold fetch, validateRequest. rewrite Hm, Hp. simpl.
    destruct (searchParams_has "userId" request); reflexivity.
Qed.

Lemma required_parameters_witness :
  fetch (mkRequest "GET" "/api/proposals" [("sortBy", "popular")] [])
  = MissingParameters ["userId"].
Proof.
  apply (proj2 (proj2 (required_parameters
                         (mkRequest "GET" "/api/proposals"
                            [("sortBy", "popular")] [])
                         ["userId"]))); reflexivity.
Defined.

(* ================================================================== *)
(** * Further properties of the share-image renderer *)
(* ================================================================== *)

Lemma escapeHTML_each s : escapeHTML s = escape_each s.
Proof.
  induction s as [|c s IH]; [reflexivity|].
  rewrite escapeHTML_cons, IH. reflexivity.
Qed.

Lemma entity_plain c : unsafe c = false -> entity c = String c EmptyString.
Proof.
  destruct c as [[] [] [] [] [] [] [] []]; intros H;
    try reflexivity; discriminate H.
Qed.

(** X18: the five replacements of [escapeHTML] amount to a single pass that
    puts the entity in the place of each unsafe character: an ampersand
    written by one replacement is not escaped again by a later one.  A text
    without unsafe characters is returned as it is. *)
Theorem escapeHTML_single_pass s :
  escapeHTML s = escape_each s /\ (plain s = true -> escapeHTML s = s).
Proof.
  split; [apply escapeHTML_each|].
  rewrite escapeHTML_each.
  induction s as [|c s IH]; [reflexivity|].
  cbn [plain escape_each]. intros H. apply andb_true_iff in H as [Hc Hs].
  apply negb_true_iff in Hc. rewrite (entity_plain c Hc), (IH Hs).
  reflexivity.
Qed.

Lemma escapeHTML_single_pass_witness :
  escapeHTML "Ban cars" = "Ban cars".
Proof.
  apply (proj2 (escapeHTML_single_pass "Ban cars")). reflexivity.
Defined.

Lemma entity_cases c :
  (c = "&"%char /\ entity c = "&amp;")
  \/ (c = "<"%char /\ entity c = "&lt;")
  \/ (c = ">"%char /\ entity c = "&gt;")
  \/ (c = DQUOTE /\ entity c = "&quot;")
  \/ (c = "'"%char /\ entity c = "&#039;")
  \/ (c <> "&"%char /\ entity c = String c EmptyString).
Proof.
  destruct c as [[] [] [] [] [] [] [] []];
    first [ left; split; reflexivity
          | right; left; split; reflexivity
          | right; right; left; split; reflexivity
          | right; right; right; left; split; reflexivity
          | right; right; right; right; left; split; reflexivity
          | right; right; right; right; right; split;
            [discriminate|reflexivity] ].
Qed.

Lemma escape_each_injective a : forall b,
  escape_each a = escape_each b -> a = b.
Proof.
  induction a as [|c a IH]; intros [|d b] H; cbn [escape_each] in H.
  - reflexivity.
  - exfalso.
    destruct (entity_cases d) as [[_ E]|[[_ E]|[[_ E]|[[_ E]|[[_ E]|[_ E]]]]]];
      rewrite E in H; discriminate H.
  - exfalso.
    destruct (entity_cases c) as [[_ E]|[[_ E]|[[_ E]|[[_ E]|[[_ E]|[_ E]]]]]];
      rewrite E in H; discriminate H.
  - destruct (entity_cases c)
      as [[Hc E]|[[Hc E]|[[Hc E]|[[Hc E]|[[Hc E]|[Hc E]]]]]];
    destruct (entity_cases d)
      as [[Hd F]|[[Hd F]|[[Hd F]|[[Hd F]|[[Hd F]|[Hd F]]]]]];
    rewrite E, F in H; cbn [append] in H;
    try discriminate H;
    try (injection H as H; subst; f_equal; now apply IH);
    try (injection H as Hx H; subst; f_equal; now apply IH);
    try (injection H as Hx H; exfalso; congruence).
Qed.

(** X19: [escapeHTML] loses nothing: two different texts are never escaped
    to the same markup. *)
Theorem escapeHTML_injective a b : escapeHTML a = escapeHTML b -> a = b.
Proof.
  rewrite !escapeHTML_each. apply escape_each_injective.
Qed.

Lemma escapeHTML_injective_witness : "a<b" = "a<b".
Proof.
  apply (escapeHTML_injective "a<b" "a<b"). reflexivity.
Defined.

Lemma Forall_assign_at {A} (P : A -> Prop) (f : A -> A) i (l : list A) :
  (forall x, P x -> P (f x)) -> Forall P l -> Forall P (assign_at i f l).
Proof.
  intros Hf. revert i.
  induction l as [|x l IH]; intros [|i] H; simpl; auto;
    inversion H; subst; constructor; auto.
Qed.

Lemma Forall_firstn_keep {A} (P : A -> Prop) n (l : list A) :
  Forall P l -> Forall P (firstn n l).
Proof.
  rewrite !Forall_forall. intros H x Hx. apply H.
  now apply (In_firstn n).
Qed.

(** X20: [generateSVGTextLines] never renders more than six lines, and a
    text that wraps to six lines or fewer is rendered in full, without the
    three dots. *)
Theorem at_most_six_lines text width :
  (List.length (limitedLines text width) <= 6)%nat
  /\ ((List.length (wrapped text width) <= 6)%nat ->
      limitedLines text width = wrapped text width).
Proof.
  unfold limitedLines. split.
  - destruct (6 <? _)%nat; rewrite ?assign_at_length, length_firstn; lia.
  - intros H. replace (6 <? List.length (wrapped text width))%nat with false
      by (symmetry; apply Nat.ltb_ge; exact H).
    apply firstn_all2. exact H.
Qed.

Lemma at_most_six_lines_witness :
  limitedLines "Ban cars" 960 = wrapped "Ban cars" 960.
Proof.
  apply (proj2 (at_most_six_lines "Ban cars" 960)). vm_compute. lia.
Defined.

Section LineLengths.

Local Open Scope Z_scope.

Lemma no_space_split s : Forall (fun w => no_space w = true) (split_space s).
Proof.
  induction s as [|c s IH]; simpl; [repeat constructor|].
  destruct (Ascii.eqb c " ") eqn:E.
  - constructor; [reflexivity|exact IH].
  - destruct (split_space s) as [|w ws]; [repeat constructor; simpl; now rewrite E|].
    inversion IH; subst. constructor; [|assumption].
    simpl. rewrite E. simpl. assumption.
Qed.

Lemma wrap_word_fits cpl lines cur w :
  no_space w = true ->
  Forall (fits_or_single_word cpl) lines ->
  fits_or_single_word cpl cur ->
  Forall (fits_or_single_word cpl) (fst (wrap_word cpl (lines, cur) w))
  /\ fits_or_single_word cpl (snd (wrap_word cpl (lines, cur) w)).
Proof.
  intros Hw Hl Hc. unfold wrap_word.
  destruct (Z.of_nat (String.length _) <=? cpl) eqn:E; simpl.
  - split; [exact Hl|]. left. now apply Z.leb_le.
  - split; [|now right].
    apply Forall_app. split; [exact Hl|]. now constructor.
Qed.

Lemma fold_wrap_word_fits cpl ws : forall lines cur,
  Forall (fun w => no_space w = true) ws ->
  Forall (fits_or_single_word cpl) lines ->
  fits_or_single_word cpl cur ->
  Forall (fits_or_single_word cpl)
    (fst (fold_left (wrap_word cpl) ws (lines, cur)))
  /\ fits_or_single_word cpl
       (snd (fold_left (wrap_word cpl) ws (lines, cur))).
Proof.
  induction ws as [|w ws IH]; intros lines cur Hws Hl Hc; cbn [fold_left];
    [auto|].
  inversion Hws as [|? ? Hw Hrest]; subst.
  destruct (wrap_word_fits cpl lines cur w Hw Hl Hc) as [A B].
  destruct (wrap_word cpl (lines, cur) w) as [lines' cur'].
  apply IH; assumption.
Qed.

Lemma length_substring_0 m s :
  String.length (substring 0 m s) = Nat.min m (String.length s).
Proof.
  revert s. induction m as [|m IH]; intros [|c s]; simpl; auto.
Qed.

Lemma no_space_substring s : forall n m,
  no_space s = true -> no_space (substring n m s) = true.
Proof.
  induction s as [|c s IH]; intros n m H.
  - destruct n, m; reflexivity.
  - simpl in H. apply andb_true_iff in H as [Hc Hs].
    destruct n as [|n]; simpl.
    + destruct m as [|m]; simpl; [reflexivity|].
      now rewrite Hc, (IH 0%nat m Hs).
    + now apply IH.
Qed.

Lemma no_space_append a b :
  no_space (a ++ b) = no_space a && no_space b.
Proof.
  induction a as [|c a IH]; simpl; [reflexivity|].
  now rewrite IH, andb_assoc.
Qed.

Lemma truncated_fits cpl l :
  fits_or_single_word cpl l ->
  fits_or_single_word cpl (slice_drop_last 3 l ++ "...")%string.
Proof.
  unfold fits_or_single_word, slice_drop_last. intros [H|H].
  - destruct (Nat.le_gt_cases 3 (String.length l)) as [L|L].
    + left. rewrite length_append, length_substring_0.
      cbn [String.length]. lia.
    + right. replace (String.length l - 3)%nat with 0%nat by lia.
      destruct l; reflexivity.
  - right. rewrite no_space_append, no_space_substring by assumption.
    reflexivity.
Qed.

End LineLengths.

(** X21: every line [generateSVGTextLines] renders either fits the
    per-line budget or is a single word (a text without a space) that is
    longer than the budget; the truncated sixth line too. *)
Theorem rendered_lines_fit text width :
  Forall (fits_or_single_word (charsPerLine width)) (limitedLines text width).
Proof.
  assert (Hw : Forall (fits_or_single_word (charsPerLine width))
                 (wrapped text width)).
  { unfold wrapped.
    destruct (fold_wrap_word_fits (charsPerLine width) (split_space text) []
                EmptyString) as [H1 H2].
    - apply no_space_split.
    - constructor.
    - now right.
    - destruct (fold_left _ _ _) as [lines cur]. simpl in *.
      destruct (nonempty cur); [|exact H1].
      apply Forall_app. split; [exact H1|]. now constructor. }
  unfold limitedLines.
  destruct (6 <? _)%nat.
  - apply Forall_assign_at; [apply truncated_fits|].
    now apply Forall_firstn_keep.
  - now apply Forall_firstn_keep.
Qed.

(* ================================================================== *)
(** * Further properties of the proposal listing *)
(* ================================================================== *)

Lemma insert_sorted_perm clause x rows :
  Permutation (insert_sorted clause x rows) (x :: rows).
Proof.
  induction rows as [|y rows IH]; simpl; [reflexivity|].
  destruct (precedes clause x y); [reflexivity|].
  rewrite IH. apply perm_swap.
Qed.

Lemma order_by_perm clause rows : Permutation (order_by clause rows) rows.
Proof.
  unfold order_by. induction rows as [|x rows IH]; simpl; [reflexivity|].
  rewrite insert_sorted_perm. now constructor.
Qed.

Lemma In_skipn {A} n (l : list A) y : In y (skipn n l) -> In y l.
Proof.
  revert l. induction n as [|n IH]; intros l; simpl; [auto|].
  destruct l as [|x l]; [auto|]. intros H. right. now apply IH.
Qed.

Lemma In_limit_offset {A} limit offset (l : list A) y :
  In y (limit_offset limit offset l) -> In y l.
Proof.
  unfold limit_offset. destruct (limit <? 0)%Z; intros H.
  - now apply In_skipn in H.
  - apply In_firstn in H. now apply In_skipn in H.
Qed.

(** X22: a page of [getProposals] holds at most [limit] rows and never
    more than 100, for a limit parameter that is absent, unreadable, zero
    or positive.  A negative limit parameter is passed on as it is: on the
    first page the whole listing is returned. *)
Theorem page_size_bound page_param limit_param sortBy s :
  ((forall n, limit_param = Some n -> (0 <= n)%Z) ->
   let r := getProposals page_param limit_param sortBy s in
   (Z.of_nat (List.length (response_data r)) <= response_limit r)%Z
   /\ (response_limit r <= MAX_PAGE_SIZE)%Z)
  /\ (forall n, (n < 0)%Z ->
        Permutation
          (response_data (getProposals None (Some n) sortBy s))
          (select_proposals s)).
Proof.
  split.
  - intros Hpos. unfold getProposals. cbn [response_data response_limit limit].
    set (lim := Z.min (parseInt_or limit_param DEFAULT_PAGE_SIZE)
                  MAX_PAGE_SIZE).
    assert (Hlim : (1 <= lim <= MAX_PAGE_SIZE)%Z).
    { unfold lim, parseInt_or, DEFAULT_PAGE_SIZE, MAX_PAGE_SIZE.
      destruct limit_param as [n|]; [|lia].
      specialize (Hpos n eq_refl).
      destruct (n =? 0)%Z eqn:E; [lia|].
      apply Z.eqb_neq in E. lia. }
    split; [|lia].
    unfold limit_offset.
    replace (lim <? 0)%Z with false by (symmetry; apply Z.ltb_ge; lia).
    rewrite length_firstn. lia.
  - intros n Hn. unfold getProposals. cbn [response_data].
    unfold parseInt_or.
    replace (n =? 0)%Z with false by (symmetry; apply Z.eqb_neq; lia).
    replace (Z.min n MAX_PAGE_SIZE) with n by (unfold MAX_PAGE_SIZE; lia).
    unfold limit_offset.
    replace (n <? 0)%Z with true by (symmetry; apply Z.ltb_lt; lia).
    replace ((1 - 1) * n)%Z with 0%Z by lia.
    cbn [Z.to_nat skipn]. apply order_by_perm.
Qed.

Lemma page_size_bound_witness :
  (Z.of_nat
     (List.length
        (response_data
           (getProposals None (Some 1%Z) (Some "popular") contested_store)))
   <= 1)%Z.
Proof.
  apply (proj1 (page_size_bound None (Some 1%Z) (Some "popular")
                  contested_store)).
  intros n [= <-]. lia.
Defined.

(** X23: the pages of [getProposals] are the consecutive windows of one
    listing: page p of size L (1 to 100) holds the rows from position
    (p-1)L up to pL of the listing that a negative limit returns in full,
    so that consecutive pages neither repeat nor skip a row. *)
Theorem pages_are_windows p L sortBy s :
  (1 <= p)%Z -> (1 <= L <= MAX_PAGE_SIZE)%Z ->
  response_data (getProposals (Some p) (Some L) sortBy s)
  = firstn (Z.to_nat L)
      (skipn (Z.to_nat ((p - 1) * L))
         (response_data (getProposals None (Some (-1)%Z) sortBy s))).
Proof.
  intros Hp HL. unfold getProposals. cbn [response_data].
  unfold parseInt_or, MAX_PAGE_SIZE in *.
  replace (p =? 0)%Z with false by (symmetry; apply Z.eqb_neq; lia).
  replace (L =? 0)%Z with false by (symmetry; apply Z.eqb_neq; lia).
  replace (Z.min L 100) with L by lia.
  change (-1 =? 0)%Z with false. cbv iota.
  change (Z.min (-1) 100) with (-1)%Z.
  unfold limit_offset.
  replace (L <? 0)%Z with false by (symmetry; apply Z.ltb_ge; lia).
  change (-1 <? 0)%Z with true. cbv iota.
  change (Z.to_nat ((1 - 1) * -1)) with 0%nat.
  reflexivity.
Qed.

Lemma pages_are_windows_witness :
  response_data (getProposals (Some 2%Z) (Some 1%Z) (Some "popular")
                   contested_store)
  = firstn 1
      (skipn 1
         (response_data
            (getProposals None (Some (-1)%Z) (Some "popular")
               contested_store))).
Proof.
  apply (pages_are_windows 2 1 (Some "popular") contested_store).
  - lia.
  - unfold MAX_PAGE_SIZE. lia.
Defined.

Lemma annotate_ids userId s rows :
  map id (Part000.annotate userId s rows) = map id rows.
Proof.
  unfold Part000.annotate. rewrite map_map. reflexivity.
Qed.

(** X24: both listing handlers return rows of the store and nothing else.
    Every row of a page of [getProposals] is a row of the join of proposals
    and authors; the older handler returns each of these rows exactly once,
    whatever the sort key. *)
Theorem listing_returns_store_rows page_param limit_param sortBy userId s :
  (forall row,
      In row (response_data (getProposals page_param limit_param sortBy s)) ->
      In row (select_proposals s))
  /\ Permutation
       (map id (response_data (Part000.getProposals sortBy userId s)))
       (map id (select_proposals s)).
Proof.
  split.
  - intros row H. unfold getProposals in H. cbn [response_data] in H.
    apply In_limit_offset in H.
    now apply (Permutation_in _ (order_by_perm _ _)) in H.
  - unfold Part000.getProposals.
    set (results :=
           if (sortBy_or_newest sortBy =? "newest")%string
           then order_by [DESC timestamp] (select_proposals s)
           else if (sortBy_or_newest sortBy =? "popular")%string
           then order_by [DESC (fun r => (upvotes r - downvotes r)%Z)]
                  (select_proposals s)
           else if (sortBy_or_newest sortBy =? "controversial")%string
           then order_by [DESC (fun r => (upvotes r + downvotes r)%Z)]
                  (select_proposals s)
           else if (sortBy_or_newest sortBy =? "petitions")%string
           then order_by [DESC petition_signatures] (select_proposals s)
           else select_proposals s).
    assert (Hperm : Permutation results (select_proposals s)).
    { unfold results.
      repeat (destruct (_ =? _)%string; [apply order_by_perm|]).
      reflexivity. }
    cbv zeta. fold results.
    destruct (truthy userId && _); cbn [response_data].
    + rewrite annotate_ids. now apply Permutation_map.
    + now apply Permutation_map.
Qed.

Lemma precedes_newest a b :
  precedes [DESC timestamp] a b = true <-> (timestamp b <= timestamp a)%Z.
Proof.
  unfold precedes, compare_by, DESC.
  destruct (Z.compare_spec (timestamp b) (timestamp a));
    split; intros; try discriminate; try reflexivity; lia.
Qed.

Lemma precedes_oldest a b :
  precedes [ASC timestamp] a b = true <-> (timestamp a <= timestamp b)%Z.
Proof.
  unfold precedes, compare_by, ASC.
  destruct (Z.compare_spec (timestamp a) (timestamp b));
    split; intros; try discriminate; try reflexivity; lia.
Qed.

Lemma newest_sorted rows : newest_first (order_by [DESC timestamp] rows).
Proof.
  apply order_by_sorted.
  - intros a b. apply precedes_newest.
  - intros a b H.
    destruct (precedes [DESC timestamp] b a) eqn:E;
      [now apply precedes_newest|].
    exfalso. revert H E. unfold precedes, compare_by, DESC.
    destruct (Z.compare_spec (timestamp b) (timestamp a));
      destruct (Z.compare_spec (timestamp a) (timestamp b));
      intros; try discriminate; lia.
  - intros a b c. lia.
Qed.

(** X25: without a sort key, with the key newest and with any key
    [getProposals] does not know, the page runs from the newest proposal to
    the oldest; with the key oldest it runs from the oldest to the
    newest. *)
Theorem listing_by_time page_param limit_param sortBy s :
  (str sortBy <> "oldest" -> str sortBy <> "popular" ->
   str sortBy <> "controversial" ->
   newest_first
     (response_data (getProposals page_param limit_param sortBy s)))
  /\ oldest_first
       (response_data
          (getProposals page_param limit_param (Some "oldest") s)).
Proof.
  split.
  - intros H1 H2 H3. unfold getProposals. cbn [response_data].
    apply StronglySorted_limit_offset.
    assert (Hs : sortBy_or_newest sortBy = "newest"
                 \/ sortBy_or_newest sortBy = str sortBy).
    { unfold sortBy_or_newest. destruct (truthy sortBy); auto. }
    apply String.eqb_neq in H1, H2, H3.
    destruct Hs as [-> | ->].
    + apply newest_sorted.
    + rewrite H1, H2, H3.
      destruct (str sortBy =? "newest")%string; apply newest_sorted.
  - unfold getProposals. cbn [response_data].
    apply StronglySorted_limit_offset. simpl.
    apply order_by_sorted.
    + intros a b. apply precedes_oldest.
    + intros a b H.
      destruct (precedes [ASC timestamp] b a) eqn:E;
        [now apply precedes_oldest|].
      exfalso. revert H E. unfold precedes, compare_by, ASC.
      destruct (Z.compare_spec (timestamp b) (timestamp a));
        destruct (Z.compare_spec (timestamp a) (timestamp b));
        intros; try discriminate; lia.
    + intros a b c. lia.
Qed.

Lemma listing_by_time_witness :
  newest_first
    (response_data (getProposals None None (Some "trending") contested_store)).
Proof.
  apply (proj1 (listing_by_time None None (Some "trending") contested_store));
    simpl; discriminate.
Defined.

(* ================================================================== *)
(** * Further properties of the meta-tag injector *)
(* ================================================================== *)






Lemma indexOf_none_cons needle c s :
  indexOf needle (String c s) = None ->
  prefix needle (String c s) = false /\ indexOf needle s = None.
Proof.
  cbn [indexOf]. destruct (prefix needle (String c s)); [discriminate|].
  destruct (indexOf needle s); [discriminate|auto].
Qed.

Lemma remove_matches_none r s :
  (forall t, prefix "<meta" t = false -> match_at r t = None) ->
  indexOf "<meta" s = None ->
  remove_matches r 0 s = s.
Proof.
  intros Hr. induction s as [|c s IH]; intros H; [reflexivity|].
  apply indexOf_none_cons in H as [Hp Hs].
  cbn [remove_matches]. rewrite (Hr _ Hp), (IH Hs). reflexivity.
Qed.

Lemma meta_tag_needs_meta r t :
  prefix "<meta" t = false ->
  match_at (Seq (Chars "<meta") r) t = None.
Proof.
  intros H. unfold match_at. cbn [rmatch]. now rewrite H.
Qed.

(** X28: a page in which the text <meta does not occur is left as it is
    by the three removals. *)
Theorem strip_keeps_page_without_meta html :
  indexOf "<meta" html = None -> strip_image_tags html = html.
Proof.
  intros H. unfold strip_image_tags, replace_all_empty.
  rewrite (remove_matches_none og_image_tag html);
    [|intros t; apply meta_tag_needs_meta|exact H].
  rewrite (remove_matches_none twitter_image_tag html);
    [|intros t; apply meta_tag_needs_meta|exact H].
  apply remove_matches_none; [intros t; apply meta_tag_needs_meta|exact H].
Qed.

Lemma strip_keeps_page_without_meta_witness :
  strip_image_tags "<html><head></head></html>"
  = "<html><head></head></html>".
Proof.
  apply strip_keeps_page_without_meta. vm_compute. reflexivity.
Defined.

(* ================================================================== *)
(** * Properties of the service worker *)
(* ================================================================== *)

Section ServiceWorkerFacts.

Import ServiceWorker.

Lemma caches_match_app request cs1 cs2 :
  caches_match request (cs1 ++ cs2)
  = match caches_match request cs1 with
    | Some r => Some r
    | None => caches_match request cs2
    end.
Proof.
  induction cs1 as [|[n c] cs1 IH]; [reflexivity|].
  simpl. destruct (cache_match request c); [reflexivity|exact IH].
Qed.

Lemma caches_match_open request name cs :
  caches_match request (caches_open name cs) = caches_match request cs.
Proof.
  unfold caches_open. destruct (caches_has name cs); [reflexivity|].
  rewrite caches_match_app. destruct (caches_match request cs);
    [reflexivity|]. simpl. unfold cache_match.
  destruct (method request =? "GET")%string; reflexivity.
Qed.

Lemma caches_get_open name cs :
  exists cache, caches_get name (caches_open name cs) = Some cache.
Proof.
  unfold caches_open. destruct (caches_has name cs) eqn:E.
  - induction cs as [|[n c] cs IH]; [discriminate|].
    simpl in *. destruct (n =? name)%string; [eauto|]. apply IH, E.
  - clear E. induction cs as [|[n c] cs IH]; simpl.
    + rewrite String.eqb_refl. eauto.
    + destruct (n =? name)%string; [eauto|exact IH].
Qed.

Lemma cache_match_put request response cache cache' :
  cache_put request response cache = Some cache' ->
  cache_match request cache' = Some response.
Proof.
  unfold cache_put, cache_match.
  destruct (method request =? "GET")%string; [|discriminate].
  intros H. injection H as <-.
  rewrite find_app_none.
  - simpl. rewrite String.eqb_refl. reflexivity.
  - induction cache as [|e cache IH]; [reflexivity|]. simpl.
    destruct (url (fst e) =? url request)%string eqn:E; simpl;
      [exact IH|]. rewrite E. exact IH.
Qed.

Lemma caches_match_set request response name cache cache' cs :
  caches_match request cs = None ->
  caches_get name cs = Some cache ->
  cache_put request response cache = Some cache' ->
  caches_match request (caches_set name cache' cs) = Some response.
Proof.
  intros Hnone Hget Hput.
  induction cs as [|[n c] cs IH]; [discriminate|].
  simpl in *. destruct (cache_match request c) eqn:Ec; [discriminate|].
  destruct (n =? name)%string.
  - simpl. now rewrite (cache_match_put _ _ _ _ Hput).
  - simpl. rewrite Ec. apply IH; assumption.
Qed.

End ServiceWorkerFacts.

(** X29: the fetch listener of the service worker stores no answer to a
    request that is not a GET or whose URL contains /api/, and none that
    is not a 200 from the same origin: after such a request every request
    is answered from the caches as before. *)
Theorem service_worker_stores_plain_pages_only network request caches :
  never_stored request
  \/ (forall response, network request = Some response
                       -> ~ storable response) ->
  forall other,
    ServiceWorker.caches_match other
      (snd (ServiceWorker.on_fetch network request caches))
    = ServiceWorker.caches_match other caches.
Proof.
  intros H other. unfold ServiceWorker.on_fetch.
  destruct (ServiceWorker.caches_match request caches); [reflexivity|].
  destruct (network request) as [response|] eqn:En; [|reflexivity].
  destruct (negb (ServiceWorker.status response =? 200)%Z
            || negb (ServiceWorker.type response =? "basic")%string)
    eqn:Eok; [reflexivity|].
  cbn [snd].
  destruct H as [[Hm | Hi] | Hs].
  - destruct (ServiceWorker.includes "/api/" (ServiceWorker.url request));
      [apply caches_match_open|]. cbn [negb].
    destruct (ServiceWorker.caches_get _ _); [|apply caches_match_open].
    unfold ServiceWorker.cache_put.
    destruct (ServiceWorker.method request =? "GET")%string eqn:E.
    + apply String.eqb_eq in E. contradiction.
    + apply caches_match_open.
  - rewrite Hi. cbn [negb]. apply caches_match_open.
  - exfalso. apply (Hs response eq_refl).
    apply Bool.orb_false_elim in Eok as [A B].
    apply Bool.negb_false_iff in A, B.
    split; [now apply Z.eqb_eq|now apply String.eqb_eq].
Qed.

Lemma service_worker_stores_plain_pages_only_witness :
  never_stored api_request
  /\ ServiceWorker.caches_match api_request
       (snd (ServiceWorker.on_fetch
               (fun _ => Some stylesheet) api_request []))
     = None.
Proof.
  assert (H : never_stored api_request) by (right; reflexivity).
  split; [exact H|].
  apply (service_worker_stores_plain_pages_only
           (fun _ => Some stylesheet) api_request [] (or_introl H)
           api_request).
Defined.

(** X30: a GET outside the API that no cache answers and that the network
    answers with a 200 from the same origin is answered from the caches
    from then on, with that answer, whatever the network does. *)
Theorem service_worker_serves_offline network network' request response
    caches :
  ServiceWorker.method request = "GET"%string ->
  ServiceWorker.includes "/api/" (ServiceWorker.url request) = false ->
  ServiceWorker.caches_match request caches = None ->
  network request = Some response ->
  storable response ->
  let first := ServiceWorker.on_fetch network request caches in
  fst first = Some response
  /\ ServiceWorker.on_fetch network' request (snd first)
     = (Some response, snd first).
Proof.
  intros Hm Hi Hnone Hnet [Hs Ht] first.
  assert (Hfirst :
    fst first = Some response
    /\ ServiceWorker.caches_match request (snd first) = Some response).
  { unfold first, ServiceWorker.on_fetch.
    rewrite Hnone, Hnet, Hs, Ht, Hi. cbn.
    split; [reflexivity|].
    destruct (caches_get_open ServiceWorker.CACHE_NAME caches)
      as [cache Hget].
    fold ServiceWorker.CACHE_NAME. rewrite Hget.
    unfold ServiceWorker.cache_put at 1. rewrite Hm. cbn.
    apply (caches_match_set request response ServiceWorker.CACHE_NAME
             cache).
    - rewrite caches_match_open. exact Hnone.
    - exact Hget.
    - unfold ServiceWorker.cache_put. rewrite Hm. reflexivity. }
  destruct Hfirst as [A B]. split; [exact A|].
  unfold ServiceWorker.on_fetch at 1. rewrite B. reflexivity.
Qed.

Lemma service_worker_serves_offline_witness :
  ServiceWorker.on_fetch offline stylesheet_request
    (snd (ServiceWorker.on_fetch (fun _ => Some stylesheet)
            stylesheet_request []))
  = (Some stylesheet,
     snd (ServiceWorker.on_fetch (fun _ => Some stylesheet)
            stylesheet_request [])).
Proof.
  apply (service_worker_serves_offline (fun _ => Some stylesheet) offline
           stylesheet_request stylesheet []);
    try reflexivity.
  split; reflexivity.
Defined.
